(* ===== verification/_CoqProject ===== *)
-Q . S2P
Prelude.v
JsObject.v
JsNum.v
Message.v
State.v
Playback.v
Membership.v
Chat.v
Peer.v
EventLoop.v
Dom.v
Widget.v
Refinement.v
Invariant.v
Network.v
Popup.v
Page.v
Wire.v
