(* ===== verification/Prelude.v ===== *)
(** * WatchParty: a verification development of src/popup.js

    The repository is a browser extension (one source file, src/popup.js)
    that lets a group of peers watch one video in lock-step and chat.  Its
    core is the function [hostOrJoin] (popup.js:112-499), injected into the
    page: a closure that keeps

    - [party]: a JS object from peer id to [{name, connection}]
      (popup.js:113), the other participants;
    - [isDamp]: two booleans [play]/[pause] (popup.js:290-293), the echo
      suppression flags;
    - the page's [<video>] element and the chat widget;

    and reacts to the events of three collaborators: PeerJS (connections,
    data, close, error), the media element (native [play]/[pause] events)
    and the user (typed chat input).  Around it, popup.js:1-110 is the
    popup's button plumbing (host, join, go to a peer's URL).

    ** Files, in dependency order

    - [Prelude] (this file): the notation scope [wp_scope], the tactics
      ([invc], [bdestr]), the hint databases [wp] and [wp_rw], and the
      generic lemmas on lists and strings the components share.
    - [JsObject]: a JS object used as a dictionary (the [party] map) as an
      ordered association list: [get], [set] ([o[k] = v], in place or
      appended), [delete], [has] ([k in o]), [keys] ([Object.keys] and
      [for ... in] order).  Refined to stdpp's [gmap] by [to_gmap]; the
      equivalence "same lookups" is a setoid with [Proper] instances.
    - [JsNum]: media times as [NaN] or an exact rational, [Math.round],
      truthiness, [String(n)], [padStart] and [formatSeconds]
      (popup.js:331-341), with its equivalence to a reference m:ss
      rendering and its injectivity.
    - [Message]: the wire vocabulary (spec section 6) as an inductive
      type, [encode] (the object literals the code sends) and [decode]
      (the field reads and [switch (action)] of the data listener); the
      table of spec section 6 as a typing of wire values ([well_typed]).
    - [State]: the closure state of [hostOrJoin] as the record [St]
      (party, connection objects by id, [isDamp], the video element, the
      timer and media task queues, the counter, title and input texts),
      the handler monad [M] (state, a list of effects, a thrown
      [TypeError]), and [sendAll], the chat-widget writers,
      [updatePartyCounter] and [updateTitle]; [MediaSink], the interface
      of the media element (the spec's MediaSink) whose laws are the HTML
      [play()]/[pause()]/seek algorithms, and [html_media], its instance.  Effects ([ESend],
      [EConnect], [ERender], [ESound], ...) stand for the calls into
      PeerJS, the DOM and the audio elements.
    - [Playback] (a section over any [MediaSink] instance):
      [dampenedPause], [dampenedPlay], [playHandler],
      [pauseHandler] and the [play]/[pause] cases of the data listener;
      [runTimer] and [runMedia] run the head of the timer queue
      ([setTimeout] callbacks) and of the media event queue (native
      [play]/[pause] events); [drain] runs a schedule, a list of
      [TickTimer]/[TickMedia] choices, so every interleaving the event
      loop may pick is one schedule.
    - [Membership]: the [greet], [returnGreet], [requestConnections],
      [respondConnections], [getUrl] cases, the [open]/[close]/[error]
      listeners of [setupConnection] (popup.js:374-474) and the [peer]
      listeners (popup.js:476-498).  PeerJS connections are objects
      [Conn] in a [gmap] under fresh ids, with their status
      (connecting, open, closed) and the messages to send on [open].
    - [Chat]: [trim], [startsWith], [split] after ECMAScript, the command
      table and the [keyup] listener (popup.js:208-255), the [chat] case.
    - [Peer]: the data listener's dispatch [onData], the listener of every
      event a page receives ([handle]), PeerJS's delivery rule
      ([deliverable]: data and error only on an open connection, close
      once), [step], and [reachable], the states reachable from
      [hostOrJoin_init] by any sequence of events.
    - [EventLoop]: the page's own task sources, the [setTimeout]
      callbacks and the native media events, served in any order
      ([loop_step]).
    - [Dom]: the page's DOM as a store of nodes (a [gmap] from ids, with
      parent links, child lists, styles and listener lists), the DOM calls
      [hostOrJoin] makes ([createElement], [appendChild], [style], the
      [on<type>] properties, [addEventListener]) in a state monad [DM],
      and event dispatch with its capture, target and bubble phases and
      [stopPropagation].
    - [Widget]: [build], the construction of the chat widget
      (popup.js:119-206, 257, 296-297) call by call, and [render], the
      paragraph [addMessage]/[systemMessage]/[errorMessage] append
      (popup.js:259-284); [render_effects] applies a handler's [ERender]
      effects to the page.
    - [Refinement]: the spec's Party as an abstract transition system on
      [gmap], indexed by the event ([party_step]: a greeting on an open
      connection enters its peer under the greeted name, the close of an
      open connection removes its peer, any other event changes nothing),
      and the refinement of every event by its step.
    - [Invariant]: the invariant [inv] of a page and its proof over every
      event, and its consequences.
    - [Network]: several pages and the PeerJS transport between them
      (modelled from the spec's Transport capability, peerjs.min.js not
      being under src/): dials, the [connection] event, per-end [open],
      reliable ordered delivery per connection, close at both ends; a run
      is any sequence of transport and page events.
    - [Popup]: the popup page (popup.js:1-110, 501-503): the storage
      callback, the host/join/go-to/url-finder buttons, whose [await]
      points are pending continuations resumed by later events, the
      go-to peer's listeners, the runtime listener and [findUrl].  A
      pending promise may also reject ([Reject]): the handler then ends
      with an unhandled rejection.
    - [Page]: the composition of the closure state and the document: a
      [Page] is [hostOrJoin]'s [St] next to the [Doc] and the [Widget]
      [build] made ([page_init]); [page_step] runs [Peer.step], renders
      the step's [ERender] effects into the message list
      ([Widget.render_effects]) and writes the counter and title the
      listeners left into the abbr ([paint], the assignments of
      [updatePartyCounter]/[updateTitle]).  [shows] couples the two
      sides.
    - [Wire]: [sends_sent], a handler keeping every connection's [open]
      messages among those a page sends and sending only such messages,
      with the tactic [wire] that splits a handler into its steps as
      [pres] does; every listener satisfies it ([handle_sends_sent]), and
      so does every step of a [Network] run.

    ** Theorems

    - Codec ([Message]): [decode (encode m) = Some m] for every message;
      unknown tags decode to nothing; [encode] is injective; the wire
      values of the spec's table are exactly the encodings of the
      messages a page sends ([well_typed_sent]).
    - Wire ([Wire]): on a network of pages that ran [hostOrJoin], every
      message on the wire at every point of every run is one a page
      sends, so a well-typed record of the table and a [greet] without a
      [time]: every join notice reads "the party hasn't started yet"
      ([wire_sent_only]).
    - Time ([JsNum]): [formatSeconds] equals the reference m:ss rendering
      for non-negative times and is injective on rounded seconds; the
      spec's examples; a negative time renders as "-1:-5".
    - Echo suppression ([Playback]): a remote [pause] or [play] sends
      nothing on every schedule that serves the native event before the
      flag-clearing timer ([remote_pause_no_echo], [remote_play_no_echo]),
      and a remote [pause] is echoed to every member on the schedule that
      runs the timers first ([remote_pause_echo]): the [setTimeout(0)]
      race of the code.  A genuine local pause broadcasts one stamped
      [pause] per member; a local play is stamped with the time when its
      deferred callback runs ([local_play_time_late]).
    - Membership: the connections [respondConnections] opens (no skip of
      known ids), the effects of [greet], [close] and [error].
    - Chat: a chat line, a blank line, [/members], [/mute], and an unknown
      command (a [TypeError] before the input is cleared).
    - Event loop ([EventLoop]): every task lowers the queued media events
      counted twice plus the queued timers, so no run of the page's own
      tasks is infinite, in any order ([event_loop_terminates]).
    - Widget ([Widget], over any page whose video has a parent): a click,
      keydown or keyup inside the widget runs no bubble listener of the
      page ([widget_stops_input_events]); a key released in the input runs
      the chat's [keyup] listener, a click on "copy host id" its [alert],
      each then stopped by the container ([widget_listeners]); a
      [keypress] reaches the page unless a capture listener of the page
      itself stops it ([keypress_reaches_page]); the
      [ERender] effects become paragraphs of the message list, in order,
      holding their text in text nodes ([render_effects_lines]).  On a
      page that is [ordered] (every node's parent has a smaller id), the
      construction and any rendered lines keep it [ordered]
      ([widget_page_ordered]), so no [appendChild] of theirs attaches a
      node under its own descendant.  The proofs evaluate [build]
      symbolically ([chase] pushes lookups through
      the store's updates, [red_nodes] computes the node records) once, in
      [build_shape], and reason about dispatch with the lemmas of [Dom].
    - Page and document ([Page]): [shows] holds at [page_init] and every
      [page_step] keeps it, adding the step's lines, so after any run the
      message list holds exactly the lines the run's listeners rendered,
      in order ([page_transcript]), and, with [Invariant]'s [ui_ok], the
      counter's abbr in the document reads the party size plus one and
      its title the members' names ([page_counter_shows_party]).  The
      widget stays wired ([Widget.wired]) and every line hangs from the
      message list ([Widget.para_links]), so for the whole life of the
      page a click, keydown or keyup on the widget or on any line it has
      shown runs no bubble listener of the page
      ([page_stops_input_events]).  Each
      step is framed by ids: the paragraphs of earlier steps use ids
      above the widget's and below the step's [next], which neither
      [render] nor [paint] writes ([Page.lines_frame]).
    - Refinement: every event changes the party's [gmap] view by exactly
      its abstract Party step ([step_refines]): a chat, a close of a
      connection that never opened, or any other event changes nothing;
      the listeners that leave the party alone are proved so with the
      same [pres] machinery.
    - Network: the greet round trip between two pages for any states
      (spec section 8); the snapshot a host sends a joiner lists the
      joiner itself, for any state of the host
      ([snapshot_lists_joiner]).
    - Popup: the join flow, the refusal of an empty peer id, the go-to
      exchange with a page's [getUrl] case, the confirmation before
      opening a found URL; the name stored after a later edit, the name
      "undefined" when none is stored, and a rejected injection that
      aborts the click before [hostOrJoin] runs ([injection_rejected]).
    - Invariant: every reachable state has each party entry naming an
      open connection to that very peer, no duplicate key, the counter
      and title showing the party, and no suppression flag set once the
      timer queue is empty, so that running the pending timer tasks
      clears both flags from any reachable state
      ([flags_cleared_by_timers]); the close of one of two connections
      to a peer removes the peer ([close_forgets_peer]).  The preservation proof is
      by blocks: the steps that keep the membership go through [frame],
      the others ([enter], a new connection, the close listener, the
      dampened operations and the timers) have their own lemmas in the
      [pres] hint database, which the tactic [pres] applies.

    ** Bounds and fuel

    Peer ids are strings PeerJS's server assigns (UUIDs), never array
    indices, so the enumeration order of [party] is insertion order, as
    [JsObject] models it.  Handlers are straight-line or iterate over a
    finite list ([for_each]), [drain] recurses on its schedule and
    [run_net], [run_popup] on their lists of events.  One definition uses
    fuel: [Dom.path], whose fuel [next] bounds the ids in use: on an
    [ordered] document each parent link lowers the id, so the chain from
    any node reaches a root in fewer than [next] links ([Dom.path_root]),
    and the widget's pages are ordered ([widget_page_ordered]).
    Liveness of the event loop is expressed by quantifying over
    schedules, not by fuel.  Times are exact rationals: the code only
    compares, rounds and copies them, so binary64 rounding does not
    matter to the properties; [Math.round] is [floor (x + 1/2)], exact on
    rationals ([Infinity] and [-0] are not modelled).  [play()] on the
    element always succeeds: an autoplay rejection is not modelled.

    ** Not modelled

    [scrollTo] and [scrollIntoView] after a rendered line only move the
    view; [document.querySelector('video')] is an argument of [build];
    the style declarations are kept as strings, not interpreted; the
    chrome.* APIs are effects of the popup; PeerJS
    and the media element are environments,
    modelled by the events they deliver and their documented semantics
    (a [play()]/[pause()] that changes the element's state queues one
    native event).  Payloads of foreign senders whose fields have other
    types than the code's own literals are not modelled ([decode]).
    Chat strings are 8-bit ([String.string]); the
    [console.log] calls are omitted.  [appendChild] does not check for
    the [HierarchyRequestError] of a node appended under its own
    descendant: [build] never does that, as its [ordered] invariant
    shows.  The theorems on the widget take the page as [ordered], or as
    [fresh] where only new ids matter: a page whose scripts have moved an
    older node under a newer one is outside them.  In [Page], the chat
    input's [value] stays the closure state's [input] (the document's
    input node has no [value] field), and [paint] writes the counter and
    title after every step, where the code writes them only after a
    change of the party; under [shows] the other writes store what the
    abbr already holds. *)

From Stdlib Require Export QArith Qround Ascii String.
From stdpp Require Export prelude gmap strings.

(** * Notation scope of the development *)

Declare Scope wp_scope.
Delimit Scope wp_scope with wp.
#[global] Open Scope wp_scope.

(** * Automation *)

Create HintDb wp.
Create Rewrite HintDb wp_rw.

(** [invc H]: invert and clean up, the usual idiom of step-relation proofs. *)
Ltac invc H := inversion H; clear H; subst.

(** [bdestr]: case on every boolean test on strings in the goal, turning
    it into an (in)equation. *)
Ltac bdestr :=
  repeat (rewrite ?String.eqb_refl in *;
    match goal with
    | |- context [String.eqb ?a ?b] =>
        destruct (String.eqb_spec a b); subst
    | H : context [String.eqb ?a ?b] |- _ =>
        destruct (String.eqb_spec a b); subst
    end); rewrite ?String.eqb_refl in *.

(** * Generic lemmas shared by the components *)

Section lists.
Context {A : Type}.
Implicit Types (l : list A) (x : A).

Lemma filter_app_singleton (P : A -> bool) l x :
  List.filter P (l ++ [x]) = List.filter P l ++ (if P x then [x] else []).
Proof. rewrite List.filter_app. simpl. by destruct (P x). Qed.

Lemma Forall_app_singleton (P : A -> Prop) l x :
  Forall P (l ++ [x]) <-> Forall P l /\ P x.
Proof. rewrite Forall_app, Forall_singleton. done. Qed.
End lists.

Lemma mjoin_map_singleton {A B} (f : A -> list B) (g : A -> B) (l : list A) :
  (forall x, x ∈ l -> f x = [g x]) -> mjoin (map f l) = map g l.
Proof.
  induction l as [|x l IH]; intros Hf; [done|]. simpl.
  rewrite Hf by (apply elem_of_cons; by left).
  rewrite IH by (intros; apply Hf, elem_of_cons; by right). done.
Qed.

Lemma mapM_app_Some {A B} (f : A -> option B) l1 l2 k1 k2 :
  mapM f l1 = Some k1 -> mapM f l2 = Some k2 -> mapM f (l1 ++ l2) = Some (k1 ++ k2).
Proof. rewrite !mapM_Some. apply Forall2_app. Qed.

Lemma map_fst_map_snd {K A B} (f : A -> B) (l : list (K * A)) :
  map fst (map (fun p => (p.1, f p.2)) l) = map fst l.
Proof. induction l as [|[k a] l IH]; simpl; congruence. Qed.

(** String equality as a boolean, as the code's [===] on strings. *)
Lemma String_eqb_refl_true s : String.eqb s s = true.
Proof. apply String.eqb_refl. Qed.

#[export] Hint Rewrite String_eqb_refl_true : wp_rw.
#[export] Hint Resolve NoDup_nil_2 : wp.

(** * Strings: the code builds every notice by concatenation *)

Lemma string_length_app s t :
  String.length (s +:+ t) = (String.length s + String.length t)%nat.
Proof. induction s as [|c s IH]; simpl; [done|]. by rewrite IH. Qed.

Lemma string_app_cons c s t : String c s +:+ t = String c (s +:+ t).
Proof. reflexivity. Qed.

Lemma string_app_assoc s1 s2 s3 : (s1 +:+ s2) +:+ s3 = s1 +:+ (s2 +:+ s3).
Proof. induction s1 as [|c s1 IH]; [done|]. by rewrite !string_app_cons, IH. Qed.

Lemma string_app_nil_r s : s +:+ "" = s.
Proof. induction s as [|c s IH]; [done|]. by rewrite string_app_cons, IH. Qed.

Lemma list_ascii_of_string_app s t :
  list_ascii_of_string (s +:+ t) = list_ascii_of_string s ++ list_ascii_of_string t.
Proof. induction s as [|c s IH]; [done|]. rewrite string_app_cons. simpl. by rewrite IH. Qed.

#[export] Hint Rewrite string_app_assoc string_app_nil_r list_ascii_of_string_app : wp_rw.

(** Concatenations with prefixes of the same length split the same way. *)
Lemma string_app_inj s1 s2 t1 t2 :
  String.length s1 = String.length s2 -> s1 +:+ t1 = s2 +:+ t2 -> s1 = s2 /\ t1 = t2.
Proof.
  revert s2. induction s1 as [|c s1 IH]; intros [|c' s2]; simpl; try done.
  intros Hl Heq. injection Heq as -> Heq. injection Hl as Hl.
  destruct (IH s2 Hl Heq) as [-> ->]. done.
Qed.

(** ... and so do concatenations with suffixes of the same length. *)
Lemma string_app_inj_r s1 s2 t1 t2 :
  String.length t1 = String.length t2 -> s1 +:+ t1 = s2 +:+ t2 -> s1 = s2 /\ t1 = t2.
Proof.
  intros Hl Heq. apply string_app_inj; [|done].
  apply (f_equal String.length) in Heq. rewrite !string_length_app in Heq. lia.
Qed.
