(* ===== verification/JsObject.v ===== *)
(** * JS objects used as dictionaries

    [hostOrJoin] keeps its party in a plain JS object (popup.js:113,
    [const party = {}]) and uses exactly five operations on it:
    lookup [party[k]], assignment [party[k] = v] (popup.js:383, 423),
    [delete party[k]] (popup.js:463), membership [k in party]
    (popup.js:460) and enumeration, [Object.keys(party)] (popup.js:178, 393)
    and [for (const k in party)] (popup.js:168, 193, 221).

    A JS object is modelled as the list of its own properties in
    enumeration order.  For string keys that are not array indices (peer
    ids are server-assigned UUIDs, see the root header) the ECMAScript
    order is insertion order: an assignment to an existing key keeps its
    position, an assignment to a new key appends it, a deletion removes it.

    The model is refined to stdpp's [gmap] by [to_gmap]; "same lookups"
    ([equiv]) is an equivalence, coarser than equality because it forgets
    the order, and every operation is [Proper] for it. *)

From S2P Require Import Prelude.

Module JsObject.
Section obj.
Context {V : Type}.
Implicit Types (k : string) (v : V) (o : list (string * V)).

(** [o[k]]: the value of the first property named [k]. *)
Fixpoint get k o : option V :=
  match o with
  | [] => None
  | (k', v) :: o' => if String.eqb k k' then Some v else get k o'
  end.

(** [k in o] *)
Definition has k o : bool := match get k o with Some _ => true | None => false end.

(** [o[k] = v]: overwrite in place, or append a new property. *)
Definition set k v o : list (string * V) :=
  if has k o
  then map (fun p => if String.eqb k p.1 then (p.1, v) else p) o
  else o ++ [(k, v)].

(** [delete o[k]] *)
Definition delete k o : list (string * V) :=
  List.filter (fun p => negb (String.eqb k p.1)) o.

(** [Object.keys(o)], and the order of [for (const k in o)]. *)
Definition keys o : list string := map fst o.

(** Well-formedness: property names are distinct. *)
Definition wf o : Prop := NoDup (keys o).

(** The abstraction to a finite map. *)
Definition to_gmap o : gmap string V := list_to_map o.

(** Same lookups. *)
Definition equiv o1 o2 : Prop := forall k, get k o1 = get k o2.
End obj.
Arguments equiv {V} _ _.

(** ** Lookup after each operation *)

Section laws.
Context {V : Type}.
Implicit Types (k : string) (v : V) (o : list (string * V)).

Lemma has_get k o : has k o = true <-> is_Some (get k o).
Proof. unfold has. destruct (get k o); split; intros H; try done; by destruct H. Qed.

Lemma has_false k o : has k o = false <-> get k o = None.
Proof. unfold has. destruct (get k o); done. Qed.

Lemma get_map_set k k' v o :
  get k' (map (fun p => if String.eqb k p.1 then (p.1, v) else p) o) =
  if String.eqb k k' then (match get k' o with Some _ => Some v | None => None end) else get k' o.
Proof.
  induction o as [|[k1 v1] o IH]; simpl; bdestr; simpl; bdestr; done.
Qed.

Lemma get_app k o1 o2 :
  get k (o1 ++ o2) = match get k o1 with Some v => Some v | None => get k o2 end.
Proof. induction o1 as [|[k1 v1] o1 IH]; simpl; bdestr; done. Qed.

Lemma get_set k k' v o :
  get k' (set k v o) = if String.eqb k k' then Some v else get k' o.
Proof.
  unfold set. destruct (has k o) eqn:Hh.
  - rewrite get_map_set. apply has_get in Hh.
    destruct Hh as [w Hw]. bdestr; repeat case_match; congruence.
  - apply has_false in Hh. rewrite get_app. simpl.
    bdestr; repeat case_match; congruence.
Qed.

Lemma get_set_eq k v o : get k (set k v o) = Some v.
Proof. rewrite get_set. by rewrite String.eqb_refl. Qed.

Lemma get_set_ne k k' v o : k <> k' -> get k' (set k v o) = get k' o.
Proof. intros Hne. rewrite get_set. by bdestr. Qed.

Lemma get_delete k k' o :
  get k' (delete k o) = if String.eqb k k' then None else get k' o.
Proof.
  unfold delete. induction o as [|[k1 v1] o IH]; simpl; [by bdestr|].
  bdestr; simpl; bdestr; done.
Qed.

Lemma get_delete_eq k o : get k (delete k o) = None.
Proof. rewrite get_delete. by rewrite String.eqb_refl. Qed.

Lemma get_delete_ne k k' o : k <> k' -> get k' (delete k o) = get k' o.
Proof. intros Hne. rewrite get_delete. by bdestr. Qed.

Lemma elem_of_keys k o : k ∈ keys o <-> is_Some (get k o).
Proof.
  induction o as [|[k1 v1] o IH]; simpl.
  - rewrite elem_of_nil. split; [done|]. by intros [].
  - rewrite elem_of_cons, IH. bdestr; split; auto; intros [? | ?]; done.
Qed.

Lemma has_keys k o : has k o = true <-> k ∈ keys o.
Proof. by rewrite has_get, elem_of_keys. Qed.

(** In a well-formed object, each property is the one [get] finds. *)
Lemma get_elem_of k v o : NoDup (keys o) -> (k, v) ∈ o -> get k o = Some v.
Proof.
  induction o as [|[k1 v1] o IH]; simpl; intros Hnd Hin; [by apply elem_of_nil in Hin|].
  apply NoDup_cons in Hnd as [Hn Hnd]. apply elem_of_cons in Hin as [[= -> ->]|Hin].
  - by rewrite String.eqb_refl.
  - destruct (String.eqb_spec k k1) as [->|]; [|by apply IH].
    exfalso. apply Hn, list_elem_of_In, in_map_iff. exists (k1, v).
    split; [done|]. by apply list_elem_of_In.
Qed.
End laws.

#[export] Hint Rewrite @get_set_eq @get_delete_eq : wp_rw.

(** ** Enumeration order *)

Section order.
Context {V : Type}.
Implicit Types (k : string) (v : V) (o : list (string * V)).

Lemma keys_set_old k v o : has k o = true -> keys (set k v o) = keys o.
Proof.
  intros Hh. unfold set. rewrite Hh. unfold keys. rewrite map_map.
  apply map_ext. intros [k1 v1]. simpl. by destruct (String.eqb k k1).
Qed.

Lemma keys_set_new k v o : has k o = false -> keys (set k v o) = keys o ++ [k].
Proof. intros Hh. unfold set. rewrite Hh. unfold keys. by rewrite map_app. Qed.

Lemma keys_delete k o :
  keys (delete k o) = List.filter (fun k' => negb (String.eqb k k')) (keys o).
Proof.
  unfold keys, delete. induction o as [|[k1 v1] o IH]; simpl; [done|].
  destruct (String.eqb k k1); simpl; by rewrite IH.
Qed.

Lemma wf_nil : wf (V:=V) [].
Proof. constructor. Qed.

(** [wf] of a concrete object, by evaluation. *)
Lemma wf_compute o : bool_decide (NoDup (keys o)) = true -> wf o.
Proof. intros H. by apply bool_decide_eq_true in H. Qed.

Lemma wf_set k v o : wf o -> wf (set k v o).
Proof.
  unfold wf. intros Hnd. destruct (has k o) eqn:Hh.
  - by rewrite keys_set_old.
  - rewrite keys_set_new by done. apply NoDup_app. split_and!; [done| |].
    + intros x Hx ->%list_elem_of_singleton. apply has_keys in Hx. congruence.
    + apply NoDup_singleton.
Qed.

Lemma wf_delete k o : wf o -> wf (delete k o).
Proof.
  unfold wf. rewrite keys_delete. intros Hnd.
  apply NoDup_ListNoDup, List.NoDup_filter, NoDup_ListNoDup, Hnd.
Qed.
End order.

#[export] Hint Resolve wf_nil wf_set wf_delete : wp.

(** ** Refinement to [gmap] *)

Section refinement.
Context {V : Type}.
Implicit Types (k : string) (v : V) (o : list (string * V)).

Lemma to_gmap_lookup k o : to_gmap o !! k = get k o.
Proof.
  unfold to_gmap. induction o as [|[k1 v1] o IH]; simpl; [done|].
  rewrite lookup_insert. bdestr; case_decide; congruence.
Qed.

Lemma to_gmap_set k v o : to_gmap (set k v o) = <[k:=v]> (to_gmap o).
Proof.
  apply map_eq. intros k'. rewrite to_gmap_lookup, get_set, lookup_insert.
  bdestr; case_decide; try congruence. by rewrite to_gmap_lookup.
Qed.

Lemma to_gmap_delete k o : to_gmap (delete k o) = base.delete k (to_gmap o).
Proof.
  apply map_eq. intros k'. rewrite to_gmap_lookup, get_delete, lookup_delete.
  bdestr; case_decide; try congruence. by rewrite to_gmap_lookup.
Qed.

Lemma to_gmap_nil : to_gmap (V:=V) [] = ∅.
Proof. done. Qed.

Lemma to_gmap_has k o : has k o = true <-> k ∈ dom (to_gmap o).
Proof. by rewrite elem_of_dom, to_gmap_lookup, has_get. Qed.

Lemma equiv_to_gmap o1 o2 : equiv o1 o2 <-> to_gmap o1 = to_gmap o2.
Proof.
  split.
  - intros Heq. apply map_eq. intros k. by rewrite !to_gmap_lookup.
  - intros Heq k. by rewrite <- !to_gmap_lookup, Heq.
Qed.

(** A well-formed object has as many properties as its map has keys:
    [Object.keys(party).length] is the number of distinct peers. *)
Lemma to_gmap_size o : wf o -> size (to_gmap o) = length (keys o).
Proof.
  unfold wf, to_gmap, keys. induction o as [|[k1 v1] o IH]; simpl; intros Hnd.
  - apply map_size_empty.
  - apply NoDup_cons in Hnd as [Hn Hnd]. rewrite map_size_insert_None; [by rewrite IH|].
    apply eq_None_not_Some. intros Hs.
    apply Hn, elem_of_keys. rewrite <- to_gmap_lookup. exact Hs.
Qed.
End refinement.

(** ** The setoid of objects up to enumeration order *)

Section setoid.
Context {V : Type}.

#[export] Instance equiv_Equivalence : Equivalence (@equiv V).
Proof. split; repeat intro; congruence. Qed.

#[export] Instance get_Proper k : Proper (equiv ==> eq) (@get V k).
Proof. intros o1 o2 H. apply H. Qed.

#[export] Instance has_Proper k : Proper (equiv ==> eq) (@has V k).
Proof. intros o1 o2 H. unfold has. by rewrite (H k). Qed.

#[export] Instance set_Proper k v : Proper (equiv ==> equiv) (@set V k v).
Proof. intros o1 o2 H k'. rewrite !get_set. by rewrite (H k'). Qed.

#[export] Instance delete_Proper k : Proper (equiv ==> equiv) (@delete V k).
Proof. intros o1 o2 H k'. rewrite !get_delete. by rewrite (H k'). Qed.

#[export] Instance to_gmap_Proper : Proper (equiv ==> eq) (@to_gmap V).
Proof. intros o1 o2 H. by apply equiv_to_gmap. Qed.
End setoid.

End JsObject.

(** [o.[k]]: the property read [o[k]] of a JS object, [undefined] being
    [None]. *)
Notation "o .[ k ]" := (JsObject.get k o) (format "o .[ k ]") : wp_scope.
