(* ===== verification/JsNum.v ===== *)
(** * JS numbers, [Math.round], truthiness and [formatSeconds]

    The numbers the code handles are media times: [videoElem.currentTime]
    (finite and non-negative, seconds with a fractional part) and the
    [time] fields of the messages that carry it, plus the [undefined]
    [time] of a [greet] (popup.js:386), which [Math.round] turns into
    [NaN].  A finite number is modelled by its exact rational value, [Q];
    the operations applied to it are [Math.round] (exact in IEEE
    arithmetic), [Math.floor(r / 60)] and [r % 60] on the integer [r] it
    returns, which are exact for |r| < 2^53, far beyond any media time.

    [formatSeconds] (popup.js:331-341) renders a time as [m:ss].  The
    theorems show that for every time that rounds to a non-negative
    number of seconds it is the reference rendering [mmss] (minutes, a
    colon, exactly two digits of seconds), that it is injective in the
    rounded seconds, and how it renders [NaN] and negative times. *)

From S2P Require Import Prelude.
From stdpp Require Import pretty.
From Stdlib Require Import Lqa.

Module JsNum.

(** A JS number as the code meets it. *)
Inductive num := NaN | Fin (q : Q).

(** [Math.round]: the closest integer, ties toward +infinity.  [None] is
    the [NaN] result. *)
Definition Math_round (x : num) : option Z :=
  match x with
  | NaN => None
  | Fin q => Some (Qfloor (q + (1#2))%Q)
  end.

(** A numeric field that may be missing: [undefined] becomes [NaN] under
    [Math.round]. *)
Definition of_field (t : option Q) : num :=
  match t with Some q => Fin q | None => NaN end.

(** JS truthiness of a number, as in [if (time)] (popup.js:345, 359):
    [0] and [NaN] are falsy. *)
Definition truthy (x : num) : bool :=
  match x with
  | NaN => false
  | Fin q => negb (Qeq_bool q 0%Q)
  end.

(** [String(n)] for an integer-valued number. *)
Definition String_Z (z : Z) : string := pretty z.

(** [n] copies of the character [c]. *)
Fixpoint repeat_char (n : nat) (c : ascii) : string :=
  match n with O => "" | S n' => String c (repeat_char n' c) end.

(** [s.padStart(n, c)] for a one-character pad string. *)
Definition padStart (n : nat) (c : ascii) (s : string) : string :=
  if (n <=? String.length s)%nat then s else repeat_char (n - String.length s) c +:+ s.

(** [formatSeconds(secs)], popup.js:331-341. *)
Definition formatSeconds (secs : num) : string :=
  match Math_round secs with
  | None => "the party hasn't started yet"
  | Some roundedSecs =>
      let minutes := (roundedSecs `div` 60)%Z in
      let remaining := Z.rem roundedSecs 60 in
      let paddedSecs := padStart 2 "0"%char (String_Z remaining) in
      String_Z minutes +:+ ":" +:+ paddedSecs
  end.

(** Handlers are evaluated symbolically; the rendering of a symbolic time
    stays folded. *)
Arguments formatSeconds : simpl never.

(** ** Reference rendering *)

Definition digit (d : Z) : ascii := Ascii.ascii_of_nat (48 + Z.to_nat d).

(** Exactly two decimal digits of [d], for [0 <= d < 100]. *)
Definition two_digits (d : Z) : string :=
  String (digit (d `div` 10)) (String (digit (d `mod` 10)) "").

(** [m:ss] for a non-negative number of seconds [r]. *)
Definition mmss (r : Z) : string :=
  String_Z (r `div` 60) +:+ ":" +:+ two_digits (r `mod` 60).

(** ** Lemmas *)

(** [padStart] and [String] on each of the 60 possible seconds agree with
    the two-digit rendering: checked by evaluation. *)
Lemma padStart_two_digits_all :
  forallb (fun d => String.eqb (padStart 2 "0"%char (String_Z (Z.of_nat d)))
                               (two_digits (Z.of_nat d))) (seq 0 60) = true.
Proof. vm_compute. reflexivity. Qed.

Lemma padStart_two_digits d :
  (0 <= d < 60)%Z -> padStart 2 "0"%char (String_Z d) = two_digits d.
Proof.
  intros Hd. pose proof padStart_two_digits_all as Hall.
  rewrite forallb_forall in Hall.
  specialize (Hall (Z.to_nat d)). rewrite Z2Nat.id in Hall by lia.
  apply String.eqb_eq, Hall, in_seq. lia.
Qed.

Lemma digit_inj d1 d2 :
  (0 <= d1 < 10)%Z -> (0 <= d2 < 10)%Z -> digit d1 = digit d2 -> d1 = d2.
Proof.
  unfold digit. intros H1 H2 Heq.
  apply (f_equal Ascii.nat_of_ascii) in Heq.
  rewrite !Ascii.nat_ascii_embedding in Heq by lia. lia.
Qed.

Lemma two_digits_inj d1 d2 :
  (0 <= d1 < 100)%Z -> (0 <= d2 < 100)%Z -> two_digits d1 = two_digits d2 -> d1 = d2.
Proof.
  unfold two_digits. intros H1 H2 Heq. injection Heq as Hhi Hlo.
  apply digit_inj in Hhi; [|split; [apply Z.div_pos|apply Z.div_lt_upper_bound]; lia..].
  apply digit_inj in Hlo; [|pose proof (Z.mod_pos_bound d1 10); pose proof (Z.mod_pos_bound d2 10); lia..].
  rewrite (Z.div_mod d1 10), (Z.div_mod d2 10) by lia. lia.
Qed.

Lemma two_digits_length d : String.length (two_digits d) = 2%nat.
Proof. done. Qed.

(** ** Theorems *)

(** C30: On every time that rounds to a non-negative number of seconds, the
    code's rendering (floor division, [%], [String], [padStart]) is the
    reference rendering [m:ss] with exactly two digits of seconds. *)
Theorem formatSeconds_mmss q r :
  Math_round (Fin q) = Some r -> (0 <= r)%Z -> formatSeconds (Fin q) = mmss r.
Proof.
  intros Hr Hpos. unfold formatSeconds, mmss. rewrite Hr.
  rewrite Z.rem_mod_nonneg by lia.
  rewrite padStart_two_digits; [done|]. apply Z.mod_pos_bound. lia.
Qed.

(** The rendering is injective in the rounded seconds: two non-negative
    times that display the same have the same rounded value. *)
Theorem formatSeconds_inj q1 q2 r1 r2 :
  Math_round (Fin q1) = Some r1 -> Math_round (Fin q2) = Some r2 ->
  (0 <= r1)%Z -> (0 <= r2)%Z ->
  formatSeconds (Fin q1) = formatSeconds (Fin q2) -> r1 = r2.
Proof.
  intros H1 H2 P1 P2. rewrite (formatSeconds_mmss q1 r1), (formatSeconds_mmss q2 r2) by done.
  unfold mmss. intros Heq.
  apply string_app_inj_r in Heq as [Hm Hs]; [|done].
  apply (inj (String.append ":")) in Hs. apply two_digits_inj in Hs;
    [|pose proof (Z.mod_pos_bound r1 60); pose proof (Z.mod_pos_bound r2 60); lia..].
  apply (inj pretty) in Hm.
  rewrite (Z.div_mod r1 60), (Z.div_mod r2 60) by lia. lia.
Qed.

(** The renderings spec section 8 lists. *)
Theorem formatSeconds_examples :
  formatSeconds NaN = "the party hasn't started yet" /\
  formatSeconds (Fin 65) = "1:05" /\ formatSeconds (Fin 5) = "0:05".
Proof. vm_compute. auto. Qed.

(** A negative time renders with a negative minute and a negative
    seconds field: [%] keeps the sign of the dividend and [padStart]
    does not pad "-5". *)
Theorem formatSeconds_negative : formatSeconds (Fin (-5)) = "-1:-5".
Proof. vm_compute. reflexivity. Qed.

Lemma formatSeconds_mmss_witness :
  Math_round (Fin (125#2)) = Some 63%Z /\ formatSeconds (Fin (125#2)) = mmss 63.
Proof. split; [reflexivity|]. apply formatSeconds_mmss; [reflexivity|lia]. Defined.

Lemma formatSeconds_inj_witness :
  formatSeconds (Fin (249#4)) = formatSeconds (Fin (312#5)) /\ 62%Z = 62%Z.
Proof.
  assert (formatSeconds (Fin (249#4)) = formatSeconds (Fin (312#5))) as Heq by reflexivity.
  split; [exact Heq|]. apply (formatSeconds_inj (249#4) (312#5)); [reflexivity|reflexivity|lia|lia|exact Heq].
Defined.

End JsNum.
