(* ===== verification/Message.v ===== *)
(** * The message codec

    Peers exchange plain JS objects with an [action] discriminator over
    PeerJS data connections (spec section 6).  The sender side is the set
    of object literals passed to [conn.send] (popup.js:80, 387, 393, 408,
    431, 486, 487) and to [sendAll] (popup.js:247-250, 312-315, 325-328);
    the receiver side is the destructuring in the [data] handler
    (popup.js:376-456), a [switch (action)] whose [default] does nothing.

    [jsval] is the JSON-like value PeerJS carries (its serializer
    preserves objects, arrays, strings, numbers and booleans); [Msg] is the
    vocabulary, one constructor per tag, with the fields the receiver
    reads; [encode] builds the literal the sender writes and [decode] reads
    the fields the receiver reads.  The round trip [decode (encode m) = Some
    m] shows that every message a peer sends reaches the matching case of
    the switch with the values it was sent with; an unknown tag decodes to
    [None], the [default: break] of the switch. *)

From S2P Require Import Prelude.
From S2P Require Import JsObject.

Module Message.

#[local] Set Warnings "-register-all".

(** Values carried by a data connection. *)
Inductive jsval :=
| JUndefined
| JBool (b : bool)
| JNum (q : Q)
| JStr (s : string)
| JArr (l : list jsval)
| JObj (fields : list (string * jsval)).

(** The message vocabulary.  [Greet] carries the [time] the receiver
    reads at popup.js:386 although no sender ever sets it. *)
Inductive Msg :=
| Greet (name : string) (time : option Q)
| ReturnGreet (name : string)
| RequestConnections
| RespondConnections (connections : list string) (time : Q) (paused : bool)
| GetUrl
| ReturnUrl (url : string)
| Play (time : Q)
| Pause (time : Q)
| Chat (message : string).

#[export] Instance Q_eq_dec : EqDecision Q.
Proof. intros [n1 d1] [n2 d2]. destruct (decide (n1 = n2)), (decide (d1 = d2)); subst;
  [left; done|right; congruence..]. Defined.

#[export] Instance Msg_eq_dec : EqDecision Msg.
Proof. solve_decision. Defined.

(** The object literal each sender writes. *)
Definition encode (m : Msg) : jsval :=
  match m with
  | Greet name None => JObj [("action", JStr "greet"); ("name", JStr name)]
  | Greet name (Some t) =>
      JObj [("action", JStr "greet"); ("name", JStr name); ("time", JNum t)]
  | ReturnGreet name => JObj [("action", JStr "returnGreet"); ("name", JStr name)]
  | RequestConnections => JObj [("action", JStr "requestConnections")]
  | RespondConnections connections time paused =>
      JObj [("action", JStr "respondConnections");
            ("connections", JArr (map JStr connections));
            ("time", JNum time); ("paused", JBool paused)]
  | GetUrl => JObj [("action", JStr "getUrl")]
  | ReturnUrl url => JObj [("action", JStr "returnUrl"); ("url", JStr url)]
  | Play time => JObj [("action", JStr "play"); ("time", JNum time)]
  | Pause time => JObj [("action", JStr "pause"); ("time", JNum time)]
  | Chat message => JObj [("action", JStr "chat"); ("message", JStr message)]
  end.

(** [data.k]: a missing property reads as [undefined]. *)
Definition field (k : string) (data : jsval) : jsval :=
  match data with
  | JObj fs => default JUndefined (JsObject.get k fs)
  | _ => JUndefined
  end.

Definition as_str (v : jsval) : option string :=
  match v with JStr s => Some s | _ => None end.
Definition as_num (v : jsval) : option Q :=
  match v with JNum q => Some q | _ => None end.
Definition as_bool (v : jsval) : option bool :=
  match v with JBool b => Some b | _ => None end.
Definition as_strs (v : jsval) : option (list string) :=
  match v with JArr l => mapM as_str l | _ => None end.

(** The [switch (action)] of the data handler, reading the fields each
    case destructures.  A field of another type than the one every sender
    writes (a [greet] without a string [name], say) makes [decode] return
    [None], where the code would go on with that value; every message a
    page sends is well typed ([decode_encode]), so this only restricts
    what a foreign sender could inject. *)
Definition decode (data : jsval) : option Msg :=
  match as_str (field "action" data) with
  | None => None
  | Some action =>
    if String.eqb action "greet" then
      name ← as_str (field "name" data); Some (Greet name (as_num (field "time" data)))
    else if String.eqb action "requestConnections" then Some RequestConnections
    else if String.eqb action "respondConnections" then
      connections ← as_strs (field "connections" data);
      time ← as_num (field "time" data);
      paused ← as_bool (field "paused" data);
      Some (RespondConnections connections time paused)
    else if String.eqb action "returnGreet" then
      name ← as_str (field "name" data); Some (ReturnGreet name)
    else if String.eqb action "getUrl" then Some GetUrl
    else if String.eqb action "returnUrl" then
      url ← as_str (field "url" data); Some (ReturnUrl url)
    else if String.eqb action "play" then
      time ← as_num (field "time" data); Some (Play time)
    else if String.eqb action "pause" then
      time ← as_num (field "time" data); Some (Pause time)
    else if String.eqb action "chat" then
      message ← as_str (field "message" data); Some (Chat message)
    else None
  end.

(** The nine tags of the switch. *)
Definition tags : list string :=
  ["greet"; "requestConnections"; "respondConnections"; "returnGreet";
   "getUrl"; "returnUrl"; "play"; "pause"; "chat"].

(** The payload types of spec section 6. *)
Inductive jtype := TString | TNumber | TBoolean | TIds.

Definition is_str (v : jsval) : bool := match v with JStr _ => true | _ => false end.

Definition has_type (t : jtype) (v : jsval) : bool :=
  match t, v with
  | TString, JStr _ | TNumber, JNum _ | TBoolean, JBool _ => true
  | TIds, JArr l => forallb is_str l
  | _, _ => false
  end.

(** The table of spec section 6: the payload fields of each tag, in the
    order the senders write them. *)
Definition schema (action : string) : option (list (string * jtype)) :=
  if String.eqb action "greet" then Some [("name", TString)]
  else if String.eqb action "returnGreet" then Some [("name", TString)]
  else if String.eqb action "requestConnections" then Some []
  else if String.eqb action "respondConnections" then
    Some [("connections", TIds); ("time", TNumber); ("paused", TBoolean)]
  else if String.eqb action "getUrl" then Some []
  else if String.eqb action "returnUrl" then Some [("url", TString)]
  else if String.eqb action "play" then Some [("time", TNumber)]
  else if String.eqb action "pause" then Some [("time", TNumber)]
  else if String.eqb action "chat" then Some [("message", TString)]
  else None.

(** A flat record with the [action] discriminator first and exactly the
    fields its tag lists, each of its type. *)
Definition well_typed (v : jsval) : bool :=
  match v with
  | JObj ((k, JStr a) :: fs) =>
      String.eqb k "action" &&
      match schema a with
      | Some sch =>
          bool_decide (map fst fs = map fst sch) &&
          forallb (fun kt => has_type kt.2 (default JUndefined (JsObject.get kt.1 fs))) sch
      | None => false
      end
  | _ => false
  end.

(** The messages a page sends: no sender sets the [time] of a [greet]. *)
Definition sent (m : Msg) : Prop := match m with Greet _ (Some _) => False | _ => True end.

(** ** Theorems *)

Lemma mapM_as_str_map l : mapM as_str (map JStr l) = Some l.
Proof. induction l as [|s l IH]; simpl; [done|]. by rewrite IH. Qed.

(** C5: Round trip: every message a peer sends is decoded, by the receiver's
    switch, into the same message. *)
Theorem decode_encode m : decode (encode m) = Some m.
Proof.
  destruct m as [name [t|]| | | | | | | |]; try reflexivity;
    unfold decode, encode, field; simpl; rewrite ?mapM_as_str_map; reflexivity.
Qed.

(** C31: An object whose [action] is none of the nine tags falls into the
    [default] case: it decodes to nothing. *)
Theorem decode_unknown data action :
  field "action" data = JStr action -> action ∉ tags -> decode data = None.
Proof.
  intros Ha Hn. unfold decode. rewrite Ha. simpl.
  unfold tags in Hn. rewrite !not_elem_of_cons in Hn.
  destruct Hn as (H1 & H2 & H3 & H4 & H5 & H6 & H7 & H8 & H9 & _).
  repeat match goal with
  | |- context [String.eqb action ?t] =>
      destruct (String.eqb_spec action t); [congruence|]
  end. done.
Qed.

Lemma decode_unknown_witness :
  field "action" (JObj [("action", JStr "ping")]) = JStr "ping" /\
  decode (JObj [("action", JStr "ping")]) = None.
Proof.
  split; [reflexivity|]. apply (decode_unknown _ "ping"); [reflexivity|].
  unfold tags. rewrite !not_elem_of_cons. repeat split; try done. apply not_elem_of_nil.
Defined.

Lemma forallb_is_str l : forallb is_str l = true -> exists ss, l = map JStr ss.
Proof.
  induction l as [|[] l IH]; simpl; try discriminate; [by exists []|].
  intros (ss & ->)%IH. by exists (s :: ss).
Qed.

Lemma forallb_is_str_map ss : forallb is_str (map JStr ss) = true.
Proof. by induction ss. Qed.

(** Every message a page sends is a flat record of the table. *)
Lemma sent_well_typed m : sent m -> well_typed (encode m) = true.
Proof. destruct m as [name [t|]| | | | | | | |]; intros Hs; try done; simpl; by rewrite ?forallb_is_str_map. Qed.

(** [fields]: split a record by the keys its type lists. *)
Ltac fields :=
  repeat match goal with
  | Hks : map fst ?fs = _ :: _ |- _ =>
      destruct fs as [|[? ?] fs]; simpl in Hks; [discriminate|injection Hks as -> Hks]
  | Hks : map fst ?fs = [] |- _ => destruct fs; [clear Hks|discriminate]
  end.

(** C13: The wire values of spec section 6 are exactly the encodings of
    the messages a page sends: every message a page sends is a flat
    record of the table, and every record of the table is the encoding
    of one, which the receiver's switch decodes ([decode_encode]). *)
Theorem well_typed_sent v : well_typed v = true <-> exists m, sent m /\ encode m = v.
Proof.
  split.
  - intros H. destruct v as [| | | | |[|[k [| | |a| |] ] fs]]; try discriminate.
    simpl in H. apply andb_prop in H as [Hk H]. apply String.eqb_eq in Hk as ->.
    unfold schema in H. bdestr; try discriminate; apply andb_prop in H as [Hks Ht];
      apply bool_decide_eq_true in Hks; simpl in Hks; fields; simpl in Ht;
      repeat match goal with v : jsval |- _ =>
        destruct v; simpl in Ht; rewrite ?andb_false_r in Ht; try discriminate end;
      rewrite ?andb_true_r in Ht; try apply forallb_is_str in Ht as (ss & ->).
    + eexists (Greet _ None); split; [done|reflexivity].
    + eexists (ReturnGreet _); split; [done|reflexivity].
    + eexists RequestConnections; split; [done|reflexivity].
    + eexists (RespondConnections _ _ _); split; [done|reflexivity].
    + eexists GetUrl; split; [done|reflexivity].
    + eexists (ReturnUrl _); split; [done|reflexivity].
    + eexists (Play _); split; [done|reflexivity].
    + eexists (Pause _); split; [done|reflexivity].
    + eexists (Chat _); split; [done|reflexivity].
  - intros (m & Hs & <-). by apply sent_well_typed.
Qed.

(** [encode] is injective: distinct messages travel as distinct values. *)
Corollary encode_inj m1 m2 : encode m1 = encode m2 -> m1 = m2.
Proof.
  intros Heq. apply (f_equal decode) in Heq. rewrite !decode_encode in Heq. congruence.
Qed.

End Message.
