(* ===== verification/State.v ===== *)
(** * The state of [hostOrJoin] and the handler monad

    Every handler of [hostOrJoin] (popup.js:112-499) is a closure over the
    same variables: [party], [isDamp], [peer], [videoElem], [myName],
    [hostId] and the chat widget.  They are gathered in one record [St],
    together with what the browser keeps for the page: the DataConnection
    objects the code created or accepted, the pending [setTimeout]
    callbacks, the queued native media events.

    A handler is a computation in the monad [M]: it reads and writes [St],
    emits [Effect]s towards the collaborators (a [conn.send], a
    [peer.connect], a line of the chat widget, a sound, an [alert]) and may
    throw, as JS code does; the state changes and effects made before a
    throw remain, as they do in JS.  The monad is hooked into stdpp's
    [MRet]/[MBind], so handlers read as sequences [x ← c; k] and [c ;; k].

    The media element is the interface [MediaSink] (the spec's
    collaborator of that name): its laws are the HTML media element
    algorithms, [play()] on a paused element clears [paused] and queues a
    [play] event, [pause()] on a playing element sets [paused] and queues a
    [pause] event, otherwise neither queues anything; [html_media] is the
    browser's element, an instance.  Timer callbacks form one
    FIFO queue (all the code's timeouts are 0 ms), media events another;
    the event loop may interleave the two task sources in any order. *)

From S2P Require Import Prelude.
From S2P Require Import JsObject.
From S2P Require Import JsNum.
From S2P Require Import Message.
From stdpp Require Import pretty.

Module State.
Import JsNum Message.

(** ** Data *)

(** A DataConnection object, by the number of its creation. *)
Abbreviation ConnId := nat (only parsing).

Inductive ConnStatus := Connecting | Open | Closed.

(** A DataConnection as the page holds it: [conn.peer], whether its
    [open] event has fired (from then on the [data]/[close]/[error]
    handlers of [setupConnection] are installed, popup.js:375-472), and
    the messages an extra [open] listener sends (popup.js:407-409,
    485-488). *)
Record Conn := mkConn {
  c_peer : string;
  c_status : ConnStatus;
  c_on_open : list Msg;
}.

(** A party entry, [{name, connection}] (popup.js:383, 423). *)
Record Entry := mkEntry { name : string; connection : ConnId }.

(** The page's [<video>] element, as the code reads and writes it. *)
Record Video := mkVideo { currentTime : Q; paused : bool; muted : bool }.

(** [isDamp] (popup.js:290-293). *)
Record Damp := mkDamp { dplay : bool; dpause : bool }.

Inductive Action := APlay | APause.

(** A pending [setTimeout] callback. *)
Inductive Timer :=
| TSeek (time : Q)        (** [videoElem.currentTime = time] (popup.js:346-348, 360-362) *)
| TUndamp (a : Action)    (** [isDamp[a] = false] (popup.js:352-354, 366-368) *)
| TAnnouncePlay.          (** the deferred body of [playHandler] (popup.js:310-316) *)

Record St := mkSt {
  myName : string;
  hostId : option string;
  peerId : option string;            (** [peer.id], known once the peer is open *)
  party : list (string * Entry);     (** [party], a JS object *)
  conns : gmap ConnId Conn;
  nextConn : ConnId;
  isDamp : Damp;
  video : Video;
  timers : list Timer;               (** due [setTimeout] callbacks, oldest first *)
  media : list Action;               (** queued native [play]/[pause] events *)
  counter : string;                  (** [partyCounterAbbr.textContent] *)
  title : string;                    (** [partyCounterAbbr.title] *)
  url : string;                      (** [window.location.href] *)
  input : string;                    (** [messageInput.value] *)
}.

(** The widget line kinds: [systemMessage], [addMessage], [errorMessage]
    (popup.js:259-284). *)
Inductive Line := SystemLine | ChatLine | ErrorLine.

Inductive Sound := JoinAlert | MessageAlert.

Inductive Effect :=
| ESend (c : ConnId) (m : Msg)           (** [conn.send(m)] *)
| EConnect (c : ConnId) (id : string)    (** [peer.connect(id)], returning [c] *)
| ERender (l : Line) (text : string)     (** a line of the chat widget *)
| ESound (s : Sound)                     (** [joinAlert.play()], [messageAlert.play()] *)
| EAlert (text : string)                 (** [alert(text)] *)
| EDestroy.                              (** [peer.destroy()] *)

(** What a handler may throw. *)
Inductive Exn := TypeError (what : string).

#[export] Instance ConnStatus_eq_dec : EqDecision ConnStatus.
Proof. solve_decision. Defined.
#[export] Instance Action_eq_dec : EqDecision Action.
Proof. solve_decision. Defined.
#[export] Instance Timer_eq_dec : EqDecision Timer.
Proof. solve_decision. Defined.
#[export] Instance Line_eq_dec : EqDecision Line.
Proof. solve_decision. Defined.
#[export] Instance Sound_eq_dec : EqDecision Sound.
Proof. solve_decision. Defined.
#[export] Instance Effect_eq_dec : EqDecision Effect.
Proof. solve_decision. Defined.

(** ** Field updates of [St] *)

Definition set_party p s := mkSt (myName s) (hostId s) (peerId s) p (conns s) (nextConn s)
  (isDamp s) (video s) (timers s) (media s) (counter s) (title s) (url s) (input s).
Definition set_conns cs n s := mkSt (myName s) (hostId s) (peerId s) (party s) cs n
  (isDamp s) (video s) (timers s) (media s) (counter s) (title s) (url s) (input s).
Definition set_peerId i s := mkSt (myName s) (hostId s) i (party s) (conns s) (nextConn s)
  (isDamp s) (video s) (timers s) (media s) (counter s) (title s) (url s) (input s).
Definition set_isDamp d s := mkSt (myName s) (hostId s) (peerId s) (party s) (conns s)
  (nextConn s) d (video s) (timers s) (media s) (counter s) (title s) (url s) (input s).
Definition set_video v s := mkSt (myName s) (hostId s) (peerId s) (party s) (conns s)
  (nextConn s) (isDamp s) v (timers s) (media s) (counter s) (title s) (url s) (input s).
Definition set_timers ts s := mkSt (myName s) (hostId s) (peerId s) (party s) (conns s)
  (nextConn s) (isDamp s) (video s) ts (media s) (counter s) (title s) (url s) (input s).
Definition set_media ms s := mkSt (myName s) (hostId s) (peerId s) (party s) (conns s)
  (nextConn s) (isDamp s) (video s) (timers s) ms (counter s) (title s) (url s) (input s).
Definition set_counter c s := mkSt (myName s) (hostId s) (peerId s) (party s) (conns s)
  (nextConn s) (isDamp s) (video s) (timers s) (media s) c (title s) (url s) (input s).
Definition set_input x s := mkSt (myName s) (hostId s) (peerId s) (party s) (conns s)
  (nextConn s) (isDamp s) (video s) (timers s) (media s) (counter s) (title s) (url s) x.
Definition set_title t s := mkSt (myName s) (hostId s) (peerId s) (party s) (conns s)
  (nextConn s) (isDamp s) (video s) (timers s) (media s) (counter s) t (url s) (input s).

(** The closure state right after [hostOrJoin(myName, hostId)] has run
    its body (popup.js:113-293): an empty party, no connection, both
    flags clear, the counter showing "1" and the title "You". *)
Definition hostOrJoin_init (myName : string) (hostId : option string) (url : string)
    (v : Video) : St :=
  mkSt myName hostId None [] ∅ 0 (mkDamp false false) v [] [] "1" "You" url "".

(** ** The handler monad *)

Definition M (A : Type) : Type := St -> St * list Effect * (Exn + A).

#[export] Instance M_ret : MRet M := fun A a s => (s, [], inr a).
#[export] Instance M_bind : MBind M := fun A B f c s =>
  match c s with
  | (s1, e1, inl x) => (s1, e1, inl x)
  | (s1, e1, inr a) => let '(s2, e2, r) := f a s1 in (s2, e1 ++ e2, r)
  end.

Definition gets {A} (f : St -> A) : M A := fun s => (s, [], inr (f s)).
Definition modify (f : St -> St) : M unit := fun s => (f s, [], inr tt).
Definition emit (e : Effect) : M unit := fun s => (s, [e], inr tt).
Definition throw {A} (x : Exn) : M A := fun s => (s, [], inl x).

(** [for (const x of l) f(x)] *)
Fixpoint for_each {A} (l : list A) (f : A -> M unit) : M unit :=
  match l with
  | [] => mret tt
  | x :: l' => f x ;; for_each l' f
  end.

(** ** Operations shared by the components *)

(** [sendAll(req)] (popup.js:192-197): one send per party entry, in
    enumeration order. *)
Definition sendAll (req : Msg) : M unit :=
  p ← gets party;
  for_each (JsObject.keys p) (fun peerId =>
    match JsObject.get peerId p with
    | Some e => emit (ESend (connection e) req)
    | None => throw (TypeError "Cannot destructure 'party[peerId]' as it is undefined.")
    end).

Definition systemMessage (msg : string) : M unit := emit (ERender SystemLine msg).
Definition addMessage (msg : string) : M unit := emit (ERender ChatLine msg).
Definition errorMessage (msg : string) : M unit := emit (ERender ErrorLine msg).

(** [String(Object.keys(party).length + 1)] *)
Definition counter_text (p : list (string * Entry)) : string :=
  pretty (length (JsObject.keys p) + 1)%nat.

(** [['You', ...names].join(', ')] *)
Definition title_text (p : list (string * Entry)) : string :=
  String.concat ", " ("You" :: map (fun k => default "" (name <$> JsObject.get k p))
                                   (JsObject.keys p)).

(** [updatePartyCounter()] (popup.js:177-179). *)
Definition updatePartyCounter : M unit :=
  modify (fun s => set_counter (counter_text (party s)) s).

(** [updateTitle()] (popup.js:166-175). *)
Definition updateTitle : M unit :=
  modify (fun s => set_title (title_text (party s)) s).

(** [setTimeout(f)] / [setTimeout(f, 0)]: queue a callback. *)
Definition setTimeout (t : Timer) : M unit :=
  modify (fun s => set_timers (timers s ++ [t]) s).

(** ** The media element

    The synchronizer drives the page's [<video>] through the spec's
    MediaSink capability: [play()], [pause()] and the [currentTime]
    setter, and it observes the element's native [play]/[pause] events.
    [MediaSink] is that interface, with what the synchronizer relies on
    as laws: after the HTML media element algorithms, [play()] on a
    paused element clears [paused] and queues one [play] event, [pause()]
    on a playing element sets [paused] and queues one [pause] event,
    either is a no-op otherwise, and a seek sets the time; none of them
    touches the rest of the page.  [html_media] is the element of the
    browser, implementing it. *)

Class MediaSink := {
  media_play : M unit;
  media_pause : M unit;
  media_seek : Q -> M unit;
  media_play_spec s : media_play s =
    (if paused (video s) then
       set_media (media s ++ [APlay]) (set_video (mkVideo (currentTime (video s)) false (muted (video s))) s)
     else s, [], inr tt);
  media_pause_spec s : media_pause s =
    (if paused (video s) then s else
       set_media (media s ++ [APause]) (set_video (mkVideo (currentTime (video s)) true (muted (video s))) s),
     [], inr tt);
  media_seek_spec t s : media_seek t s =
    (set_video (mkVideo t (paused (video s)) (muted (video s))) s, [], inr tt)
}.

(** [videoElem.play()] *)
Definition html_play : M unit :=
  v ← gets video;
  if paused v
  then modify (fun s => set_media (media s ++ [APlay])
                          (set_video (mkVideo (currentTime v) false (muted v)) s))
  else mret tt.

(** [videoElem.pause()] *)
Definition html_pause : M unit :=
  v ← gets video;
  if paused v
  then mret tt
  else modify (fun s => set_media (media s ++ [APause])
                          (set_video (mkVideo (currentTime v) true (muted v)) s)).

(** [videoElem.currentTime = t] *)
Definition html_seek (t : Q) : M unit :=
  modify (fun s => set_video (mkVideo t (paused (video s)) (muted (video s))) s).

#[export] Program Instance html_media : MediaSink := {|
  media_play := html_play; media_pause := html_pause; media_seek := html_seek |}.
Next Obligation. intros s. unfold html_play. cbv [mbind M_bind gets modify mret M_ret]. by destruct (paused (video s)). Qed.
Next Obligation. intros s. unfold html_pause. cbv [mbind M_bind gets modify mret M_ret]. by destruct (paused (video s)). Qed.
Next Obligation. reflexivity. Qed.

(** ** Running a handler *)

Definition run {A} (c : M A) (s : St) := c s.
Definition final {A} (c : M A) (s : St) : St := (c s).1.1.
Definition effects {A} (c : M A) (s : St) : list Effect := (c s).1.2.
Definition result {A} (c : M A) (s : St) : Exn + A := (c s).2.

(** The messages among a list of effects. *)
Definition sends (es : list Effect) : list (ConnId * Msg) :=
  omap (fun e => match e with ESend c m => Some (c, m) | _ => None end) es.

(** [c] keeps [P]: from a state satisfying [P], the state [c] leaves
    (when it returns or throws) satisfies [P]. *)
Definition preserves {A} (P : St -> Prop) (c : M A) : Prop := forall s, P s -> P (final c s).

(** ** Monad laws and reasoning rules *)

Lemma bind_ret_l {A B} (a : A) (f : A -> M B) s : (mret a ≫= f) s = f a s.
Proof. cbv [mret mbind M_ret M_bind]. by destruct (f a s) as [[??]?]. Qed.

Lemma bind_assoc {A B C} (c : M A) (f : A -> M B) (g : B -> M C) s :
  ((c ≫= f) ≫= g) s = (c ≫= (fun a => f a ≫= g)) s.
Proof.
  cbv [mbind M_bind]. destruct (c s) as [[s1 e1] [x|a]]; [done|].
  destruct (f a s1) as [[s2 e2] [y|b]]; [done|].
  destruct (g b s2) as [[s3 e3] r]. by rewrite app_assoc.
Qed.

(** [for_each] over handlers that neither change the state nor throw. *)
Lemma for_each_pure {A} (l : list A) (f : A -> M unit) (g : A -> list Effect) s :
  (forall x, x ∈ l -> f x s = (s, g x, inr tt)) ->
  for_each l f s = (s, mjoin (map g l), inr tt).
Proof.
  induction l as [|x l IH]; intros Hf; [done|]. simpl.
  cbv [mbind M_bind]. rewrite Hf by (apply elem_of_cons; by left).
  rewrite IH by (intros; apply Hf, elem_of_cons; by right). done.
Qed.

(** Enumerating a well-formed object and emitting one effect per
    property, as [for (const k in o) f(o[k])] does, emits them in order and
    never reaches the missing-key branch. *)
Lemma for_each_keys_emit {V} (o : list (string * V)) (g : string -> V -> Effect) (x : Exn) s :
  JsObject.wf o ->
  for_each (JsObject.keys o) (fun k =>
    match JsObject.get k o with Some v => emit (g k v) | None => throw x end) s =
  (s, map (fun kv => g kv.1 kv.2) o, inr tt).
Proof.
  intros Hwf. unfold JsObject.keys.
  rewrite (for_each_pure _ _ (fun k => match JsObject.get k o with
                                        | Some v => [g k v] | None => [] end)).
  - rewrite map_map. do 2 f_equal. apply mjoin_map_singleton.
    intros [k v] Hin. simpl. by rewrite (JsObject.get_elem_of k v).
  - intros k Hk. apply list_elem_of_In, in_map_iff in Hk as [[k' v] [<- Hin]].
    simpl. rewrite (JsObject.get_elem_of k' v) by (done || by apply list_elem_of_In). done.
Qed.

(** [sendAll(req)] sends [req] once on the connection of every party
    entry, in enumeration order, and changes nothing else. *)
Lemma sendAll_run req s :
  JsObject.wf (party s) ->
  sendAll req s = (s, map (fun kv => ESend (connection kv.2) req) (party s), inr tt).
Proof.
  intros Hwf. unfold sendAll. cbv [mbind M_bind gets].
  rewrite (for_each_keys_emit _ (fun _ e => ESend (connection e) req)) by done. done.
Qed.

Lemma bind_ext {A B} (c : M A) (f g : A -> M B) s :
  (forall a s', f a s' = g a s') -> (c ≫= f) s = (c ≫= g) s.
Proof.
  intros Hfg. cbv [mbind M_bind]. destruct (c s) as [[s1 e1] [x|a]]; [done|]. by rewrite Hfg.
Qed.

(** The three projections of a sequence that does not throw. *)
Lemma bind_ok {A B} (c : M A) (f : A -> M B) s s1 e1 a :
  c s = (s1, e1, inr a) ->
  (c ≫= f) s = ((f a s1).1.1, e1 ++ (f a s1).1.2, (f a s1).2).
Proof. intros H. cbv [mbind M_bind]. rewrite H. by destruct (f a s1) as [[??]?]. Qed.

Lemma sends_app es1 es2 : sends (es1 ++ es2) = sends es1 ++ sends es2.
Proof. apply omap_app. Qed.

(** [final (gets f >>= k)]: the read changes nothing. *)
Lemma final_gets {A B} (f : St -> A) (k : A -> M B) s : final (gets f ≫= k) s = final (k (f s)) s.
Proof. unfold final. cbv [mbind M_bind gets]. simpl. by destruct (k (f s) s) as [[??]?]. Qed.

(** The effects of a sequence whose first part does not throw. *)
Lemma effects_seq {A B} (c : M A) (d : M B) s s1 es a :
  c s = (s1, es, inr a) -> effects (c;; d) s = es ++ effects d s1.
Proof. intros H. unfold effects. by rewrite (bind_ok _ _ _ _ _ _ H). Qed.

Lemma final_seq {A B} (c : M A) (d : M B) s s1 es a :
  c s = (s1, es, inr a) -> final (c;; d) s = final d s1.
Proof. intros H. unfold final. by rewrite (bind_ok _ _ _ _ _ _ H). Qed.

Lemma sends_broadcast (p : list (string * Entry)) m :
  sends (map (fun kv => ESend (connection kv.2) m) p) = map (fun kv => (connection kv.2, m)) p.
Proof. induction p as [|kv p IH]; simpl; [done|]. by rewrite IH. Qed.

(** ** Invariants of handlers *)

Create HintDb pres.

Section preserves.
Context (P : St -> Prop).

Lemma preserves_bind {A B} (c : M A) (f : A -> M B) :
  preserves P c -> (forall a, preserves P (f a)) -> preserves P (c ≫= f).
Proof.
  intros Hc Hf s Hs. specialize (Hc s Hs). unfold final in *. cbv [mbind M_bind].
  destruct (c s) as [[s1 e1] [x|a]]; simpl in *; [done|].
  specialize (Hf a s1 Hc). unfold final in Hf. destruct (f a s1) as [[s2 e2] r]; simpl in *. done.
Qed.

Lemma preserves_ret {A} (a : A) : preserves P (mret a).
Proof. intros s Hs. exact Hs. Qed.

Lemma preserves_gets {A} (f : St -> A) : preserves P (gets f).
Proof. intros s Hs. exact Hs. Qed.

Lemma preserves_emit e : preserves P (emit e).
Proof. intros s Hs. exact Hs. Qed.

Lemma preserves_throw {A} x : preserves P (throw (A:=A) x).
Proof. intros s Hs. exact Hs. Qed.

Lemma preserves_modify f : (forall s, P s -> P (f s)) -> preserves P (modify f).
Proof. intros Hf s Hs. by apply Hf. Qed.

Lemma preserves_for_each {A} (l : list A) (f : A -> M unit) :
  (forall x, preserves P (f x)) -> preserves P (for_each l f).
Proof.
  intros Hf. induction l as [|x l IH]; simpl; [apply preserves_ret|].
  apply preserves_bind; [apply Hf|intros _; apply IH].
Qed.

Lemma preserves_sendAll m : preserves P (sendAll m).
Proof.
  unfold sendAll. apply preserves_bind; [apply preserves_gets|intros p].
  apply preserves_for_each. intros k. destruct (JsObject.get k p);
    [apply preserves_emit|apply preserves_throw].
Qed.
End preserves.

#[export] Hint Resolve preserves_ret preserves_gets preserves_emit preserves_throw
  preserves_sendAll : pres.

(** [pres]: split a handler into its steps and close the steps that
    change no state. *)
Ltac pres :=
  repeat match goal with
  | |- preserves _ (mbind _ _) => apply preserves_bind; [|intros ?]
  | |- preserves _ (for_each _ _) => apply preserves_for_each; intros ?
  | |- preserves _ (match ?x with _ => _ end) => destruct x
  | |- preserves _ (if ?b then _ else _) => destruct b
  | |- preserves _ (systemMessage _) => apply preserves_emit
  | |- preserves _ (addMessage _) => apply preserves_emit
  | |- preserves _ (errorMessage _) => apply preserves_emit
  | |- preserves _ _ => solve [eauto with pres]
  end.

(** [st_destr]: expose the fields of the state. *)
Ltac st_destr s := destruct s as [?n ?h ?i ?p ?cs ?nc [?dp ?dz] [?ct ?pz ?mu] ?ts ?ms ?cnt ?ti ?u ?inp].

(** [mrun]: evaluate a handler symbolically, unfolding the monad and the
    shared primitives. *)
Ltac mrun :=
  cbv [final effects result run mbind M_bind mret M_ret gets modify emit throw
       setTimeout systemMessage addMessage errorMessage updatePartyCounter updateTitle];
  simpl; rewrite ?(@media_play_spec _), ?(@media_pause_spec _), ?(@media_seek_spec _); simpl.

End State.
