(* ===== verification/Playback.v ===== *)
(** * The playback synchronizer

    popup.js:290-369: the suppression flags [isDamp], the native media
    event handlers [playHandler] and [pauseHandler], the dampened
    operations [dampenedPlay] and [dampenedPause] applied on a remote
    instruction, and the [play]/[pause] cases of the data handler
    (popup.js:435-445).  The event loop's two task sources are the timer
    queue and the media event queue of [State]; [runTimer] and
    [runMedia] run the oldest task of each, a schedule is any sequence of
    them.

    The section [Media] assumes only an instance of [MediaSink]: the
    synchronizer and its theorems hold for any media element that keeps
    the interface's laws, and the page ([Peer]) runs it on [html_media].

    Theorems: a remote [pause] or [play] applied while the queues are
    idle produces no outbound message on every schedule that dispatches
    the native event before the flag-clearing timer, and a remote pause
    does echo on the schedule that runs the timers first (the race of
    spec section 4.2); a genuine local pause broadcasts exactly one
    [pause] per party member, and a local play is stamped with the time
    its deferred callback reads.  That a set flag always has its clearing timer pending is
    part of the invariant of [Invariant]. *)

From S2P Require Import Prelude.
From S2P Require Import JsObject.
From S2P Require Import JsNum.
From S2P Require Import Message.
From S2P Require Import State.

Module Playback.
Import JsNum Message State.

Section Media.
Context `{MS : MediaSink}.

(** ** Operations *)

Definition set_dplay (b : bool) : M unit :=
  modify (fun s => set_isDamp (mkDamp b (dpause (isDamp s))) s).
Definition set_dpause (b : bool) : M unit :=
  modify (fun s => set_isDamp (mkDamp (dplay (isDamp s)) b) s).

(** [dampenedPause(time)], popup.js:343-355. *)
Definition dampenedPause (time : Q) : M unit :=
  set_dpause true;;
  (if truthy (Fin time) then setTimeout (TSeek time) else mret tt);;
  media_pause;;
  setTimeout (TUndamp APause).

(** [dampenedPlay(time)], popup.js:357-369. *)
Definition dampenedPlay (time : Q) : M unit :=
  set_dplay true;;
  (if truthy (Fin time) then setTimeout (TSeek time) else mret tt);;
  media_play;;
  setTimeout (TUndamp APlay).

(** The deferred body of [playHandler], popup.js:310-316: the time is
    read when the callback runs. *)
Definition announcePlay : M unit :=
  v ← gets video;
  systemMessage ("You played the video at " +:+ formatSeconds (Fin (currentTime v)));;
  sendAll (Play (currentTime v)).

(** [playHandler()], popup.js:299-317. *)
Definition playHandler : M unit :=
  d ← gets isDamp;
  if dplay d then mret tt else setTimeout TAnnouncePlay.

(** [pauseHandler()], popup.js:319-329. *)
Definition pauseHandler : M unit :=
  d ← gets isDamp;
  if dpause d then mret tt else
  v ← gets video;
  systemMessage ("You paused the video at " +:+ formatSeconds (Fin (currentTime v)));;
  sendAll (Pause (currentTime v)).

(** [`${actor}`] for [actor = party[conn.peer]?.name]. *)
Definition actor_text (actor : option string) : string := default "undefined" actor.

(** [case 'play'], popup.js:435-439. *)
Definition onPlay (actor : option string) (time : Q) : M unit :=
  dampenedPlay time;;
  systemMessage (actor_text actor +:+ " played the video at " +:+ formatSeconds (Fin time)).

(** [case 'pause'], popup.js:441-445. *)
Definition onPause (actor : option string) (time : Q) : M unit :=
  dampenedPause time;;
  systemMessage (actor_text actor +:+ " paused the video at " +:+ formatSeconds (Fin time)).

(** A timer callback. *)
Definition timerTask (t : Timer) : M unit :=
  match t with
  | TSeek time => media_seek time
  | TUndamp APlay => set_dplay false
  | TUndamp APause => set_dpause false
  | TAnnouncePlay => announcePlay
  end.

(** A native media event, dispatched to the listener registered at
    popup.js:296-297. *)
Definition mediaTask (a : Action) : M unit :=
  match a with APlay => playHandler | APause => pauseHandler end.

(** The event loop runs the oldest task of a source. *)
Definition runTimer : M unit :=
  ts ← gets timers;
  match ts with
  | [] => mret tt
  | t :: ts' => modify (set_timers ts');; timerTask t
  end.

Definition runMedia : M unit :=
  ms ← gets media;
  match ms with
  | [] => mret tt
  | a :: ms' => modify (set_media ms');; mediaTask a
  end.

(** A schedule: which task source the event loop serves next. *)
Inductive Tick := TickTimer | TickMedia.

Fixpoint drain (sched : list Tick) : M unit :=
  match sched with
  | [] => mret tt
  | TickTimer :: sched' => runTimer;; drain sched'
  | TickMedia :: sched' => runMedia;; drain sched'
  end.

(** ** Lemmas on schedules *)

(** Timer callbacks that neither send nor queue anything. *)
Definition quiet (t : Timer) : Prop := match t with TAnnouncePlay => False | _ => True end.

(** The suppression flag of an action, [isDamp.play] or [isDamp.pause]. *)
Definition flag (a : Action) (d : Damp) : bool :=
  match a with APlay => dplay d | APause => dpause d end.

(** A timer that may run before the flag of [a] is cleared without
    clearing it. *)
Definition early (a : Action) (t : Timer) : Prop := quiet t /\ t <> TUndamp a.

Lemma drain_app l1 l2 s : drain (l1 ++ l2) s = (drain l1;; drain l2) s.
Proof.
  revert s. induction l1 as [|[] l1 IH]; intros s; simpl.
  - by rewrite bind_ret_l.
  - rewrite bind_assoc. cbv [mbind M_bind]. destruct (runTimer s) as [[s1 e1] [x|[]]]; [done|].
    by rewrite IH.
  - rewrite bind_assoc. cbv [mbind M_bind]. destruct (runMedia s) as [[s1 e1] [x|[]]]; [done|].
    by rewrite IH.
Qed.

(** With only quiet timers and no media event pending, any schedule runs
    silently and keeps the queues so. *)
Lemma drain_quiet sched s :
  Forall quiet (timers s) -> media s = [] ->
  exists s', drain sched s = (s', [], inr tt) /\ media s' = [] /\ Forall quiet (timers s').
Proof.
  revert s. induction sched as [|[] sched IH]; intros s Hq Hm; simpl; [by exists s| |];
    st_destr s; simpl in *; subst.
  - destruct ts as [|t ts]; [|apply Forall_cons in Hq as [Ht Hq]; destruct t as [tm|[]|]; try done];
      unfold runTimer, timerTask, set_dplay, set_dpause; mrun;
      match goal with |- context [drain sched ?s1] =>
        destruct (IH s1) as (s' & -> & ?); [done|done|]; by exists s' end.
  - unfold runMedia; mrun.
    match goal with |- context [drain sched ?s1] =>
      destruct (IH s1) as (s' & -> & ?); [done|done|]; by exists s' end.
Qed.

Lemma seq_drain_split {A} (c : M A) pre rest s :
  (c;; drain (pre ++ rest)) s = ((c;; drain pre);; drain rest) s.
Proof. rewrite bind_assoc. apply bind_ext. intros _ s'. apply drain_app. Qed.

(** [prun]: evaluate the synchronizer's handlers symbolically. *)
Ltac prun :=
  unfold onPause, onPlay, dampenedPause, dampenedPlay, set_dpause, set_dplay,
    runMedia, runTimer, mediaTask, timerTask, pauseHandler, playHandler; mrun.


(** ** Each task on each branch *)

Lemma runTimer_seek s t ts :
  timers s = TSeek t :: ts ->
  runTimer s = (set_video (mkVideo t (paused (video s)) (muted (video s))) (set_timers ts s), [], inr tt).
Proof. st_destr s; simpl; intros ->. by prun. Qed.

Lemma runTimer_undamp_pause s ts :
  timers s = TUndamp APause :: ts ->
  runTimer s = (set_isDamp (mkDamp (dplay (isDamp s)) false) (set_timers ts s), [], inr tt).
Proof. st_destr s; simpl; intros ->. by prun. Qed.

Lemma runTimer_undamp_play s ts :
  timers s = TUndamp APlay :: ts ->
  runTimer s = (set_isDamp (mkDamp false (dpause (isDamp s))) (set_timers ts s), [], inr tt).
Proof. st_destr s; simpl; intros ->. by prun. Qed.

(** A native event whose flag is set is swallowed by its handler. *)
Lemma runMedia_damped a s ms :
  media s = a :: ms -> flag a (isDamp s) = true -> runMedia s = (set_media ms s, [], inr tt).
Proof. st_destr s; destruct a; simpl; intros -> ->; by prun. Qed.

(** An early timer keeps the flag of [a] and the media queue. *)
Lemma runTimer_early a s t ts :
  timers s = t :: ts -> early a t ->
  exists s1, runTimer s = (s1, [], inr tt) /\ flag a (isDamp s1) = flag a (isDamp s) /\
             media s1 = media s /\ timers s1 = ts.
Proof.
  st_destr s; simpl; intros -> [Hq Hne].
  destruct t as [tm|[]|]; try done; destruct a; try done; prun; eexists; done.
Qed.

(** An undamped [pause] event announces the pause and sends it to every
    party member, with the element's time at that moment. *)
Lemma runMedia_pause_live s ms :
  media s = APause :: ms -> dpause (isDamp s) = false -> JsObject.wf (party s) ->
  runMedia s = (set_media ms s,
    ERender SystemLine ("You paused the video at " +:+ formatSeconds (Fin (currentTime (video s))))
    :: map (fun kv => ESend (connection kv.2) (Pause (currentTime (video s)))) (party s), inr tt).
Proof.
  st_destr s; simpl; intros -> -> Hwf. prun. rewrite sendAll_run by done. done.
Qed.

(** An undamped [play] event defers its announcement to a timer. *)
Lemma runMedia_play_live s ms :
  media s = APlay :: ms -> dplay (isDamp s) = false ->
  runMedia s = (set_timers (timers s ++ [TAnnouncePlay]) (set_media ms s), [], inr tt).
Proof. st_destr s; simpl; intros -> ->. by prun. Qed.

(** The deferred announcement of a local play reads the element's time
    when it runs. *)
Lemma runTimer_announce s ts :
  timers s = TAnnouncePlay :: ts -> JsObject.wf (party s) ->
  runTimer s = (set_timers ts s,
    ERender SystemLine ("You played the video at " +:+ formatSeconds (Fin (currentTime (video s))))
    :: map (fun kv => ESend (connection kv.2) (Play (currentTime (video s)))) (party s), inr tt).
Proof.
  st_destr s; simpl; intros -> Hwf. unfold runTimer, timerTask, announcePlay. mrun.
  rewrite sendAll_run by done. done.
Qed.

(** The state after a remote [pause{t}]: the pause flag is set, the
    seek (when [t] is truthy) and the flag clearing are queued behind the
    pending timers, and a [pause] event is queued if the element was
    playing. *)
Lemma onPause_run s a t : exists s1,
  onPause a t s = (s1, [ERender SystemLine (actor_text a +:+ " paused the video at " +:+
                                            formatSeconds (Fin t))], inr tt) /\
  dpause (isDamp s1) = true /\ dplay (isDamp s1) = dplay (isDamp s) /\
  timers s1 = timers s ++ (if truthy (Fin t) then [TSeek t] else []) ++ [TUndamp APause] /\
  media s1 = media s ++ (if paused (video s) then [] else [APause]) /\
  party s1 = party s /\ currentTime (video s1) = currentTime (video s) /\ paused (video s1) = true.
Proof.
  st_destr s. unfold onPause, dampenedPause. cbn [paused video timers media].
  destruct (truthy (Fin t)), pz; prun; (eexists; split; [reflexivity|]); simpl;
    rewrite ?app_nil_r, <- ?app_assoc; done.
Qed.

(** The state after a remote [play{t}], symmetrically. *)
Lemma onPlay_run s a t : exists s1,
  onPlay a t s = (s1, [ERender SystemLine (actor_text a +:+ " played the video at " +:+
                                           formatSeconds (Fin t))], inr tt) /\
  dplay (isDamp s1) = true /\ dpause (isDamp s1) = dpause (isDamp s) /\
  timers s1 = timers s ++ (if truthy (Fin t) then [TSeek t] else []) ++ [TUndamp APlay] /\
  media s1 = media s ++ (if paused (video s) then [APlay] else []) /\
  party s1 = party s /\ currentTime (video s1) = currentTime (video s) /\ paused (video s1) = false.
Proof.
  st_destr s. unfold onPlay, dampenedPlay. cbn [paused video timers media].
  destruct (truthy (Fin t)), pz; prun; (eexists; split; [reflexivity|]); simpl;
    rewrite ?app_nil_r, <- ?app_assoc; done.
Qed.


(** ** Schedules after a remote instruction *)

(** [forall_quiet]: a concrete queue of quiet timers. *)
Ltac forall_quiet :=
  simpl; repeat (apply Forall_cons; split; [done|]); by apply Forall_nil.

(** [drain_silent]: once the queues hold only quiet timers, the rest of
    any schedule adds no effect. *)
Lemma drain_silent sched s :
  Forall quiet (timers s) -> media s = [] -> effects (drain sched) s = [].
Proof. intros Hq Hm. destruct (drain_quiet sched s Hq Hm) as (s' & Hd & _). unfold effects. by rewrite Hd. Qed.

(** While the flag of [a] is set and the event loop serves the pending
    native event of [a] before the flag-clearing timer, the schedule
    sends nothing. *)
Lemma drain_suppressed a pre post k rest s :
  flag a (isDamp s) = true -> media s = [a] ->
  timers s = pre ++ TUndamp a :: post ->
  Forall (early a) pre -> Forall quiet post -> (k <= length pre)%nat ->
  sends (effects (drain (repeat TickTimer k ++ TickMedia :: rest)) s) = [].
Proof.
  revert s k. induction pre as [|p pre IH]; intros s k Hd Hm Ht Hpre Hpost Hk;
    destruct k as [|k]; simpl in Hk; try lia.
  1,2: simpl; rewrite (effects_seq _ _ _ _ _ _ (runMedia_damped a s [] Hm Hd));
    rewrite drain_silent; [done| |done]; simpl; rewrite Ht;
    apply Forall_app; split; [eapply Forall_impl; [done|intros ? Hx; exact (proj1 Hx)]|by constructor].
  apply Forall_cons in Hpre as [Hp Hpre].
  destruct (runTimer_early a s p (pre ++ TUndamp a :: post) Ht Hp) as (s1 & Hrun & Hf & Hm1 & Ht1).
  simpl. rewrite (effects_seq _ _ _ _ _ _ Hrun). apply (IH _ k); try congruence; lia.
Qed.

(** ** Theorems *)

(** C2: Echo suppression: a remote [pause{t}] received while no task is
    pending sends nothing, on every schedule that dispatches the native
    [pause] event before the flag-clearing timer, that is after fewer
    timer tasks than the two (seek and clear) or one (clear, when [t] is
    falsy) that [dampenedPause] queued. *)
Theorem remote_pause_no_echo s a t k rest :
  timers s = [] -> media s = [] -> (k < if truthy (Fin t) then 2 else 1)%nat ->
  sends (effects (onPause a t;; drain (repeat TickTimer k ++ TickMedia :: rest)) s) = [].
Proof.
  intros Ht Hm Hk. destruct (onPause_run s a t) as (s1 & Hrun & Hd & _ & Hts & Hms & _).
  rewrite (effects_seq _ _ _ _ _ _ Hrun), sends_app. rewrite Ht, Hm in *. cbn [app] in Hts, Hms.
  destruct (paused (video s)).
  - rewrite drain_silent; [done| |done]. rewrite Hts.
    destruct (truthy (Fin t)); forall_quiet.
  - destruct (truthy (Fin t)) eqn:Htr.
    + apply (drain_suppressed APause [TSeek t] []); try done; [|simpl; lia].
      apply Forall_cons; split; [done|]. by apply Forall_nil.
    + apply (drain_suppressed APause [] []); try done; simpl; lia.
Qed.

(** C8: Echo suppression for [play]: a remote [play{t}] received while no
    task is pending sends nothing, on every schedule that dispatches the
    native [play] event before the flag-clearing timer. *)
Theorem remote_play_no_echo s a t k rest :
  timers s = [] -> media s = [] -> (k < if truthy (Fin t) then 2 else 1)%nat ->
  sends (effects (onPlay a t;; drain (repeat TickTimer k ++ TickMedia :: rest)) s) = [].
Proof.
  intros Ht Hm Hk. destruct (onPlay_run s a t) as (s1 & Hrun & Hd & _ & Hts & Hms & _).
  rewrite (effects_seq _ _ _ _ _ _ Hrun), sends_app. rewrite Ht, Hm in *. cbn [app] in Hts, Hms.
  destruct (paused (video s)).
  - destruct (truthy (Fin t)) eqn:Htr.
    + apply (drain_suppressed APlay [TSeek t] []); try done; [|simpl; lia].
      apply Forall_cons; split; [done|]. by apply Forall_nil.
    + apply (drain_suppressed APlay [] []); try done; simpl; lia.
  - rewrite drain_silent; [done| |done]. rewrite Hts.
    destruct (truthy (Fin t)); forall_quiet.
Qed.

(** C10: The race for [play]: on the schedule that runs the timers
    [dampenedPlay] queued before the native [play] event, the flag is
    clear when the event is dispatched, and once its deferred
    announcement runs the remote play is echoed to every party member. *)
Theorem remote_play_echo s a t rest :
  JsObject.wf (party s) -> timers s = [] -> media s = [] -> paused (video s) = true ->
  sends (effects (onPlay a t;;
     drain (repeat TickTimer (if truthy (Fin t) then 2 else 1) ++ TickMedia :: TickTimer :: rest)) s)
  = map (fun kv => (connection kv.2, Play (if truthy (Fin t) then t else currentTime (video s))))
        (party s).
Proof.
  intros Hwf Ht Hm Hp. destruct (onPlay_run s a t) as (s1 & Hrun & Hd & _ & Hts & Hms & Hparty & Hct & _).
  rewrite (effects_seq _ _ _ _ _ _ Hrun), sends_app. rewrite Ht, Hm, Hp in *. cbn [app] in Hts, Hms.
  destruct (truthy (Fin t)); simpl in Hts |- *.
  - rewrite (effects_seq _ _ _ _ _ _ (runTimer_seek s1 t _ Hts)).
    erewrite (effects_seq _ _ _ _ _ _ (runTimer_undamp_play _ [] _)).
    erewrite (effects_seq _ _ _ _ _ _ (runMedia_play_live _ [] _ _)).
    erewrite (effects_seq _ _ _ _ _ _ (runTimer_announce _ [] _ _)).
    rewrite drain_silent by done. simpl. rewrite !app_nil_r, sends_broadcast. simpl. by rewrite Hparty.
  - rewrite (effects_seq _ _ _ _ _ _ (runTimer_undamp_play s1 [] Hts)).
    erewrite (effects_seq _ _ _ _ _ _ (runMedia_play_live _ [] _ _)).
    erewrite (effects_seq _ _ _ _ _ _ (runTimer_announce _ [] _ _)).
    rewrite drain_silent by done. simpl. rewrite !app_nil_r, sends_broadcast. simpl. by rewrite Hparty, Hct.
  Unshelve. all: simpl; rewrite ?Hms, ?Hparty; done.
Qed.

(** C25: A local [play] is announced with the time the element has when the
    deferred callback runs, not the time of the event (spec section 4.2
    says the time is sampled synchronously): a seek queued before the
    event and run before the callback changes the time sent. *)
Theorem local_play_time_late s t :
  JsObject.wf (party s) -> dplay (isDamp s) = false -> media s = [APlay] -> timers s = [TSeek t] ->
  sends (effects (drain [TickMedia; TickTimer; TickTimer]) s) =
    map (fun kv => (connection kv.2, Play t)) (party s).
Proof.
  intros Hwf Hd Hm Ht. simpl.
  rewrite (effects_seq _ _ _ _ _ _ (runMedia_play_live s [] Hm Hd)).
  erewrite (effects_seq _ _ _ _ _ _ (runTimer_seek _ t [TAnnouncePlay] _)).
  erewrite (effects_seq _ _ _ _ _ _ (runTimer_announce _ [] _ _)).
  simpl. rewrite !app_nil_r, sends_broadcast. reflexivity.
  Unshelve. all: simpl; rewrite ?Ht; done.
Qed.

(** C3: The race of spec section 4.2: on the schedule that runs the timers
    [dampenedPause] queued before the native [pause] event, the flag is
    already clear when the event is dispatched, and the remote pause is
    echoed to every party member, stamped with the time the seek set (or
    the element's time when [t] is falsy). *)
Theorem remote_pause_echo s a t rest :
  JsObject.wf (party s) -> timers s = [] -> media s = [] -> paused (video s) = false ->
  sends (effects (onPause a t;;
     drain (repeat TickTimer (if truthy (Fin t) then 2 else 1) ++ TickMedia :: rest)) s)
  = map (fun kv => (connection kv.2, Pause (if truthy (Fin t) then t else currentTime (video s))))
        (party s).
Proof.
  intros Hwf Ht Hm Hp. destruct (onPause_run s a t) as (s1 & Hrun & Hd & _ & Hts & Hms & Hparty & Hct & _).
  rewrite (effects_seq _ _ _ _ _ _ Hrun), sends_app. rewrite Ht, Hm, Hp in *. cbn [app] in Hts, Hms.
  destruct (truthy (Fin t)); simpl in Hts |- *.
  - rewrite (effects_seq _ _ _ _ _ _ (runTimer_seek s1 t _ Hts)).
    erewrite (effects_seq _ _ _ _ _ _ (runTimer_undamp_pause _ [] _)).
    erewrite (effects_seq _ _ _ _ _ _ (runMedia_pause_live _ [] _ _ _)).
    rewrite drain_silent by done. simpl. rewrite app_nil_r, sends_broadcast. simpl. by rewrite Hparty.
  - rewrite (effects_seq _ _ _ _ _ _ (runTimer_undamp_pause s1 [] Hts)).
    erewrite (effects_seq _ _ _ _ _ _ (runMedia_pause_live _ [] _ _ _)).
    rewrite drain_silent by done. simpl. rewrite app_nil_r, sends_broadcast. simpl. by rewrite Hparty, Hct.
  Unshelve. all: simpl; rewrite ?Hms, ?Hparty; done.
Qed.

(** C24: A genuine local pause (flag clear) broadcasts one [pause], stamped
    with the element's time at the event, to each party member, in
    enumeration order, after the local notice. *)
Theorem local_pause_broadcast s :
  JsObject.wf (party s) -> dpause (isDamp s) = false -> paused (video s) = false -> media s = [] ->
  effects (media_pause;; runMedia) s =
    ERender SystemLine ("You paused the video at " +:+ formatSeconds (Fin (currentTime (video s))))
    :: map (fun kv => ESend (connection kv.2) (Pause (currentTime (video s)))) (party s).
Proof.
  st_destr s; simpl. intros Hwf -> -> ->. prun. rewrite sendAll_run by done. done.
Qed.

End Media.

(** ** Witnesses, on the browser's media element *)

Lemma remote_play_no_echo_witness :
  sends (effects (onPlay (Some "H") 42;; drain [TickTimer; TickMedia; TickTimer])
           (set_party [("H", mkEntry "H" 0)] (hostOrJoin_init "J" (Some "H") "u" (mkVideo 0 true false)))) = [].
Proof. apply (remote_play_no_echo _ _ _ 1 [TickTimer]); [done|done|]. vm_compute. lia. Defined.

Lemma local_play_time_late_witness :
  sends (effects (drain [TickMedia; TickTimer; TickTimer])
    (set_timers [TSeek 42] (set_media [APlay] (set_party [("B", mkEntry "Bob" 0)]
       (hostOrJoin_init "H" None "u" (mkVideo 10 false false)))))) = [(0%nat, Play 42)].
Proof. rewrite (local_play_time_late _ 42); try reflexivity. apply JsObject.wf_compute; reflexivity. Defined.

Lemma remote_play_echo_witness :
  sends (effects (onPlay (Some "H") 42;; drain [TickTimer; TickTimer; TickMedia; TickTimer])
    (set_party [("H", mkEntry "H" 0)] (hostOrJoin_init "J" (Some "H") "u" (mkVideo 0 true false))))
  = [(0%nat, Play 42)].
Proof.
  change [TickTimer; TickTimer; TickMedia; TickTimer]
    with (repeat TickTimer (if truthy (Fin 42) then 2 else 1) ++ [TickMedia; TickTimer]).
  rewrite (remote_play_echo _ _ _ []); [reflexivity| |reflexivity..].
  apply JsObject.wf_compute. reflexivity.
Defined.

Lemma remote_pause_echo_witness :
  sends (effects (onPause (Some "H") 42;; drain [TickTimer; TickTimer; TickMedia])
    (set_party [("H", mkEntry "H" 0)] (hostOrJoin_init "J" (Some "H") "u" (mkVideo 0 false false))))
  = [(0%nat, Pause 42)].
Proof.
  change [TickTimer; TickTimer; TickMedia]
    with (repeat TickTimer (if truthy (Fin 42) then 2 else 1) ++ [TickMedia]).
  rewrite (remote_pause_echo _ _ _ []); [reflexivity| |reflexivity..].
  apply JsObject.wf_compute. reflexivity.
Defined.

Lemma local_pause_broadcast_witness :
  effects (media_pause;; runMedia)
    (set_party [("A", mkEntry "Ann" 0); ("B", mkEntry "Bob" 1)]
       (hostOrJoin_init "H" None "u" (mkVideo 65 false false))) =
  [ERender SystemLine ("You paused the video at " +:+ formatSeconds (Fin 65));
   ESend 0 (Pause 65); ESend 1 (Pause 65)].
Proof. apply local_pause_broadcast; [apply JsObject.wf_compute|..]; reflexivity. Defined.

Lemma remote_pause_no_echo_witness :
  sends (effects (onPause (Some "H") 42;; drain [TickMedia; TickTimer; TickTimer])
           (hostOrJoin_init "J" (Some "H") "u" (mkVideo 0 false false))) = [].
Proof. apply (remote_pause_no_echo _ _ _ 0 [TickTimer; TickTimer]); [done|done|]. vm_compute. lia. Defined.


(** [prun] for the clients of the synchronizer (the one above is local to
    the section). *)
Ltac prun :=
  unfold onPause, onPlay, dampenedPause, dampenedPlay, set_dpause, set_dplay,
    runMedia, runTimer, mediaTask, timerTask, pauseHandler, playHandler; mrun.

End Playback.
