(* ===== verification/Membership.v ===== *)
(** * The membership manager

    The connection plumbing of [hostOrJoin]: [setupConnection]
    (popup.js:374-474) with the [greet], [requestConnections],
    [respondConnections], [returnGreet] and [getUrl] cases of its data
    handler and its [close] and [error] handlers; [peer.on('connection')]
    (popup.js:476-478), [peer.on('open')] (popup.js:480-490),
    [peer.on('error')] (popup.js:492-494) and the unload hook
    (popup.js:496-498).

    A connection the code opens with [peer.connect(id)] is a fresh
    [Conn] in [Connecting] state with the messages its extra [open]
    listener sends; its [open] event installs the handlers of
    [setupConnection] (status [Open]) and then sends those messages, in
    the order the listeners were registered.

    Theorems: the connections [respondConnections] opens; the effects of
    [greet], [close] and [error].  The invariant
    over all events is in [Invariant]. *)

From S2P Require Import Prelude.
From S2P Require Import JsObject.
From S2P Require Import JsNum.
From S2P Require Import Message.
From S2P Require Import State.
From S2P Require Import Playback.

Module Membership.
Import JsNum Message State Playback.

(** ** Operations *)

Definition set_status (c : ConnId) (st : ConnStatus) : M unit :=
  modify (fun s => set_conns (alter (fun cn => mkConn (c_peer cn) st (c_on_open cn)) c (conns s))
                             (nextConn s) s).

(** [const conn = peer.connect(id); setupConnection(conn);
    conn.on('open', () => msgs.forEach(m => conn.send(m)))]. *)
Definition connect (id : string) (msgs : list Msg) : M ConnId :=
  c ← gets nextConn;
  modify (fun s => set_conns (<[c := mkConn id Connecting msgs]> (conns s)) (S c) s);;
  emit (EConnect c id);;
  mret c.

(** [peer.on('connection', conn => setupConnection(conn))]: an incoming
    connection object from [peerId]. *)
Definition onIncoming (peerId : string) : M ConnId :=
  c ← gets nextConn;
  modify (fun s => set_conns (<[c := mkConn peerId Connecting []]> (conns s)) (S c) s);;
  mret c.

(** The [open] event of a connection: the listener of [setupConnection]
    installs the [data]/[close]/[error] handlers, then the extra listener
    sends its messages. *)
Definition onConnOpen (c : ConnId) : M unit :=
  cs ← gets conns;
  match cs !! c with
  | None => mret tt
  | Some cn => set_status c Open;; for_each (c_on_open cn) (fun m => emit (ESend c m))
  end.

(** [party[conn.peer] = {name, connection: conn}; updatePartyCounter();
    updateTitle();] *)
Definition enter (peer name : string) (c : ConnId) : M unit :=
  modify (fun s => set_party (JsObject.set peer (mkEntry name c) (party s)) s);;
  updatePartyCounter;;
  updateTitle.

(** [case 'greet'], popup.js:381-390. *)
Definition onGreet (c : ConnId) (peer name : string) (time : option Q) : M unit :=
  enter peer name c;;
  systemMessage (name +:+ " has joined (" +:+ formatSeconds (of_field time) +:+ ").");;
  me ← gets myName;
  emit (ESend c (ReturnGreet me));;
  emit (ESound JoinAlert).

(** [case 'requestConnections'], popup.js:392-395. *)
Definition onRequestConnections (c : ConnId) : M unit :=
  p ← gets party;
  v ← gets video;
  emit (ESend c (RespondConnections (JsObject.keys p) (currentTime v) (paused v))).

(** The body of the loop of [case 'respondConnections'],
    popup.js:400-409: skip the local peer and the sender, otherwise open a
    connection that greets on [open]. *)
Definition respondBody (peer peerId : string) : M unit :=
  me ← gets State.peerId;
  if bool_decide (me = Some peerId) || String.eqb peer peerId then mret tt
  else
    myName ← gets myName;
    connect peerId [Greet myName None];; mret tt.

(** [case 'respondConnections'], popup.js:397-419. *)
Definition onRespondConnections (peer : string) (connections : list string) (time : Q)
    (paused : bool) : M unit :=
  for_each connections (respondBody peer);;
  if paused then dampenedPause time else dampenedPlay time.

(** [case 'returnGreet'], popup.js:421-427. *)
Definition onReturnGreet (c : ConnId) (peer name : string) : M unit := enter peer name c.

(** [case 'getUrl'], popup.js:429-433. *)
Definition onGetUrl (c : ConnId) : M unit :=
  u ← gets url;
  emit (ESend c (ReturnUrl u)).

(** [conn.on('close')], popup.js:459-467. *)
Definition onClose (peer : string) : M unit :=
  p ← gets party;
  if JsObject.has peer p then
    match JsObject.get peer p with
    | Some e =>
        systemMessage (name e +:+ " has left.");;
        modify (fun s => set_party (JsObject.delete peer (party s)) s);;
        updatePartyCounter;;
        updateTitle
    | None => mret tt
    end
  else mret tt.

(** [conn.on('error')], popup.js:468-471. *)
Definition onConnError : M unit :=
  errorMessage "Something went wrong with the connection.".

(** [if (hostId)] on a string or [null]: the empty string is falsy. *)
Definition truthy_str (x : option string) : bool :=
  match x with Some s => negb (String.eqb s "") | None => false end.

(** [peer.on('open', id => ...)], popup.js:480-490; PeerJS has set
    [peer.id] to [id] before it calls the listener. *)
Definition onPeerOpen (id : string) : M unit :=
  modify (set_peerId (Some id));;
  systemMessage id;;
  h ← gets hostId;
  match h with
  | Some host =>
      if truthy_str h then
        myName ← gets myName;
        connect host [Greet myName None; RequestConnections];; mret tt
      else mret tt
  | None => mret tt
  end.

(** [peer.on('error')], popup.js:492-494. *)
Definition onPeerError : M unit :=
  errorMessage "Something went wrong. Try refreshing and retrying".

(** The "copy host id" button, popup.js:186-188: [alert(peer.id)], which
    is [null] until the peer has opened. *)
Definition onCopyHostId : M unit :=
  i ← gets peerId;
  emit (EAlert (default "null" i)).

(** [window.onbeforeunload], popup.js:496-498. *)
Definition onUnload : M unit := emit EDestroy.

(** The peer ids a list of effects opens connections to. *)
Definition connects (es : list Effect) : list string :=
  omap (fun e => match e with EConnect _ id => Some id | _ => None end) es.

(** ** Lemmas *)

(** The party after [enter], and the counter and title recomputed from it. *)
Lemma enter_run peer name c s :
  enter peer name c s =
    (let p' := JsObject.set peer (mkEntry name c) (party s) in
     set_title (title_text p') (set_counter (counter_text p') (set_party p' s)), [], inr tt).
Proof. reflexivity. Qed.

Lemma connects_app es1 es2 : connects (es1 ++ es2) = connects es1 ++ connects es2.
Proof. apply omap_app. Qed.

Lemma dampenedPause_silent t s : effects (dampenedPause t) s = [].
Proof. st_destr s. unfold dampenedPause. destruct (truthy (Fin t)), pz; prun; done. Qed.

Lemma dampenedPlay_silent t s : effects (dampenedPlay t) s = [].
Proof. st_destr s. unfold dampenedPlay. destruct (truthy (Fin t)), pz; prun; done. Qed.

Lemma respondBody_run peer id s :
  respondBody peer id s =
    if bool_decide (State.peerId s = Some id) || String.eqb peer id then (s, [], inr tt)
    else (set_conns (<[nextConn s := mkConn id Connecting [Greet (myName s) None]]> (conns s))
                    (S (nextConn s)) s, [EConnect (nextConn s) id], inr tt).
Proof. unfold respondBody. cbv [mbind M_bind gets]. by destruct (_ || _). Qed.

(** The loop opens one connection per listed id that is neither the local
    id nor the sender, in order, and keeps the local id. *)
Lemma respond_loop peer cs s : exists s' es,
  for_each cs (respondBody peer) s = (s', es, inr tt) /\ State.peerId s' = State.peerId s /\
  connects es = List.filter (fun id => negb (bool_decide (State.peerId s = Some id) || String.eqb peer id)) cs.
Proof.
  revert s. induction cs as [|id cs IH]; intros s; [by exists s, []|]. simpl.
  cbv [mbind M_bind]. rewrite respondBody_run.
  destruct (bool_decide (State.peerId s = Some id) || String.eqb peer id) eqn:Hskip; simpl.
  - destruct (IH s) as (s' & es & -> & Hid & Hc). by exists s', es.
  - match goal with |- context [for_each cs (respondBody peer) ?s1] =>
      destruct (IH s1) as (s' & es & -> & Hid & Hc) end.
    exists s', (EConnect (nextConn s) id :: es). simpl in *. by rewrite Hid, Hc.
Qed.

(** The state [onClose peer] leaves: the entry of [peer], if any, is
    deleted and the counter and title recomputed. *)
Lemma onClose_final peer s :
  final (onClose peer) s =
    match (party s).[peer] with
    | Some _ =>
        let p' := JsObject.delete peer (party s) in
        set_title (title_text p') (set_counter (counter_text p') (set_party p' s))
    | None => s
    end.
Proof.
  unfold final, onClose, JsObject.has. cbv [mbind M_bind gets].
  destruct ((party s).[peer]); reflexivity.
Qed.

(** ** Theorems *)

(** C28: [respondConnections]: the connections opened are exactly to the listed
    ids other than the local peer and the sender, in the order listed; the
    code does not skip ids already in the party (spec section 9). *)
Theorem respond_connects peer cs t p s :
  connects (effects (onRespondConnections peer cs t p) s) =
    List.filter (fun id => negb (bool_decide (State.peerId s = Some id) || String.eqb peer id)) cs.
Proof.
  destruct (respond_loop peer cs s) as (s' & es & Hl & _ & Hc).
  unfold onRespondConnections. rewrite (effects_seq _ _ _ _ _ _ Hl), connects_app, Hc.
  destruct p; [rewrite dampenedPause_silent|rewrite dampenedPlay_silent]; apply app_nil_r.
Qed.

Lemma respond_connects_witness :
  connects (effects (onRespondConnections "H" ["A"; "J"; "H"; "B"] 0 true)
     (set_peerId (Some "J") (hostOrJoin_init "J" (Some "H") "u" (mkVideo 0 true false)))) = ["A"; "B"].
Proof. rewrite respond_connects. reflexivity. Defined.

(** [greet]: the sender is entered in the party under its connection with
    the announced name (overwriting an earlier entry for that peer id),
    the counter and title follow, and the handler renders the join
    notice, replies [returnGreet] with the local name on the same
    connection and plays the join sound. *)
Theorem greet_run c peer name time s :
  onGreet c peer name time s =
    (let p' := JsObject.set peer (mkEntry name c) (party s) in
     set_title (title_text p') (set_counter (counter_text p') (set_party p' s)),
     [ERender SystemLine (name +:+ " has joined (" +:+ formatSeconds (of_field time) +:+ ").");
      ESend c (ReturnGreet (myName s)); ESound JoinAlert], inr tt).
Proof. reflexivity. Qed.

(** [close]: the entry of the closed connection's peer, if any, is removed
    and announced; every other entry is untouched. *)
Theorem close_removes peer s :
  (party (final (onClose peer) s)).[peer] = None /\
  (forall k, k <> peer -> (party (final (onClose peer) s)).[k] = (party s).[k]) /\
  effects (onClose peer) s =
    match (party s).[peer] with
    | Some e => [ERender SystemLine (name e +:+ " has left.")]
    | None => []
    end.
Proof.
  unfold onClose, final, effects. cbv [mbind M_bind gets]. unfold JsObject.has.
  destruct ((party s).[peer]) as [e|] eqn:He; simpl.
  - rewrite JsObject.get_delete_eq. split; [done|split; [|done]].
    intros k Hk. by apply JsObject.get_delete_ne.
  - split; [done|]. split; done.
Qed.

(** A connection error is reported and changes nothing else: the party
    keeps the peer's entry (spec section 4.1). *)
Theorem conn_error_keeps_party s :
  onConnError s = (s, [ERender ErrorLine "Something went wrong with the connection."], inr tt).
Proof. reflexivity. Qed.

End Membership.
