(* ===== verification/Chat.v ===== *)
(** * The chat and command engine

    popup.js:208-255: the command table [commands] (a JS object of
    [{description, run}]), the [keyup] handler of the chat input, and the
    [chat] case of the data handler (popup.js:447-452).

    The string functions the handler calls are modelled after their
    ECMAScript definitions on the development's 8-bit strings:
    [String.prototype.trim] removes the white space and line terminators
    among these characters (tab, line feed, vertical tab, form feed,
    carriage return, space, no-break space), [startsWith('/')] tests the
    first character, [split(' ')] cuts at every space and keeps the empty
    pieces.

    Theorems: a chat line is rendered locally and broadcast once per party
    member, and the input cleared; a blank line is ignored; each command on
    its branch; an unknown command throws the [TypeError] of
    [undefined.run], before the input is cleared. *)

From S2P Require Import Prelude.
From S2P Require Import JsObject.
From S2P Require Import JsNum.
From S2P Require Import Message.
From S2P Require Import State.
From S2P Require Import Playback.

Module Chat.
Import Message State Playback.

(** ** Strings *)

Definition is_ws (c : ascii) : bool :=
  match Ascii.nat_of_ascii c with
  | 9 | 10 | 11 | 12 | 13 | 32 | 160 => true
  | _ => false
  end.

Fixpoint trim_start (s : string) : string :=
  match s with
  | EmptyString => EmptyString
  | String c s' => if is_ws c then trim_start s' else s
  end.

(** [s.trim()] *)
Definition trim (s : string) : string :=
  String.rev (trim_start (String.rev (trim_start s))).

(** [s.startsWith('/')] *)
Definition startsWith_slash (s : string) : bool :=
  match s with String c _ => Ascii.eqb c "/"%char | EmptyString => false end.

Fixpoint split_go (acc s : string) : list string :=
  match s with
  | EmptyString => [acc]
  | String c s' =>
      if Ascii.eqb c " "%char then acc :: split_go "" s' else split_go (acc +:+ String c "") s'
  end.

(** [s.split(' ')] *)
Definition split_space (s : string) : list string := split_go "" s.

(** ** The command table, popup.js:208-232 *)

Inductive Command := Help | Members | Mute.

Definition commands : list (string * Command) :=
  [("/help", Help); ("/members", Members); ("/mute", Mute)].

Definition description (c : Command) : string :=
  match c with
  | Help => "displays all possible commands and descriptions"
  | Members => "displays all party members"
  | Mute => "toggle mute"
  end.

(** [commands[key].run()] *)
Definition run_command (c : Command) : M unit :=
  match c with
  | Help =>
      for_each (JsObject.keys commands) (fun key =>
        match JsObject.get key commands with
        | Some c' => systemMessage (key +:+ ": " +:+ description c')
        | None => mret tt
        end)
  | Members =>
      systemMessage "You";;
      p ← gets party;
      for_each (JsObject.keys p) (fun key =>
        match JsObject.get key p with
        | Some e => systemMessage (name e)
        | None => throw (TypeError "Cannot read properties of undefined (reading 'name')")
        end)
  | Mute =>
      modify (fun s => set_video (mkVideo (currentTime (video s)) (paused (video s))
                                          (negb (muted (video s)))) s)
  end.

(** ** Handlers *)

(** [messageInput.addEventListener('keyup', ...)], popup.js:234-255. *)
Definition onKeyUp (key : string) : M unit :=
  if String.eqb key "Enter" then
    inp ← gets input;
    let message := trim inp in
    if String.eqb message "" then mret tt
    else
      (if startsWith_slash message then
         let splitMessage := split_space message in
         match JsObject.get (default "" (head splitMessage)) commands with
         | Some c => run_command c
         | None => throw (TypeError "Cannot read properties of undefined (reading 'run')")
         end
       else
         addMessage ("You: " +:+ message);;
         sendAll (Chat message));;
      modify (set_input "")
  else mret tt.

(** [case 'chat'], popup.js:447-452. *)
Definition onChat (actor : option string) (message : string) : M unit :=
  addMessage (actor_text actor +:+ ": " +:+ message);;
  emit (ESound MessageAlert).

(** ** Theorems *)

(** [first_token m]: [splitMessage[0]], the command name of a slash line. *)
Definition first_token (m : string) : string := default "" (head (split_space m)).

Lemma slash_nonempty m : startsWith_slash m = true -> String.eqb m "" = false.
Proof. by destruct m. Qed.

Lemma split_go_cons acc s : exists w ws, split_go acc s = w :: ws.
Proof.
  revert acc. induction s as [|c s IH]; intros acc; simpl; [by eexists _, []|].
  destruct (Ascii.eqb c " "%char); [by eexists _, _|apply IH].
Qed.

(** [enter_line Ht]: run the [Enter] branch of the handler up to the test
    on the trimmed line [trim (input s) = m]. *)
Ltac enter_line Ht :=
  unfold onKeyUp; rewrite String.eqb_refl; cbv [mbind M_bind gets]; cbv beta iota zeta;
  rewrite Ht.

(** C27: A chat line: the trimmed text is rendered locally as "You: ..." and
    sent once to each party member in enumeration order, and the input is
    cleared. *)
Theorem chat_send s m :
  trim (input s) = m -> m <> "" -> startsWith_slash m = false -> JsObject.wf (party s) ->
  onKeyUp "Enter" s =
    (set_input "" s,
     ERender ChatLine ("You: " +:+ m) :: map (fun kv => ESend (connection kv.2) (Chat m)) (party s),
     inr tt).
Proof.
  intros Ht Hne Hs Hwf. unfold onKeyUp. cbv [mbind M_bind gets]. simpl. rewrite Ht.
  destruct (String.eqb_spec m ""); [done|]. rewrite Hs.
  cbv [mbind M_bind addMessage emit]. rewrite sendAll_run by done. simpl. by rewrite app_nil_r.
Qed.

Lemma chat_send_witness :
  onKeyUp "Enter" (set_input "  hello " (set_party [("B", mkEntry "Bob" 3)]
     (hostOrJoin_init "A" None "u" (mkVideo 0 true false)))) =
  (set_input "" (set_input "  hello " (set_party [("B", mkEntry "Bob" 3)]
     (hostOrJoin_init "A" None "u" (mkVideo 0 true false)))),
   [ERender ChatLine "You: hello"; ESend 3 (Chat "hello")], inr tt).
Proof. rewrite (chat_send _ "hello"); try done. apply JsObject.wf_compute; reflexivity. Defined.

(** A blank line (empty after trimming) is ignored, and left in the
    input. *)
Theorem blank_ignored s : trim (input s) = "" -> onKeyUp "Enter" s = (s, [], inr tt).
Proof. intros Ht. unfold onKeyUp. cbv [mbind M_bind gets]. simpl. by rewrite Ht. Qed.

Lemma blank_ignored_witness :
  onKeyUp "Enter" (set_input "   " (hostOrJoin_init "A" None "u" (mkVideo 0 true false))) =
  (set_input "   " (hostOrJoin_init "A" None "u" (mkVideo 0 true false)), [], inr tt).
Proof. apply blank_ignored. reflexivity. Defined.

(** C29: An unknown command: [commands[splitMessage[0]]] is [undefined] and
    reading its [run] throws a [TypeError]; nothing is rendered and the
    input is not cleared (spec section 7). *)
Theorem unknown_command_throws s m :
  trim (input s) = m -> startsWith_slash m = true -> JsObject.has (first_token m) commands = false ->
  onKeyUp "Enter" s = (s, [], inl (TypeError "Cannot read properties of undefined (reading 'run')")).
Proof.
  intros Ht Hs Hu. apply JsObject.has_false in Hu. unfold first_token in Hu.
  enter_line Ht. rewrite (slash_nonempty m Hs), Hs, Hu. done.
Qed.

Lemma unknown_command_throws_witness :
  onKeyUp "Enter" (set_input "/kick bob" (hostOrJoin_init "A" None "u" (mkVideo 0 true false))) =
  (set_input "/kick bob" (hostOrJoin_init "A" None "u" (mkVideo 0 true false)), [],
   inl (TypeError "Cannot read properties of undefined (reading 'run')")).
Proof. apply (unknown_command_throws _ "/kick bob"); reflexivity. Defined.

(** [/members] lists "You" and then every party member's name, in
    enumeration order, and clears the input. *)
Theorem members_command s m :
  trim (input s) = m -> startsWith_slash m = true -> first_token m = "/members" ->
  JsObject.wf (party s) ->
  onKeyUp "Enter" s =
    (set_input "" s,
     ERender SystemLine "You" :: map (fun kv => ERender SystemLine (name kv.2)) (party s), inr tt).
Proof.
  intros Ht Hs Hf Hwf. unfold first_token in Hf.
  enter_line Ht. rewrite (slash_nonempty m Hs), Hs, Hf. simpl.
  cbv [mbind M_bind gets systemMessage emit].
  rewrite (for_each_keys_emit _ (fun _ e => ERender SystemLine (name e))) by done. simpl. by rewrite app_nil_r.
Qed.

Lemma members_command_witness :
  onKeyUp "Enter" (set_input " /members" (set_party [("B", mkEntry "Bob" 3); ("C", mkEntry "Cy" 4)]
     (hostOrJoin_init "A" None "u" (mkVideo 0 true false)))) =
  (set_input "" (set_input " /members" (set_party [("B", mkEntry "Bob" 3); ("C", mkEntry "Cy" 4)]
     (hostOrJoin_init "A" None "u" (mkVideo 0 true false)))),
   [ERender SystemLine "You"; ERender SystemLine "Bob"; ERender SystemLine "Cy"], inr tt).
Proof.
  rewrite (members_command _ "/members"); try reflexivity. apply JsObject.wf_compute; reflexivity.
Defined.

(** [/mute] toggles the element's [muted] flag and clears the input. *)
Theorem mute_command s m :
  trim (input s) = m -> startsWith_slash m = true -> first_token m = "/mute" ->
  onKeyUp "Enter" s =
    (set_input "" (set_video (mkVideo (currentTime (video s)) (paused (video s))
                                      (negb (muted (video s)))) s), [], inr tt).
Proof.
  intros Ht Hs Hf. unfold first_token in Hf.
  enter_line Ht. rewrite (slash_nonempty m Hs), Hs, Hf. done.
Qed.

Lemma mute_command_witness :
  final (onKeyUp "Enter") (set_input "/mute" (hostOrJoin_init "A" None "u" (mkVideo 0 true false)))
  = set_input "" (set_video (mkVideo 0 true true)
      (set_input "/mute" (hostOrJoin_init "A" None "u" (mkVideo 0 true false)))).
Proof. unfold final. rewrite (mute_command _ "/mute"); reflexivity. Defined.

End Chat.
