(* ===== verification/Peer.v ===== *)
(** * One peer: every event [hostOrJoin] reacts to

    The components composed the way popup.js composes them: [onData] is
    the [data] listener of [setupConnection] (popup.js:376-456), which
    reads [party[conn.peer]?.name] and dispatches on the decoded message;
    [handle] runs the listener of each event the page receives, from
    PeerJS (peer open/error, incoming connection, connection
    open/data/close/error), from the event loop (a due timer, a queued
    media event), from the user (play or pause on the native controls,
    typing and releasing a key in the chat input, the "copy host id"
    button) and the unload.

    PeerJS delivers [data] and [error] only on an open connection and
    [close] once; events on a connection in another state are not
    delivered ([deliverable]).

    [reachable] is the set of states the page can reach from
    [hostOrJoin_init] by any sequence of events, and [run_events] runs
    a given sequence.  The invariant of the reachable states is proved in
    [Invariant]. *)

From S2P Require Import Prelude.
From S2P Require Import JsObject.
From S2P Require Import JsNum.
From S2P Require Import Message.
From S2P Require Import State.
From S2P Require Import Playback.
From S2P Require Import Membership.
From S2P Require Import Chat.

Module Peer.
Import Message State Playback Membership Chat.

Inductive Event :=
| PeerOpen (id : string)
| PeerError
| Incoming (peerId : string)
| ConnOpen (c : ConnId)
| ConnData (c : ConnId) (data : jsval)
| ConnClose (c : ConnId)
| ConnError (c : ConnId)
| TimerTick
| MediaTick
| UserPlay
| UserPause
| UserType (text : string)
| KeyUp (key : string)
| CopyHostId
| Unload.

(** The [data] listener of [setupConnection], popup.js:376-456. *)
Definition onData (c : ConnId) (peer : string) (data : jsval) : M unit :=
  actor ← gets (fun s => name <$> (party s).[peer]);
  match decode data with
  | None => mret tt
  | Some (Greet name time) => onGreet c peer name time
  | Some RequestConnections => onRequestConnections c
  | Some (RespondConnections connections time paused) =>
      onRespondConnections peer connections time paused
  | Some (ReturnGreet name) => onReturnGreet c peer name
  | Some GetUrl => onGetUrl c
  | Some (ReturnUrl _) => mret tt
  | Some (Play time) => onPlay actor time
  | Some (Pause time) => onPause actor time
  | Some (Chat message) => onChat actor message
  end.

(** Which connection events PeerJS delivers. *)
Definition deliverable (ev : Event) (s : St) : bool :=
  match ev with
  | ConnData c _ | ConnError c =>
      match conns s !! c with Some cn => bool_decide (c_status cn = Open) | None => false end
  | ConnClose c | ConnOpen c =>
      match conns s !! c with Some cn => bool_decide (c_status cn <> Closed) | None => false end
  | _ => true
  end.

(** The listeners of each event. *)
Definition handle (ev : Event) : M unit :=
  match ev with
  | PeerOpen id => onPeerOpen id
  | PeerError => onPeerError
  | Incoming peerId => onIncoming peerId;; mret tt
  | ConnOpen c => onConnOpen c
  | ConnData c data =>
      cn ← gets (fun s => conns s !! c);
      match cn with Some cn => onData c (c_peer cn) data | None => mret tt end
  | ConnClose c =>
      cn ← gets (fun s => conns s !! c);
      match cn with
      | Some cn =>
          set_status c Closed;;
          match c_status cn with Connecting => mret tt | _ => onClose (c_peer cn) end
      | None => mret tt
      end
  | ConnError c => onConnError
  | TimerTick => runTimer
  | MediaTick => runMedia
  | UserPlay => media_play
  | UserPause => media_pause
  | UserType text => modify (set_input text)
  | KeyUp key => onKeyUp key
  | CopyHostId => onCopyHostId
  | Unload => onUnload
  end.

(** A deliverable event moves the page to the state its listeners leave. *)
Definition step (s : St) (ev : Event) : St :=
  if deliverable ev s then final (handle ev) s else s.

(** The states reachable from [hostOrJoin(myName, hostId)]. *)
Inductive reachable (myName : string) (hostId : option string) (url : string) (v0 : Video) : St -> Prop :=
| reach_init : reachable myName hostId url v0 (hostOrJoin_init myName hostId url v0)
| reach_step s ev : reachable myName hostId url v0 s -> reachable myName hostId url v0 (step s ev).

(** The page after a sequence of events, in order. *)
Definition run_events (s : St) (evs : list Event) : St := fold_left step evs s.

(** ** Theorems *)

(** An inbound chat is rendered with the sender's name as the party
    knows it, or "undefined" when the sender has not been entered yet (a
    [chat] that overtakes the [greet], spec section 5), followed by the
    alert sound. *)
Theorem chat_actor c peer m s :
  onData c peer (encode (Chat m)) s =
    (s, [ERender ChatLine (default "undefined" (name <$> (party s).[peer]) +:+ ": " +:+ m);
         ESound MessageAlert], inr tt).
Proof.
  unfold onData. cbv [mbind M_bind gets]. rewrite decode_encode.
  unfold onChat, addMessage, emit, actor_text. cbv [mbind M_bind]. reflexivity.
Qed.

End Peer.
