(* ===== verification/EventLoop.v ===== *)
(** * The page's own tasks run out

    Besides the events that come from outside (PeerJS, the user, the
    unload), the page feeds its event loop with two task sources of its
    own: the [setTimeout] callbacks of [playHandler], [dampenedPause] and
    [dampenedPlay] (popup.js:310-316, 346-354, 360-368), queued in
    [timers], and the native [play]/[pause] events the media element
    queues when [dampenedPlay]/[dampenedPause] call [videoElem.play()] or
    [videoElem.pause()], queued in [media].  A timer callback queues
    nothing ([TSeek], [TUndamp]) or only sends ([TAnnouncePlay]); a
    native [play] event queues at most the one deferred announcement of
    [playHandler]; a native [pause] event queues nothing.

    [load] weighs a media event twice and a timer once, and every task
    the loop runs lowers it: [loop_step], one task of either source, is
    well founded in whatever order the browser serves the two sources
    ([event_loop_terminates]). *)

From Stdlib Require Import Wellfounded.
From S2P Require Import Prelude.
From S2P Require Import JsObject.
From S2P Require Import JsNum.
From S2P Require Import Message.
From S2P Require Import State.
From S2P Require Import Playback.
From S2P Require Import Membership.
From S2P Require Import Chat.
From S2P Require Import Peer.

Module EventLoop.
Import State Playback Peer.

(** A task of the page's own sources is queued. *)
Definition pending (s : St) (ev : Event) : bool :=
  match ev with
  | TimerTick => bool_decide (timers s <> [])
  | MediaTick => bool_decide (media s <> [])
  | _ => false
  end.

(** The event loop runs one queued task of either source. *)
Inductive loop_step : St -> St -> Prop :=
| loop_run s ev : pending s ev = true -> loop_step s (step s ev).

(** The variant: a queued media event may still queue one timer. *)
Definition load (s : St) : nat := 2 * length (media s) + length (timers s).

(** ** Lemmas *)

(** The two queues are [ts] and [ms]. *)
Definition queues (ts : list Timer) (ms : list Action) (s : St) : Prop :=
  timers s = ts /\ media s = ms.

Lemma modify_queues ts ms f :
  (forall s, timers (f s) = timers s /\ media (f s) = media s) -> preserves (queues ts ms) (modify f).
Proof. intros Hf s [Ht Hm]. unfold final. simpl. destruct (Hf s). split; congruence. Qed.

#[export] Hint Extern 2 (preserves (queues _ _) (modify _)) =>
  apply modify_queues; intros; split; reflexivity : pres.

Lemma media_seek_queues ts ms t : preserves (queues ts ms) (media_seek t).
Proof. intros s Hs. unfold final. rewrite media_seek_spec. exact Hs. Qed.

#[export] Hint Resolve media_seek_queues : pres.

Lemma pauseHandler_queues ts ms : preserves (queues ts ms) pauseHandler.
Proof. unfold pauseHandler. pres. Qed.

Lemma timerTask_queues ts ms t : preserves (queues ts ms) (timerTask t).
Proof.
  destruct t as [tm|[]|]; unfold timerTask, set_dplay, set_dpause; try pres.
  unfold announcePlay. pres.
Qed.

(** A timer task pops its timer and queues nothing. *)
Lemma timer_task_load s : timers s <> [] -> load (step s TimerTick) < load s.
Proof.
  destruct (timers s) as [|t ts] eqn:Ht; [done|]. intros _.
  unfold step. simpl. unfold runTimer. rewrite final_gets, Ht.
  rewrite (final_seq _ _ s (set_timers ts s) [] tt) by reflexivity.
  destruct (timerTask_queues ts (media s) t (set_timers ts s)) as [Ht' Hm']; [done|].
  unfold load. rewrite Ht', Hm', Ht. simpl. lia.
Qed.

(** A media task pops its event and queues at most one timer. *)
Lemma media_task_load s : media s <> [] -> load (step s MediaTick) < load s.
Proof.
  destruct (media s) as [|a ms] eqn:Hm; [done|]. intros _.
  unfold step. simpl. unfold runMedia. rewrite final_gets, Hm.
  rewrite (final_seq _ _ s (set_media ms s) [] tt) by reflexivity.
  destruct a; simpl.
  - unfold playHandler. rewrite final_gets.
    destruct (dplay (isDamp (set_media ms s))); unfold load, final; simpl;
      rewrite ?length_app, Hm; simpl; lia.
  - destruct (pauseHandler_queues (timers s) ms (set_media ms s)) as [Ht' Hm']; [done|].
    unfold load. rewrite Ht', Hm', Hm. simpl. lia.
Qed.

Lemma loop_step_load s s' : loop_step s s' -> load s' < load s.
Proof.
  intros [s0 ev Hp]. destruct ev; try discriminate; apply bool_decide_eq_true in Hp;
    [apply timer_task_load|apply media_task_load]; done.
Qed.

(** ** Theorems *)

(** C12: The page's own tasks run out: there is no infinite sequence of
    timer callbacks and native media events, whatever order the event
    loop serves the two sources in. *)
Theorem event_loop_terminates : well_founded (fun s' s => loop_step s s').
Proof.
  apply (wf_incl _ _ (ltof St load)); [intros s' s; apply loop_step_load|].
  apply well_founded_ltof.
Qed.

End EventLoop.
