(* ===== verification/Dom.v ===== *)
(** * The page's DOM, as far as [hostOrJoin] touches it

    The document is a store of nodes: a [gmap] from node ids to [Node]
    records, with parent links and ordered child lists, so that the
    objects the code holds ([videoParent], [chatContainer], ...) are ids
    into one shared store and a change through one of them is seen
    through every other.  The operations are the DOM calls of
    popup.js:119-297: [createElement], [createTextNode], [appendChild],
    assignments to [style], [textContent], [title] and [type], the
    handler properties [onclick]/[onkeydown]/[onkeyup] and
    [addEventListener].  They run in the state monad [DM] over the store.

    [dispatch] is the DOM's event dispatch for the listeners that matter
    here: the propagation path from the target up its ancestors, the
    capture phase from the top down to the target's parent, the target
    (its capture listeners first), and, for an event that bubbles, the
    bubble phase back up; [event.stopPropagation()] lets the remaining
    listeners of the current node run and stops the event there.  The
    path is computed with fuel [next], the first unused id: on an
    [ordered] document, where every id is below [next] and every parent
    has a smaller id than its child, the path reaches a root within that
    fuel ([path_root]).  Listeners are named by what the code
    registers ([Listener]); a listener of the page's own is [LPage], with
    whether it stops propagation. *)

From S2P Require Import Prelude.
From S2P Require Import JsObject.

Module Dom.

Abbreviation NodeId := nat.

(** The functions the code registers as listeners. *)
Inductive Listener :=
| LStop                          (** [event => { event.stopPropagation(); }], popup.js:137-146 *)
| LCopyHostId                    (** [() => { alert(peer.id); }], popup.js:186-188 *)
| LKeyUp                         (** the [keyup] listener of [messageInput], popup.js:233-255 *)
| LPlay                          (** [playHandler.bind(this)], popup.js:296 *)
| LPause                         (** [pauseHandler], popup.js:297 *)
| LPage (id : nat) (stops : bool). (** a listener of the page's own *)

#[export] Instance Listener_eq_dec : EqDecision Listener.
Proof. solve_decision. Defined.

(** A registration in a node's event listener list. [r_attr] marks the
    one an event handler property ([onclick] ...) installs. *)
Record Reg := mkReg { r_type : string; r_capture : bool; r_attr : bool; r_fn : Listener }.

#[export] Instance Reg_eq_dec : EqDecision Reg.
Proof. solve_decision. Defined.

Record Node := mkNode {
  tagName : string;                   (** ["#text"] for a text node *)
  style : list (string * string);     (** the declarations set on [style] *)
  textContent : string;
  title : string;
  typ : string;                       (** [input.type] *)
  parentNode : option NodeId;
  childNodes : list NodeId;
  listeners : list Reg;
}.

Record Doc := mkDoc { nodes : gmap NodeId Node; next : NodeId }.

(** ** The DOM monad *)

Definition DM (A : Type) : Type := Doc -> Doc * A.

#[export] Instance DM_ret : MRet DM := fun A a d => (d, a).
#[export] Instance DM_bind : MBind DM := fun A B f c d => let '(d', a) := c d in f a d'.

Definition get_node (n : NodeId) : DM (option Node) := fun d => (d, nodes d !! n).

(** Apply [f] to node [n]; a missing node is left alone. *)
Definition update (n : NodeId) (f : Node -> Node) : DM unit :=
  fun d => (mkDoc (alter f n (nodes d)) (next d), tt).

Definition with_style k v (x : Node) :=
  mkNode (tagName x) (JsObject.set k v (style x)) (textContent x) (title x) (typ x)
    (parentNode x) (childNodes x) (listeners x).
Definition with_text t (x : Node) :=
  mkNode (tagName x) (style x) t (title x) (typ x) (parentNode x) (childNodes x) (listeners x).
Definition with_title t (x : Node) :=
  mkNode (tagName x) (style x) (textContent x) t (typ x) (parentNode x) (childNodes x) (listeners x).
Definition with_typ t (x : Node) :=
  mkNode (tagName x) (style x) (textContent x) (title x) t (parentNode x) (childNodes x) (listeners x).
Definition with_parent p (x : Node) :=
  mkNode (tagName x) (style x) (textContent x) (title x) (typ x) p (childNodes x) (listeners x).
Definition with_children cs (x : Node) :=
  mkNode (tagName x) (style x) (textContent x) (title x) (typ x) (parentNode x) cs (listeners x).
Definition with_listeners ls (x : Node) :=
  mkNode (tagName x) (style x) (textContent x) (title x) (typ x) (parentNode x) (childNodes x) ls.

(** ** The DOM calls *)

(** [document.createElement(tag)]: a fresh detached node. *)
Definition createElement (tag : string) : DM NodeId :=
  fun d => (mkDoc (<[next d := mkNode tag [] "" "" "" None [] []]> (nodes d)) (S (next d)), next d).

(** [document.createTextNode(text)] *)
Definition createTextNode (text : string) : DM NodeId :=
  fun d => (mkDoc (<[next d := mkNode "#text" [] text "" "" None [] []]> (nodes d)) (S (next d)), next d).

(** [n.style[k] = v] *)
Definition set_style (n : NodeId) (k v : string) : DM unit := update n (with_style k v).
(** [n.textContent = t] (the nodes it is used on have no children) *)
Definition set_textContent (n : NodeId) (t : string) : DM unit := update n (with_text t).
Definition set_title (n : NodeId) (t : string) : DM unit := update n (with_title t).
Definition set_type (n : NodeId) (t : string) : DM unit := update n (with_typ t).

(** [p.appendChild(c)]: [c] leaves its old parent, if any, and becomes
    the last child of [p]. *)
Definition appendChild (p c : NodeId) : DM unit :=
  x ← get_node c;
  match x with
  | None => mret tt
  | Some x =>
      (match parentNode x with
       | Some q => update q (fun y => with_children (List.filter (fun m => negb (Nat.eqb m c)) (childNodes y)) y)
       | None => mret tt
       end);;
      update c (with_parent (Some p));;
      update p (fun y => with_children (childNodes y ++ [c]) y)
  end.

(** [n.addEventListener(ty, l)]; a listener already registered is not
    registered twice. *)
Definition addEventListener (n : NodeId) (ty : string) (l : Listener) : DM unit :=
  update n (fun x =>
    let r := mkReg ty false false l in
    if existsb (fun r' => bool_decide (r' = r)) (listeners x) then x else with_listeners (listeners x ++ [r]) x).

(** [n.on<ty> = l]: the handler property replaces its listener in place,
    or appends one the first time it is set. *)
Fixpoint set_attr_reg (ty : string) (l : Listener) (rs : list Reg) : option (list Reg) :=
  match rs with
  | [] => None
  | r :: rs' =>
      if r_attr r && String.eqb (r_type r) ty then Some (mkReg ty false true l :: rs')
      else (fun rs => r :: rs) <$> set_attr_reg ty l rs'
  end.

Definition set_handler (n : NodeId) (ty : string) (l : Listener) : DM unit :=
  update n (fun x => with_listeners
    (default (listeners x ++ [mkReg ty false true l]) (set_attr_reg ty l (listeners x))) x).

(** ** Event dispatch *)

Inductive Phase := Capturing | AtTarget | Bubbling.

(** The propagation path: the target, then its ancestors. *)
Fixpoint path (fuel : nat) (ns : gmap NodeId Node) (n : NodeId) : list NodeId :=
  match fuel with
  | 0 => []
  | S f => n :: match ns !! n ≫= parentNode with Some p => path f ns p | None => [] end
  end.

(** The listeners of node [n] that an event of type [ty] invokes in a
    phase, in order. *)
Definition invoked (ns : gmap NodeId Node) (ty : string) (ph : Phase) (n : NodeId) : list Listener :=
  let rs := List.filter (fun r => String.eqb (r_type r) ty) (default [] (listeners <$> ns !! n)) in
  match ph with
  | Capturing => r_fn <$> List.filter r_capture rs
  | Bubbling => r_fn <$> List.filter (fun r => negb (r_capture r)) rs
  | AtTarget => r_fn <$> (List.filter r_capture rs ++ List.filter (fun r => negb (r_capture r)) rs)
  end.

Definition stops (l : Listener) : bool :=
  match l with LStop => true | LPage _ b => b | _ => false end.

(** One phase over the nodes [ps]: the listeners run, and whether one
    stopped propagation. *)
Fixpoint run_phase (ns : gmap NodeId Node) (ty : string) (ph : Phase) (ps : list NodeId)
    : list (NodeId * Listener) * bool :=
  match ps with
  | [] => ([], false)
  | n :: ps' =>
      let ls := invoked ns ty ph n in
      if existsb stops ls then (pair n <$> ls, true)
      else let '(r, st) := run_phase ns ty ph ps' in ((pair n <$> ls) ++ r, st)
  end.

(** [play] and [pause] do not bubble; the input events do. *)
Definition bubbles (ty : string) : bool := negb (String.eqb ty "play" || String.eqb ty "pause").

(** The listeners an event of type [ty] dispatched at [target] runs. *)
Definition dispatch (d : Doc) (target : NodeId) (ty : string) : list (NodeId * Listener) :=
  let ancestors := tail (path (next d) (nodes d) target) in
  let '(c, st) := run_phase (nodes d) ty Capturing (rev ancestors) in
  if st then c else
  let '(t, st) := run_phase (nodes d) ty AtTarget [target] in
  if st || negb (bubbles ty) then c ++ t else c ++ t ++ fst (run_phase (nodes d) ty Bubbling ancestors).

(** Every id in use is below [next]: [createElement] allocates fresh ids. *)
Definition fresh (d : Doc) : Prop := map_Forall (fun n _ => n < next d) (nodes d).

(** The parent of [x], if any, precedes [n]. *)
Definition parent_before (x : Node) (n : NodeId) : Prop :=
  forall p, parentNode x = Some p -> p < n.

#[export] Instance parent_before_dec x n : Decision (parent_before x n).
Proof.
  unfold parent_before. destruct (parentNode x) as [p|].
  - destruct (decide (p < n)); [left; congruence|right; intros H; auto].
  - left. done.
Defined.

(** A well-formed store: the ids in use are below [next], and every
    parent was created before its children, as in a document the parser
    builds in document order. *)
Definition ordered (d : Doc) : Prop :=
  map_Forall (fun n x => n < next d /\ parent_before x n) (nodes d).

#[export] Instance ordered_dec d : Decision (ordered d).
Proof. unfold ordered. apply _. Defined.

(** A field of node [k], and the parent and listeners of [k]. *)
Definition field_of {B} (g : Node -> B) (ns : gmap NodeId Node) (k : NodeId) : option B := g <$> ns !! k.
Definition links (ns : gmap NodeId Node) (k : NodeId) (p : option NodeId) (ls : list Reg) : Prop :=
  field_of parentNode ns k = Some p /\ field_of listeners ns k = Some ls.

(** A listener registered at [n] for the capture phase of [ty]. *)
Definition capture_listener (ns : gmap NodeId Node) (n : NodeId) (ty : string) (l : Listener) : Prop :=
  exists x r, ns !! n = Some x /\ r ∈ listeners x /\ r_type r = ty /\ r_capture r = true /\ r_fn r = l.

(** ** Lemmas *)

(** Lookups in the store, at its type (the generic lemmas leave the map
    type to unification). *)
Lemma nodes_alter_eq f k (ns : gmap NodeId Node) : alter f k ns !! k = f <$> ns !! k.
Proof. apply lookup_alter_eq. Qed.
Lemma nodes_alter_ne f k k' (ns : gmap NodeId Node) : k <> k' -> alter f k ns !! k' = ns !! k'.
Proof. apply lookup_alter_ne. Qed.
Lemma nodes_insert_eq x k (ns : gmap NodeId Node) : <[k := x]> ns !! k = Some x.
Proof. apply lookup_insert_eq. Qed.
Lemma nodes_insert_ne x k k' (ns : gmap NodeId Node) : k <> k' -> <[k := x]> ns !! k' = ns !! k'.
Proof. apply lookup_insert_ne. Qed.

(** [chase]: push lookups through the updates of a run, deciding the
    keys by [lia]; [red_nodes]: compute the node records, leaving the
    strings alone. *)
Ltac chase :=
  repeat first [rewrite nodes_alter_eq | rewrite nodes_insert_eq
               | rewrite nodes_alter_ne by lia | rewrite nodes_insert_ne by lia].
Ltac red_nodes :=
  cbv beta iota zeta delta [fmap option_fmap option_map with_style with_text with_title with_typ
    with_parent with_children with_listeners tagName style textContent title typ parentNode
    childNodes listeners existsb].
Ltac dm_run :=
  cbv [mbind DM_bind mret DM_ret get_node update createElement createTextNode set_style
       set_textContent set_title set_type appendChild addEventListener set_handler nodes next].

(** Updates that keep a field. *)
Lemma field_alter {B} (g : Node -> B) f k j (ns : gmap NodeId Node) :
  (forall x, g (f x) = g x) -> field_of g (alter f k ns) j = field_of g ns j.
Proof.
  intros Hf. unfold field_of. destruct (decide (k = j)) as [->|]; [rewrite nodes_alter_eq|by rewrite nodes_alter_ne].
  destruct (ns !! j); simpl; auto. by rewrite Hf.
Qed.

Lemma field_alter_ne {B} (g : Node -> B) f k j (ns : gmap NodeId Node) :
  k <> j -> field_of g (alter f k ns) j = field_of g ns j.
Proof. intros. unfold field_of. by rewrite nodes_alter_ne. Qed.

Lemma field_insert_ne {B} (g : Node -> B) x k j (ns : gmap NodeId Node) :
  k <> j -> field_of g (<[k := x]> ns) j = field_of g ns j.
Proof. intros. unfold field_of. by rewrite nodes_insert_ne. Qed.

(** [chase_field]: follow a field of an old node through a run. *)
Ltac chase_field :=
  repeat first [rewrite field_insert_ne by lia | rewrite field_alter_ne by lia
               | rewrite field_alter by (intros ?; repeat case_match; reflexivity)].

Lemma links_frame ns ns' k p ls :
  links ns k p ls -> field_of parentNode ns' k = field_of parentNode ns k ->
  field_of listeners ns' k = field_of listeners ns k -> links ns' k p ls.
Proof. unfold links. intros [H1 H2] -> ->. done. Qed.

Lemma links_eq ns ns' k p ls : ns' !! k = ns !! k -> links ns k p ls -> links ns' k p ls.
Proof. intros Hk Hl. apply (links_frame ns); [done|unfold field_of; by rewrite Hk..]. Qed.

Lemma path_S f ns k :
  path (S f) ns k = k :: match field_of parentNode ns k with Some (Some p) => path f ns p | _ => [] end.
Proof. simpl. unfold field_of. by destruct (ns !! k). Qed.

Lemma invoked_links ns k p ls ty ph :
  links ns k p ls -> invoked ns ty ph k =
    let rs := List.filter (fun r => String.eqb (r_type r) ty) ls in
    match ph with
    | Capturing => r_fn <$> List.filter r_capture rs
    | Bubbling => r_fn <$> List.filter (fun r => negb (r_capture r)) rs
    | AtTarget => r_fn <$> (List.filter r_capture rs ++ List.filter (fun r => negb (r_capture r)) rs)
    end.
Proof. intros [_ Hl]. unfold invoked. unfold field_of in Hl. by rewrite Hl. Qed.

Lemma run_phase_cons ns ty ph n ps :
  run_phase ns ty ph (n :: ps) =
    if existsb stops (invoked ns ty ph n) then (pair n <$> invoked ns ty ph n, true)
    else ((pair n <$> invoked ns ty ph n) ++ (run_phase ns ty ph ps).1, (run_phase ns ty ph ps).2).
Proof. simpl. by destruct (run_phase ns ty ph ps). Qed.

Lemma elem_of_pair_fmap {A B} (a a' : A) (b : B) (l : list B) : (a', b) ∈ pair a <$> l -> a' = a.
Proof. rewrite list_elem_of_fmap. by intros (? & [= -> _] & _). Qed.

(** The capture phase only runs capture listeners. *)
Lemma run_phase_capture ns ty ps n l :
  (n, l) ∈ (run_phase ns ty Capturing ps).1 -> capture_listener ns n ty l.
Proof.
  induction ps as [|m ps IH]; simpl; [by intros ?%elem_of_nil|].
  assert (Hm : (n, l) ∈ pair m <$> invoked ns ty Capturing m -> capture_listener ns n ty l).
  { rewrite list_elem_of_fmap. intros (l' & [= -> ->] & Hl). unfold invoked in Hl.
    destruct (ns !! m) as [x|] eqn:Hx; simpl in Hl; [|by apply elem_of_nil in Hl].
    apply list_elem_of_fmap in Hl as (r & -> & Hr).
    apply list_elem_of_In, filter_In in Hr as [Hr Hc]. apply filter_In in Hr as [Hr Ht].
    exists x, r. repeat split; try done; [by apply list_elem_of_In|by apply String.eqb_eq]. }
  destruct (existsb _ _); [done|]. destruct (run_phase ns ty Capturing ps) as [r st].
  simpl. rewrite elem_of_app. intros [?|?]; auto.
Qed.

(** A phase run over [ws ++ c :: rest] stops at [c] when a listener of
    [c] stops propagation: only the nodes up to [c] run listeners. *)
Lemma run_phase_stops ns ty ph ws c rest n l :
  existsb stops (invoked ns ty ph c) = true ->
  (n, l) ∈ (run_phase ns ty ph (ws ++ c :: rest)).1 -> n ∈ ws ++ [c].
Proof.
  intros Hc. induction ws as [|m ws IH]; cbn [app]; rewrite run_phase_cons.
  - rewrite Hc. simpl. intros ->%elem_of_pair_fmap. by apply list_elem_of_singleton.
  - destruct (existsb stops (invoked ns ty ph m)); simpl.
    + intros ->%elem_of_pair_fmap. apply elem_of_cons; auto.
    + rewrite elem_of_app. intros [->%elem_of_pair_fmap|H]; apply elem_of_cons; auto.
Qed.

(** A phase that reports a stop ran a listener that stops. *)
Lemma run_phase_stopped ns ty ph ps r :
  run_phase ns ty ph ps = (r, true) -> Exists (fun nl => stops nl.2 = true) r.
Proof.
  revert r. induction ps as [|m ps IH]; intros r; [done|]. rewrite run_phase_cons.
  destruct (existsb stops (invoked ns ty ph m)) eqn:Hs; intros Heq; injection Heq as <-; intros.
  - apply existsb_exists in Hs as (l & Hl%list_elem_of_In & Hl').
    apply Exists_exists. exists (m, l). split; [|done]. apply list_elem_of_fmap. by exists l.
  - apply Exists_app. right. apply IH. by destruct (run_phase ns ty ph ps); simplify_eq/=.
Qed.

(** Nodes without listeners for the event let it through. *)
Lemma run_phase_skip ns ty ph ws ps :
  Forall (fun k => invoked ns ty ph k = []) ws -> run_phase ns ty ph (ws ++ ps) = run_phase ns ty ph ps.
Proof.
  intros Hws. induction Hws as [|k ws Hk Hws IH]; [done|]. cbn [app].
  rewrite run_phase_cons, Hk. simpl. rewrite IH. by destruct (run_phase ns ty ph ps).
Qed.

Lemma run_phase_skip1 ns ty ph k ps :
  invoked ns ty ph k = [] -> run_phase ns ty ph (k :: ps) = run_phase ns ty ph ps.
Proof. intros Hk. apply (run_phase_skip _ _ _ [k]). by constructor. Qed.

(** Every listener of the first node of a phase runs. *)
Lemma run_phase_head ns ty ph n ps l :
  l ∈ invoked ns ty ph n -> (n, l) ∈ (run_phase ns ty ph (n :: ps)).1.
Proof.
  intros Hl. assert (H : (n, l) ∈ pair n <$> invoked ns ty ph n) by (apply list_elem_of_fmap; by exists l).
  rewrite run_phase_cons. destruct (existsb _ _); simpl; [done|]. apply elem_of_app; auto.
Qed.

(** The capture phase runs the capture listeners of the ancestors; then,
    unless one of them stopped the event, the target's listeners and the
    bubble phase. *)
Lemma dispatch_split d t ty :
  exists pre, Forall (fun nl => capture_listener (nodes d) nl.1 ty nl.2) pre /\
    ((dispatch d t ty = pre /\ Exists (fun nl => stops nl.2 = true) pre) \/
     (let anc := tail (path (next d) (nodes d) t) in
      let '(tg, st) := run_phase (nodes d) ty AtTarget [t] in
      dispatch d t ty = pre ++ tg ++ (if st || negb (bubbles ty) then [] else (run_phase (nodes d) ty Bubbling anc).1))).
Proof.
  unfold dispatch. destruct (run_phase (nodes d) ty Capturing _) as [cap st] eqn:Hcap.
  exists cap. split.
  { apply Forall_forall. intros [n l] H. eapply run_phase_capture. by rewrite Hcap. }
  destruct st; [left; split; [done|]; by eapply run_phase_stopped|right].
  destruct (run_phase (nodes d) ty AtTarget [t]) as [tg st]. destruct (st || _); by rewrite ?app_nil_r.
Qed.

(** An event whose target does not stop it, which bubbles through
    nodes without listeners for it to an ancestor whose only listener
    for it stops it: the capture listeners, the target's, then the
    ancestor's, unless a capture listener stopped it first. *)
Lemma dispatch_to_stop d t ty ws c rest lt :
  path (next d) (nodes d) t = t :: ws ++ c :: rest ->
  invoked (nodes d) ty AtTarget t = lt -> existsb stops lt = false -> bubbles ty = true ->
  Forall (fun k => invoked (nodes d) ty Bubbling k = []) ws ->
  invoked (nodes d) ty Bubbling c = [LStop] ->
  exists pre, Forall (fun nl => capture_listener (nodes d) nl.1 ty nl.2) pre /\
    (dispatch d t ty = pre ++ (pair t <$> lt) ++ [(c, LStop)] \/
     (dispatch d t ty = pre /\ Exists (fun nl => stops nl.2 = true) pre)).
Proof.
  intros Hp Ht Hs Hb Hws Hc. destruct (dispatch_split d t ty) as (pre & Hpre & [H|H]);
    exists pre; (split; [done|]); [by right|left].
  rewrite Hp in H. cbn [tail] in H. rewrite run_phase_cons, Ht, Hs in H. cbn [run_phase fst snd orb] in H.
  rewrite Hb, (run_phase_skip _ _ _ _ _ Hws), run_phase_cons, Hc in H. simpl in H. by rewrite app_nil_r in H.
Qed.

(** A bubble listener registered at [k] runs when the event reaches [k]. *)
Lemma invoked_bubble ns k ls r ty :
  field_of listeners ns k = Some ls -> r ∈ ls -> r_type r = ty -> r_capture r = false ->
  r_fn r ∈ invoked ns ty Bubbling k.
Proof.
  intros Hl Hr Ht Hc. unfold invoked. unfold field_of in Hl. rewrite Hl. simpl.
  apply list_elem_of_fmap. exists r. split; [done|]. apply list_elem_of_In, filter_In.
  rewrite Hc. split; [|done]. apply filter_In. split; [by apply list_elem_of_In|]. subst. apply String.eqb_refl.
Qed.

(** An event dispatched at [t], whose path goes up through [ws] to an
    ancestor [c] whose bubble listeners for [ty] stop it, runs no
    listener above [c] other than capture listeners. *)
Lemma dispatch_stopped d t ty ws c rest n l :
  path (next d) (nodes d) t = t :: ws ++ c :: rest ->
  existsb stops (invoked (nodes d) ty Bubbling c) = true ->
  (n, l) ∈ dispatch d t ty -> n ∈ t :: ws ++ [c] \/ capture_listener (nodes d) n ty l.
Proof.
  intros Hp Hc. unfold dispatch. rewrite Hp. cbn [tail].
  destruct (run_phase (nodes d) ty Capturing (rev (ws ++ c :: rest))) as [cap st] eqn:Hcap.
  assert (Hcl : (n, l) ∈ cap -> capture_listener (nodes d) n ty l).
  { intros H. apply (run_phase_capture _ ty (rev (ws ++ c :: rest))). by rewrite Hcap. }
  destruct st; [auto|].
  destruct (run_phase (nodes d) ty AtTarget [t]) as [tg st'] eqn:Htg.
  assert (Ht : (n, l) ∈ tg -> n = t).
  { rewrite run_phase_cons in Htg. destruct (existsb stops (invoked (nodes d) ty AtTarget t));
      simpl in Htg; injection Htg as <- _; rewrite ?app_nil_r; apply elem_of_pair_fmap. }
  assert (Hb : (n, l) ∈ (run_phase (nodes d) ty Bubbling (ws ++ c :: rest)).1 -> n ∈ ws ++ [c])
    by (by apply run_phase_stops).
  destruct (st' || negb (bubbles ty)); rewrite !elem_of_app;
    [intros [H|H]|intros [H|[H|H]]]; auto; left; rewrite elem_of_cons; auto.
Qed.

(** ... and so does an event whose target's own listeners stop it. *)
Lemma dispatch_stopped_at d t ty n l :
  existsb stops (invoked (nodes d) ty AtTarget t) = true ->
  (n, l) ∈ dispatch d t ty -> n = t \/ capture_listener (nodes d) n ty l.
Proof.
  intros Hc. unfold dispatch.
  destruct (run_phase (nodes d) ty Capturing _) as [cap st] eqn:Hcap.
  assert (Hcl : (n, l) ∈ cap -> capture_listener (nodes d) n ty l).
  { intros H. eapply run_phase_capture. by rewrite Hcap. }
  destruct st; [auto|]. rewrite run_phase_cons, Hc. simpl.
  rewrite elem_of_app. intros [H| ->%elem_of_pair_fmap]; auto.
Qed.

Lemma ordered_fresh d : ordered d -> fresh d.
Proof. intros Ho n x Hx. apply (Ho n x Hx). Qed.

(** A run that keeps the parents of the old nodes, leaves the ids above
    its new ones alone, and gives each new node an earlier parent keeps
    the store ordered. *)
Lemma ordered_extend d ns' m :
  ordered d ->
  (forall k, k < next d -> field_of parentNode ns' k = field_of parentNode (nodes d) k) ->
  (forall k, next d + m <= k -> ns' !! k = nodes d !! k) ->
  (forall k x, next d <= k < next d + m -> ns' !! k = Some x -> parent_before x k) ->
  ordered (mkDoc ns' (next d + m)).
Proof.
  intros Ho Hold Hhi Hnew k x Hx. cbn [nodes next] in *.
  destruct (decide (k < next d)) as [Hk|Hk].
  - split; [lia|]. specialize (Hold k Hk). unfold field_of in Hold. rewrite Hx in Hold.
    destruct (nodes d !! k) as [y|] eqn:Hy; simplify_eq/=. intros p Hp. apply (Ho k y Hy). congruence.
  - destruct (decide (k < next d + m)); [split; [lia|]; apply (Hnew k x); [lia|done]|].
    rewrite Hhi in Hx by lia. pose proof (proj1 (Ho k x Hx)). lia.
Qed.

(** In an ordered store the path from [k] with more fuel than [k] ends
    at a root: a node without parent, or a dangling parent link. *)
Lemma path_root ns f k :
  (forall n x, ns !! n = Some x -> parent_before x n) -> k < f ->
  exists ks r, path f ns k = ks ++ [r] /\ ns !! r ≫= parentNode = None.
Proof.
  intros Ho. revert k. induction f as [|f IH]; intros k Hk; [lia|]. simpl.
  destruct (ns !! k) as [x|] eqn:Hx; simpl; [|by exists [], k; rewrite Hx].
  destruct (parentNode x) as [p|] eqn:Hp; [|by exists [], k; rewrite Hx].
  destruct (IH p) as (ks & r & -> & Hr); [pose proof (Ho k x Hx p Hp); lia|].
  by exists (k :: ks), r.
Qed.

End Dom.
