(* ===== verification/Widget.v ===== *)
(** * The chat widget [hostOrJoin] builds into the page

    popup.js:119-206, 257 and 296-297 build the widget next to the page's
    [<video>]: they restyle the video's parent and the video, create the
    chat container with its header (the party counter and the "copy host
    id" button), the message list and the input, wire the listeners and
    attach everything under [videoElem.parentNode].  [build] is that
    sequence of DOM calls, statement by statement, in [Dom]'s monad;
    [Widget] names the nodes the code keeps in its [const]s.  The chat
    lines [addMessage], [systemMessage] and [errorMessage] (popup.js:
    259-284) append a paragraph to the message list: [render], and
    [render_effects] applies the [ERender] effects a handler produced.

    The theorems: [build] leaves the counter showing what [State]'s
    initial state says; a click or key event inside the widget never
    reaches a bubble-phase listener of the page (the container stops
    it); a [keypress] reaches the page unless one of the page's own
    capture listeners stops it; a key released in the input
    runs the chat's [keyup] listener, the one [Peer.handle] models; the
    rendered lines land in the message list in order; [build] and
    [render] keep the page [ordered].  [widget_stops_on] and
    [line_stops_on] prove the stopping on any document where the widget
    is [wired] and the line is linked ([para_links]), the form [Page]
    uses after any run. *)

From S2P Require Import Prelude.
From S2P Require Import JsObject.
From S2P Require Import JsNum.
From S2P Require Import Message.
From S2P Require Import State.
From S2P Require Import Dom.

Module Widget.
Import State Dom.

(** The nodes [hostOrJoin] keeps. *)
Record Widget := mkWidget {
  chatContainer : NodeId;
  headerDiv : NodeId;
  partyCounter : NodeId;
  partyCounterAbbr : NodeId;
  getHostIdButton : NodeId;
  messageContainer : NodeId;
  messageInput : NodeId;
}.

Definition widget_nodes (w : Widget) : list NodeId :=
  [chatContainer w; headerDiv w; partyCounter w; partyCounterAbbr w;
   getHostIdButton w; messageContainer w; messageInput w].

(** popup.js:119-206, 257, 296-297, given [videoElem =
    document.querySelector('video')].  A video without a parent makes
    [videoParent.style] throw: [None]. *)
Definition build (videoElem : NodeId) : DM (option Widget) :=
  v ← get_node videoElem;
  match v ≫= parentNode with
  | None => mret None
  | Some videoParent =>
  set_style videoParent "position" "relative";;
  set_style videoElem "width" "80%";;
  chatContainer ← createElement "div";
  set_style chatContainer "background-color" "black";;
  set_style chatContainer "position" "absolute";;
  set_style chatContainer "height" "calc(100% - 150px)";;
  set_style chatContainer "width" "20%";;
  set_style chatContainer "left" "80%";;
  set_style chatContainer "top" "0px";;
  set_style chatContainer "padding" "10px";;
  set_style chatContainer "z-index" "3";;
  set_style chatContainer "display" "flex";;
  set_style chatContainer "flex-direction" "column";;
  appendChild videoParent chatContainer;;
  set_handler chatContainer "click" LStop;;
  set_handler chatContainer "keydown" LStop;;
  set_handler chatContainer "keyup" LStop;;
  headerDiv ← createElement "div";
  set_style headerDiv "display" "flex";;
  set_style headerDiv "flex-direction" "row";;
  appendChild chatContainer headerDiv;;
  partyCounter ← createElement "div";
  set_style partyCounter "background-color" "#DCDCDC";;
  set_style partyCounter "border-radius" "50%";;
  set_style partyCounter "width" "25px";;
  set_style partyCounter "height" "25px";;
  set_style partyCounter "text-align" "center";;
  partyCounterAbbr ← createElement "abbr";
  set_textContent partyCounterAbbr "1";;
  set_title partyCounterAbbr "You";;
  set_style partyCounterAbbr "text-decoration" "none";;
  appendChild partyCounter partyCounterAbbr;;
  appendChild headerDiv partyCounter;;
  getHostIdButton ← createElement "button";
  set_textContent getHostIdButton "copy host id";;
  set_style getHostIdButton "width" "50px";;
  addEventListener getHostIdButton "click" LCopyHostId;;
  appendChild headerDiv getHostIdButton;;
  messageContainer ← createElement "div";
  set_style messageContainer "flex-grow" "1";;
  set_style messageContainer "overflow" "auto";;
  appendChild chatContainer messageContainer;;
  messageInput ← createElement "input";
  set_type messageInput "text";;
  set_style messageInput "width" "100%";;
  addEventListener messageInput "keyup" LKeyUp;;
  appendChild chatContainer messageInput;;
  addEventListener videoElem "play" LPlay;;
  addEventListener videoElem "pause" LPause;;
  mret (Some (mkWidget chatContainer headerDiv partyCounter partyCounterAbbr
                getHostIdButton messageContainer messageInput))
  end.

(** The paragraph colour of each kind of line. *)
Definition line_color (l : Line) : string :=
  match l with ChatLine => "white" | SystemLine => "gray" | ErrorLine => "red" end.

(** [addMessage], [systemMessage], [errorMessage] (popup.js:259-284); the
    scrolling that follows only moves the view. *)
Definition render (messageContainer : NodeId) (l : Line) (msg : string) : DM unit :=
  wrapper ← createElement "p";
  set_style wrapper "color" (line_color l);;
  messageElem ← createTextNode msg;
  appendChild wrapper messageElem;;
  appendChild messageContainer wrapper.

Fixpoint render_effects (messageContainer : NodeId) (es : list Effect) : DM unit :=
  match es with
  | [] => mret tt
  | ERender l msg :: es' => render messageContainer l msg;; render_effects messageContainer es'
  | _ :: es' => render_effects messageContainer es'
  end.

(** What a message-list child shows: a [<p>] whose only child is a
    text node, read as its colour and its text. *)
Definition para (ns : gmap NodeId Node) (p : NodeId) : option (string * string) :=
  x ← ns !! p;
  match childNodes x with
  | [c] =>
      t ← ns !! c;
      if String.eqb (tagName x) "p" && String.eqb (tagName t) "#text"
      then color ← JsObject.get "color" (style x); Some (color, textContent t)
      else None
  | _ => None
  end.

(** The widget [build] makes from the id [n] on. *)
Definition widget_at (n : NodeId) : Widget :=
  mkWidget n (1 + n) (2 + n) (3 + n) (4 + n) (5 + n) (6 + n).

(** The parents and listeners [build] gives the widget's nodes. *)
Definition wired (ns : gmap NodeId Node) (n vp : NodeId) : Prop :=
  links ns n (Some vp) [mkReg "click" false true LStop; mkReg "keydown" false true LStop;
                        mkReg "keyup" false true LStop] /\
  links ns (1 + n) (Some n) [] /\ links ns (2 + n) (Some (1 + n)) [] /\
  links ns (3 + n) (Some (2 + n)) [] /\ links ns (4 + n) (Some (1 + n)) [mkReg "click" false false LCopyHostId] /\
  links ns (5 + n) (Some n) [] /\ links ns (6 + n) (Some n) [mkReg "keyup" false false LKeyUp].

(** The nodes [para] reads for the paragraph [p]: [p] and its children. *)
Definition in_para (ns : gmap NodeId Node) (p k : NodeId) : Prop :=
  k = p \/ exists x, ns !! p = Some x /\ k ∈ childNodes x.

(** A line of the message list [mc] as [render] links it: the paragraph
    hangs from [mc], its children from it, none with a listener. *)
Definition para_links (ns : gmap NodeId Node) (mc q : NodeId) : Prop :=
  links ns q (Some mc) [] /\ forall k, in_para ns q k -> k <> q -> links ns k (Some q) [].

(** The lines a list of effects renders, in order. *)
Fixpoint rendered (es : list Effect) : list (string * string) :=
  match es with
  | [] => []
  | ERender l msg :: es' => (line_color l, msg) :: rendered es'
  | _ :: es' => rendered es'
  end.

(** A page to run the widget on: a [<video>] (2) inside a [<div>] (1),
    the player, which listens to [keypress] in the bubble phase, inside
    the [<body>] (0). *)
Definition demo_video : Node := mkNode "video" [] "" "" "" (Some 1) [] [].
Definition demo_page : Doc :=
  mkDoc (list_to_map [(0, mkNode "body" [] "" "" "" None [1] []);
                      (1, mkNode "div" [] "" "" "" (Some 0) [2] [mkReg "keypress" false false (LPage 0 false)]);
                      (2, demo_video)]) 3.

(** ** Lemmas *)

(** [build] on a page whose video has a parent: the widget gets the next
    seven ids, its nodes are linked and listened to as the code says, and
    no node of the page changes parent. *)
Lemma build_shape d0 ve v vp :
  fresh d0 -> nodes d0 !! ve = Some v -> parentNode v = Some vp -> vp < next d0 ->
  let n := next d0 in
  exists ns1, build ve d0 = (mkDoc ns1 (7 + n), Some (mkWidget n (1 + n) (2 + n) (3 + n) (4 + n) (5 + n) (6 + n))) /\
    (forall k, k < n -> field_of parentNode ns1 k = field_of parentNode (nodes d0) k) /\
    (forall k, k < n -> k <> ve -> field_of listeners ns1 k = field_of listeners (nodes d0) k) /\
    (forall k, 7 + n <= k -> ns1 !! k = nodes d0 !! k) /\
    links ns1 n (Some vp) [mkReg "click" false true LStop; mkReg "keydown" false true LStop;
                           mkReg "keyup" false true LStop] /\
    links ns1 (1 + n) (Some n) [] /\
    links ns1 (2 + n) (Some (1 + n)) [] /\
    links ns1 (3 + n) (Some (2 + n)) [] /\
    links ns1 (4 + n) (Some (1 + n)) [mkReg "click" false false LCopyHostId] /\
    links ns1 (5 + n) (Some n) [] /\
    links ns1 (6 + n) (Some n) [mkReg "keyup" false false LKeyUp] /\
    field_of textContent ns1 (3 + n) = Some "1" /\ field_of title ns1 (3 + n) = Some "You" /\
    field_of childNodes ns1 (5 + n) = Some [].
Proof.
  destruct d0 as [ns nx]. simpl. intros Hf Hve Hp Hvp.
  assert (ve < nx) by (apply (Hf ve v Hve)).
  eexists. split.
  { unfold build. dm_run. rewrite Hve. cbv [option_bind]. rewrite Hp. cbv beta iota zeta.
    repeat (progress chase; red_nodes). reflexivity. }
  split; [|split; [|split]].
  - intros k Hk. chase_field. done.
  - intros k Hk Hk'. chase_field. done.
  - intros k Hk. chase. done.
  - unfold links, field_of. repeat split; chase; red_nodes; reflexivity.
Qed.

(** One rendered line: a paragraph and its text node get the next two
    ids, the paragraph is appended to the list, and nothing else of the
    page changes. *)
Lemma render_run d mc l msg x :
  fresh d -> nodes d !! mc = Some x ->
  let n := next d in
  exists ns', render mc l msg d = (mkDoc ns' (2 + n), tt) /\
    (forall k, k < n -> k <> mc -> ns' !! k = nodes d !! k) /\
    ns' !! mc = Some (with_children (childNodes x ++ [n]) x) /\
    para ns' n = Some (line_color l, msg) /\ field_of childNodes ns' n = Some [1 + n] /\
    fresh (mkDoc ns' (2 + n)) /\
    (forall k, k < n -> field_of parentNode ns' k = field_of parentNode (nodes d) k) /\
    field_of parentNode ns' n = Some (Some mc) /\ field_of parentNode ns' (1 + n) = Some (Some n) /\
    (forall k, 2 + n <= k -> ns' !! k = nodes d !! k) /\
    field_of listeners ns' n = Some [] /\ field_of listeners ns' (1 + n) = Some [].
Proof.
  destruct d as [ns nx]. simpl. intros Hf Hx.
  assert (mc < nx) by (apply (Hf mc x Hx)).
  eexists. split.
  { unfold render. dm_run. repeat (progress chase; red_nodes). reflexivity. }
  split; [|split; [|split; [|split; [|split]]]].
  - intros k Hk Hk'. chase. done.
  - chase. rewrite Hx. reflexivity.
  - unfold para. chase. simpl. chase. reflexivity.
  - unfold field_of. chase. reflexivity.
  - intros k y Hy. cbn [nodes next] in *. destruct (decide (k = nx)) as [->|]; [lia|].
    destruct (decide (k = S nx)) as [->|]; [lia|].
    destruct (decide (k = mc)) as [->|]; [pose proof (Hf mc x Hx); simpl in *; lia|].
    revert Hy. chase. intros Hy. pose proof (Hf k y Hy). simpl in *. lia.
  - split; [intros k Hk; chase_field; done|].
    split; [unfold field_of; chase; reflexivity|]. split; [unfold field_of; chase; reflexivity|].
    split; [intros k Hk; chase; done|].
    split; unfold field_of; chase; reflexivity.
Qed.

(** A node whose parent link is known to precede it. *)
Lemma parent_before_field ns k p x :
  field_of parentNode ns k = Some (Some p) -> ns !! k = Some x -> p < k -> parent_before x k.
Proof. unfold field_of. intros Hp Hx Hlt q Hq. rewrite Hx in Hp. simplify_eq/=. congruence. Qed.

Lemma field_is_Some {B} (g : Node -> B) ns k b : field_of g ns k = Some b -> is_Some (ns !! k).
Proof. unfold field_of. destruct (ns !! k); simpl; [eauto|done]. Qed.

(** [render] keeps the page ordered. *)
Lemma render_ordered d mc l msg x :
  ordered d -> nodes d !! mc = Some x ->
  ordered (render mc l msg d).1 /\ exists x', nodes (render mc l msg d).1 !! mc = Some x'.
Proof.
  intros Ho Hx. pose proof (proj1 (Ho mc x Hx)) as Hmc.
  destruct (render_run d mc l msg x (ordered_fresh d Ho) Hx) as (ns' & -> & _ & Hm & _ & _ & _ & Hold & Hp0 & Hp1 & Hhi & _).
  cbn [fst]. split; [|eauto]. rewrite (Nat.add_comm 2). apply ordered_extend; [done|done|intros k Hk; apply Hhi; lia|].
  intros k y Hk Hy. assert (k = next d \/ k = 1 + next d) as [->| ->] by lia;
    (eapply parent_before_field; [eassumption|done|lia]).
Qed.

(** [build] keeps the page ordered, and the message list is a node of it. *)
Lemma build_ordered d0 ve v vp :
  ordered d0 -> nodes d0 !! ve = Some v -> parentNode v = Some vp ->
  exists d1 w, build ve d0 = (d1, Some w) /\ ordered d1 /\ is_Some (nodes d1 !! messageContainer w).
Proof.
  intros Ho Hve Hp. destruct (Ho ve v Hve) as [Hlt Hb].
  destruct (build_shape d0 ve v vp (ordered_fresh d0 Ho) Hve Hp ltac:(specialize (Hb vp Hp); lia))
    as (ns1 & -> & Hold & _ & Hhi & H0 & H1 & H2 & H3 & H4 & H5 & H6 & _).
  eexists _, _. split; [done|]. split; [|by eapply field_is_Some, (proj1 H5)].
  rewrite (Nat.add_comm 7). apply ordered_extend; [done|done|intros k Hk; apply Hhi; lia|]. intros k y Hk Hy.
  assert (k = next d0 \/ k = 1 + next d0 \/ k = 2 + next d0 \/ k = 3 + next d0 \/
          k = 4 + next d0 \/ k = 5 + next d0 \/ k = 6 + next d0) as [->|[->|[->|[->|[->|[->| ->]]]]]] by lia;
    (eapply parent_before_field; [eapply proj1; eassumption|done|]);
    [specialize (Hb vp Hp); lia|lia..].
Qed.

(** Rendered lines keep the page ordered. *)
Lemma render_effects_ordered mc es d :
  ordered d -> is_Some (nodes d !! mc) -> ordered (render_effects mc es d).1.
Proof.
  revert d. induction es as [|e es IH]; intros d Ho [x Hx]; [done|].
  destruct e as [c m|c i|l msg|snd|t|]; cbn [render_effects]; try by apply IH; eauto.
  destruct (render_ordered d mc l msg x Ho Hx) as [Ho' Hx'].
  cbv [mbind DM_bind]. destruct (render mc l msg d) as [d' []]. by apply IH.
Qed.

(** A paragraph reads two nodes: it shows the same on a store that
    agrees on them. *)
Lemma para_frame ns ns' p :
  (forall k, k = p \/ (exists x, ns !! p = Some x /\ k ∈ childNodes x) -> ns' !! k = ns !! k) ->
  para ns' p = para ns p.
Proof.
  intros Hk. unfold para. rewrite Hk by auto. destruct (ns !! p) as [x|] eqn:Hp; simpl; [|done].
  destruct (childNodes x) as [|c [|]] eqn:Hc; try done.
  rewrite Hk; [done|]. right. exists x. rewrite Hc. split; [done|]. by apply list_elem_of_singleton.
Qed.

(** Rendered lines, with the ids they use: every node their paragraphs
    read was created by the run, between its [next] before and after. *)
Lemma render_effects_run mc es d x :
  fresh d -> nodes d !! mc = Some x ->
  exists d' new, render_effects mc es d = (d', tt) /\ fresh d' /\ next d <= next d' /\
    (forall k, k < next d -> k <> mc -> nodes d' !! k = nodes d !! k) /\
    field_of childNodes (nodes d') mc = Some (childNodes x ++ new) /\
    mapM (para (nodes d')) new = Some (rendered es) /\
    Forall (fun p => forall k, in_para (nodes d') p k -> next d <= k < next d') new /\
    nodes d' !! mc = Some (with_children (childNodes x ++ new) x) /\
    Forall (para_links (nodes d') mc) new.
Proof.
  revert d x. induction es as [|e es IH]; intros d x Hf Hx.
  { exists d, []. do 3 (split; [done || lia|]). split; [done|].
    split; [unfold field_of; rewrite Hx; simpl; by rewrite app_nil_r|].
    do 2 (split; [done|]). split; [rewrite app_nil_r, Hx; by destruct x|done]. }
  destruct e as [c m|c i|l msg|snd|t|]; cbn [render_effects rendered]; try by apply IH.
  destruct (render_run d mc l msg x Hf Hx)
    as (ns' & Hr & Hfr & Hmc & Hp & Hpc & Hf' & _ & Hp0 & Hp1 & _ & Hl0 & Hl1).
  assert (mc < next d) by (apply (Hf mc x Hx)).
  destruct (IH _ _ Hf' Hmc) as (d' & new & Hrun & Hfd & Hle & Hfr' & Hch & Hl & Hin & Hm' & Hpl).
  cbn [next nodes] in *.
  assert (Hn : nodes d' !! next d = ns' !! next d) by (apply Hfr'; lia).
  exists d', (next d :: new). split; [cbv [mbind DM_bind]; by rewrite Hr|].
  do 2 (split; [done || lia|]). split; [|split; [|split]].
  - intros k Hk Hk'. rewrite Hfr', Hfr by lia. done.
  - rewrite Hch. simpl. by rewrite <- app_assoc.
  - simpl. rewrite (para_frame ns'), Hp, Hl; [done|].
    intros k [->|(y & Hy & Hk)]; apply Hfr'; try lia.
    all: unfold field_of in Hpc; rewrite Hy in Hpc; injection Hpc as Hpc.
    all: rewrite Hpc, list_elem_of_singleton in Hk; lia.
  - assert (Hc : forall k, in_para (nodes d') (next d) k -> k = next d \/ k = 1 + next d).
    { intros k [->|(y & Hy & Hk)]; [by left|right]. rewrite Hn in Hy.
      unfold field_of in Hpc; rewrite Hy in Hpc; injection Hpc as Hpc.
      by rewrite Hpc, list_elem_of_singleton in Hk. }
    split; [constructor; [intros k [-> | ->]%Hc; lia|]|split].
    + eapply Forall_impl; [exact Hin|]. intros p Hp' k Hk. specialize (Hp' k Hk). lia.
    + rewrite Hm'. destruct x. cbn. by rewrite <- app_assoc.
    + constructor; [|done]. split; [by apply (links_eq ns'); [|split]|].
      intros k [-> | ->]%Hc Hk; [done|]. apply (links_eq ns'); [apply Hfr'; lia|by split].
Qed.

(** The container's listeners stop a click or a key event, at the
    container and on the way up from inside it. *)
Lemma container_stops ns n vp ty :
  links ns n (Some vp) [mkReg "click" false true LStop; mkReg "keydown" false true LStop;
                       mkReg "keyup" false true LStop] ->
  ty ∈ ["click"; "keydown"; "keyup"] ->
  existsb stops (invoked ns ty AtTarget n) = true /\ existsb stops (invoked ns ty Bubbling n) = true.
Proof.
  intros Hl Hty. rewrite !(invoked_links _ _ _ _ _ _ Hl).
  rewrite !elem_of_cons, elem_of_nil in Hty. by destruct Hty as [->|[->|[->|[]]]].
Qed.

(** [walk]: follow the parent links of the [links] hypotheses up a path. *)
Ltac walk :=
  repeat (rewrite path_S || match goal with H : links _ _ _ _ |- _ => rewrite (proj1 H); cbv beta iota end).

(** [stopped_via t ws]: the event at [t] goes up through [ws] to the
    container, which stops it; a listener it runs is on the way or a
    capture listener. *)
Ltac stopped_via t ws :=
  match goal with
  | Hin : (?m, ?l) ∈ dispatch ?d _ ?ty, HsB : existsb stops (invoked _ _ Bubbling ?c) = true |- _ =>
      let rest := fresh "rest" in let Hpath := fresh "Hpath" in let Hm := fresh "Hm" in
      assert (exists rest, path (next d) (nodes d) t = t :: ws ++ c :: rest) as [rest Hpath]
        by (eexists; cbn [next nodes Nat.add] in *; walk; reflexivity);
      destruct (dispatch_stopped d t ty ws c rest m l Hpath HsB Hin) as [Hm|Hm]; [|by right];
      left; cbn [app] in Hm; rewrite ?elem_of_cons, ?elem_of_nil in Hm; lia
  end.

(** On any document where the widget is wired, with ids to spare, a
    click, keydown or keyup aimed at one of its nodes runs no bubble
    listener outside it. *)
Lemma widget_stops_on d n vp :
  wired (nodes d) n vp -> 7 + n <= next d ->
  forall t ty m l, t ∈ widget_nodes (widget_at n) -> ty ∈ ["click"; "keydown"; "keyup"] ->
    (m, l) ∈ dispatch d t ty -> n <= m \/ capture_listener (nodes d) m ty l.
Proof.
  destruct d as [ns nx]. cbn [nodes next]. intros (Hc & H1 & H2 & H3 & H4 & H5 & H6) Hn.
  replace nx with (7 + n + (nx - 7 - n)) by lia. generalize (nx - 7 - n). intros f.
  intros t ty m l Ht Hty Hin.
  destruct (container_stops _ _ _ _ Hc Hty) as [HsT HsB].
  unfold widget_nodes, widget_at in Ht.
  cbn [chatContainer headerDiv partyCounter partyCounterAbbr getHostIdButton messageContainer messageInput] in Ht.
  rewrite !elem_of_cons, elem_of_nil in Ht.
  destruct Ht as [->|[->|[->|[->|[->|[->|[->|[]]]]]]]];
    [destruct (dispatch_stopped_at (mkDoc ns (7 + n + f)) _ _ _ _ HsT Hin) as [->|]; [left; lia|by right]
    |stopped_via (1 + n) (@nil NodeId)
    |stopped_via (2 + n) [1 + n]
    |stopped_via (3 + n) [2 + n; 1 + n]
    |stopped_via (4 + n) [1 + n]
    |stopped_via (5 + n) (@nil NodeId)
    |stopped_via (6 + n) (@nil NodeId)].
Qed.

(** The same for an event aimed at a rendered line: the paragraph or its
    text node. *)
Lemma line_stops_on d n vp q t :
  wired (nodes d) n vp -> 7 + n <= next d -> para_links (nodes d) (5 + n) q ->
  (forall k, in_para (nodes d) q k -> n <= k) -> in_para (nodes d) q t ->
  forall ty m l, ty ∈ ["click"; "keydown"; "keyup"] ->
    (m, l) ∈ dispatch d t ty -> n <= m \/ capture_listener (nodes d) m ty l.
Proof.
  destruct d as [ns nx]. cbn [nodes next]. intros (Hc & H1 & H2 & H3 & H4 & H5 & H6) Hn [Hq Hk] Hge Ht.
  replace nx with (7 + n + (nx - 7 - n)) by lia. generalize (nx - 7 - n). intros f.
  intros ty m l Hty Hin.
  destruct (container_stops _ _ _ _ Hc Hty) as [HsT HsB].
  pose proof (Hge q (or_introl eq_refl)). pose proof (Hge t Ht).
  destruct (decide (t = q)) as [->|Htq].
  - stopped_via q [5 + n].
  - pose proof (Hk t Ht Htq). stopped_via t [q; 5 + n].
Qed.

(** No node of a wired widget listens to [keypress]. *)
Lemma wired_no_keypress ns n vp k x r :
  wired ns n vp -> n <= k < 7 + n -> ns !! k = Some x -> r ∈ listeners x -> r_type r <> "keypress".
Proof.
  intros Hw Hk Hx Hr. destruct Hw as (H0 & H1 & H2 & H3 & H4 & H5 & H6).
  assert (k = n \/ k = 1 + n \/ k = 2 + n \/ k = 3 + n \/ k = 4 + n \/ k = 5 + n \/ k = 6 + n)
    as [->|[->|[->|[->|[->|[->| ->]]]]]] by lia;
    match goal with Hk : ns !! ?j = Some _, H : links ns ?j _ _ |- _ => destruct H as [_ Hl] end;
    unfold field_of in Hl; rewrite Hx in Hl; injection Hl as Hl; rewrite Hl in Hr;
    repeat rewrite elem_of_cons in Hr; rewrite ?elem_of_nil in Hr;
    repeat destruct Hr as [->|Hr]; done.
Qed.

(** ** Theorems *)

(** C15: A click, keydown or keyup whose target is a node of the widget
    never runs a bubble-phase listener of the page: the listeners it runs
    outside the widget's fresh nodes are capture listeners; the
    container's [stopPropagation] handlers stop it. *)
Theorem widget_stops_input_events d0 ve v vp :
  fresh d0 -> nodes d0 !! ve = Some v -> parentNode v = Some vp -> vp < next d0 ->
  exists d1 w, build ve d0 = (d1, Some w) /\
    forall t ty n l, t ∈ widget_nodes w -> ty ∈ ["click"; "keydown"; "keyup"] ->
      (n, l) ∈ dispatch d1 t ty -> next d0 <= n \/ capture_listener (nodes d1) n ty l.
Proof.
  intros Hf Hve Hp Hvp.
  destruct (build_shape d0 ve v vp Hf Hve Hp Hvp) as (ns1 & Hb & _ & _ & _ & Hc & H1 & H2 & H3 & H4 & H5 & H6 & _).
  eexists _, _. split; [exact Hb|].
  apply (widget_stops_on (mkDoc ns1 (7 + next d0)) (next d0) vp); [by split_and!|cbn; lia].
Qed.

(** C22: A key released in the chat input runs the chat's [keyup]
    listener (the one [Peer.handle] dispatches as [KeyUp]) and then the
    container's [stopPropagation]; a click on the "copy host id" button
    runs its [alert(peer.id)] listener ([CopyHostId]) and then the
    container's.  Before them only the page's capture listeners run, and
    the widget's listeners are skipped only when one of those stops the
    event. *)
Theorem widget_listeners d0 ve v vp :
  fresh d0 -> nodes d0 !! ve = Some v -> parentNode v = Some vp -> vp < next d0 ->
  exists d1 w, build ve d0 = (d1, Some w) /\
    forall ty t l, (ty, t, l) ∈ [("keyup", messageInput w, LKeyUp); ("click", getHostIdButton w, LCopyHostId)] ->
      exists pre, Forall (fun nl => capture_listener (nodes d1) nl.1 ty nl.2) pre /\
        (dispatch d1 t ty = pre ++ [(t, l); (chatContainer w, LStop)] \/
         (dispatch d1 t ty = pre /\ Exists (fun nl => stops nl.2 = true) pre)).
Proof.
  intros Hf Hve Hp Hvp.
  destruct (build_shape d0 ve v vp Hf Hve Hp Hvp) as (ns1 & Hb & _ & _ & _ & Hc & H1 & H2 & H3 & H4 & H5 & H6 & _).
  eexists _, _. split; [exact Hb|]. intros ty t l Hin. cbn [getHostIdButton messageInput chatContainer] in *.
  rewrite !elem_of_cons, elem_of_nil in Hin.
  destruct Hin as [[= -> -> ->]|[[= -> -> ->]|[]]];
    [eapply (dispatch_to_stop (mkDoc ns1 (7 + next d0)) _ _ [] _ _ [LKeyUp])
    |eapply (dispatch_to_stop (mkDoc ns1 (7 + next d0)) _ _ [1 + next d0] _ _ [LCopyHostId])];
    cbn [next nodes Nat.add] in *; try (walk; reflexivity);
    repeat match goal with |- Forall _ (_ :: _) => constructor | |- Forall _ [] => constructor end;
    try (erewrite invoked_links by eassumption); reflexivity.
Qed.

(** C23: A [keypress] typed in the chat input is not stopped by the
    widget: the container only stops [click], [keydown] and [keyup], so
    the event reaches every bubble [keypress] listener of the video's
    parent, unless a capture listener of the page itself (a node older
    than the widget) stops it first. *)
Theorem keypress_reaches_page d0 ve v vp r :
  fresh d0 -> nodes d0 !! ve = Some v -> parentNode v = Some vp -> vp < next d0 -> vp <> ve ->
  (exists x, nodes d0 !! vp = Some x /\ r ∈ listeners x) -> r_type r = "keypress" -> r_capture r = false ->
  exists d1 w, build ve d0 = (d1, Some w) /\
    ((vp, r_fn r) ∈ dispatch d1 (messageInput w) "keypress" \/
     Exists (fun nl => stops nl.2 = true /\ nl.1 < next d0 /\ capture_listener (nodes d1) nl.1 "keypress" nl.2)
       (dispatch d1 (messageInput w) "keypress")).
Proof.
  intros Hf Hve Hp Hvp Hne (x & Hx & Hr) Hty Hcap.
  destruct (build_shape d0 ve v vp Hf Hve Hp Hvp) as (ns1 & Hb & _ & Hl & Hhi & Hc & H1 & H2 & H3 & H4 & H5 & H6 & _).
  eexists _, _. split; [exact Hb|]. cbn [messageInput].
  destruct (dispatch_split (mkDoc ns1 (7 + next d0)) (6 + next d0) "keypress") as (pre & Hpre & [[-> Hs]|H]).
  { right. apply Exists_exists in Hs as (nl & Hin & Hst). rewrite Forall_forall in Hpre.
    apply Exists_exists. exists nl. split_and!; [done|done| |by apply Hpre].
    destruct (Hpre nl Hin) as (y & r' & Hy & Hr' & Hty' & _). cbn [nodes] in Hy.
    destruct (decide (nl.1 < next d0)) as [|Hge]; [done|]. exfalso.
    destruct (decide (nl.1 < 7 + next d0)).
    - apply (wired_no_keypress ns1 (next d0) vp nl.1 y r'); [by split_and!|lia|done..].
    - rewrite Hhi in Hy by lia. pose proof (Hf _ _ Hy) as Hlt. cbv beta in Hlt. lia. }
  left. cbn [next nodes Nat.add] in *.
  assert (Htg : run_phase ns1 "keypress" AtTarget [6 + next d0] = ([], false))
    by (rewrite run_phase_cons, (invoked_links _ _ _ _ _ _ H6); reflexivity).
  assert (Hcc : invoked ns1 "keypress" Bubbling (next d0) = [])
    by (by rewrite (invoked_links _ _ _ _ _ _ Hc)).
  cbn [Nat.add] in Htg. rewrite path_S, (proj1 H6) in H. cbv beta iota in H. cbn [tail] in H.
  rewrite Htg in H. cbv beta iota zeta in H. rewrite H. clear H.
  replace (bubbles "keypress") with true by reflexivity. simpl orb. cbv iota.
  rewrite path_S, (proj1 Hc). cbv beta iota. rewrite (run_phase_skip1 _ _ _ _ _ Hcc), path_S.
  apply elem_of_app. right. apply run_phase_head.
  eapply invoked_bubble; [|done..]. rewrite Hl by done. unfold field_of. by rewrite Hx.
Qed.

Lemma demo_page_fresh : fresh demo_page.
Proof. apply (bool_decide_unpack _). vm_compute. reflexivity. Qed.

Lemma widget_stops_input_events_witness :
  exists d1 w, build 2 demo_page = (d1, Some w) /\
    forall t ty n l, t ∈ widget_nodes w -> ty ∈ ["click"; "keydown"; "keyup"] ->
      (n, l) ∈ dispatch d1 t ty -> next demo_page <= n \/ capture_listener (nodes d1) n ty l.
Proof.
  apply (widget_stops_input_events demo_page 2 demo_video 1);
    [apply demo_page_fresh|reflexivity|reflexivity|vm_compute; lia].
Defined.

Lemma widget_listeners_witness :
  exists d1 w, build 2 demo_page = (d1, Some w) /\
    forall ty t l, (ty, t, l) ∈ [("keyup", messageInput w, LKeyUp); ("click", getHostIdButton w, LCopyHostId)] ->
      exists pre, Forall (fun nl => capture_listener (nodes d1) nl.1 ty nl.2) pre /\
        (dispatch d1 t ty = pre ++ [(t, l); (chatContainer w, LStop)] \/
         (dispatch d1 t ty = pre /\ Exists (fun nl => stops nl.2 = true) pre)).
Proof.
  apply (widget_listeners demo_page 2 demo_video 1);
    [apply demo_page_fresh|reflexivity|reflexivity|vm_compute; lia].
Defined.

Lemma keypress_reaches_page_witness :
  exists d1 w, build 2 demo_page = (d1, Some w) /\
    ((1, LPage 0 false) ∈ dispatch d1 (messageInput w) "keypress" \/
     Exists (fun nl => stops nl.2 = true /\ nl.1 < next demo_page /\ capture_listener (nodes d1) nl.1 "keypress" nl.2)
       (dispatch d1 (messageInput w) "keypress")).
Proof.
  apply (keypress_reaches_page demo_page 2 demo_video 1 (mkReg "keypress" false false (LPage 0 false)));
    [apply demo_page_fresh|reflexivity|reflexivity|vm_compute; lia|lia| |reflexivity|reflexivity].
  eexists. split; [reflexivity|]. by apply list_elem_of_singleton.
Defined.

(** The [ERender] effects of a handler, applied to the page, append
    one paragraph per line to the message list, in order; each shows the
    colour of its kind and holds the text in a text node, so a chat line
    is never parsed as markup; no other node of the page changes. *)
Theorem render_effects_lines mc es d x :
  fresh d -> nodes d !! mc = Some x ->
  exists d' new, render_effects mc es d = (d', tt) /\
    (forall k, k < next d -> k <> mc -> nodes d' !! k = nodes d !! k) /\
    field_of childNodes (nodes d') mc = Some (childNodes x ++ new) /\
    mapM (para (nodes d')) new = Some (rendered es).
Proof.
  intros Hf Hx. destruct (render_effects_run mc es d x Hf Hx) as (d' & new & ? & _ & _ & ? & ? & ? & _).
  by exists d', new.
Qed.

Lemma render_effects_lines_witness :
  exists x, nodes (build 2 demo_page).1 !! 8 = Some x /\
    exists d' new, render_effects 8 [ERender SystemLine "Bob joined"; ESound JoinAlert; ERender ChatLine "Bob: hi"]
                     (build 2 demo_page).1 = (d', tt) /\
      (forall k, k < next (build 2 demo_page).1 -> k <> 8 -> nodes d' !! k = nodes (build 2 demo_page).1 !! k) /\
      field_of childNodes (nodes d') 8 = Some (childNodes x ++ new) /\
      mapM (para (nodes d')) new = Some [("gray", "Bob joined"); ("white", "Bob: hi")].
Proof.
  eexists. split; [vm_compute; reflexivity|].
  apply (render_effects_lines 8 [ERender SystemLine "Bob joined"; ESound JoinAlert; ERender ChatLine "Bob: hi"]);
    [apply (bool_decide_unpack _); vm_compute; reflexivity|vm_compute; reflexivity].
Defined.

Lemma demo_page_ordered : ordered demo_page.
Proof. apply (bool_decide_unpack _). vm_compute. reflexivity. Qed.

(** C17: The page stays a tree: on a page where every node's parent was
    created before it, [build] and then any sequence of rendered lines
    keep it so, whatever lines the handlers render. *)
Theorem widget_page_ordered d0 ve v vp :
  ordered d0 -> nodes d0 !! ve = Some v -> parentNode v = Some vp ->
  exists d1 w, build ve d0 = (d1, Some w) /\ ordered d1 /\
    forall es, ordered (render_effects (messageContainer w) es d1).1.
Proof.
  intros Ho Hve Hp. destruct (build_ordered d0 ve v vp Ho Hve Hp) as (d1 & w & Hb & Ho1 & Hm).
  exists d1, w. split; [done|]. split; [done|]. intros es. by apply render_effects_ordered.
Qed.

Lemma widget_page_ordered_witness :
  exists d1 w, build 2 demo_page = (d1, Some w) /\ ordered d1 /\
    forall es, ordered (render_effects (messageContainer w) es d1).1.
Proof. apply (widget_page_ordered demo_page 2 demo_video 1); [apply demo_page_ordered|reflexivity..]. Defined.

End Widget.
