(* ===== verification/Refinement.v ===== *)
(** * The party refines the spec's Party

    Spec section 3 describes the Party as a mapping from peer id to Peer:
    a [greet] or its reply extends it with the sender, under the name the
    message carries and on the connection it arrived on; the close of a
    connection removes that connection's peer; nothing else changes it.
    [party_step] is that abstract transition on stdpp's [gmap], indexed
    by the event, the abstraction of the JS object [party] being
    [JsObject.to_gmap].  [step_refines] shows that every event a page
    handles is exactly the abstract step of that event: a greeting on an
    open connection enters its peer with the greeted name, the close of
    an open connection removes its peer, and every other event leaves the
    party as it was.

    The handlers that leave the party alone are proved so with the
    [pres] machinery of [State] on the predicate [same_party]. *)

From S2P Require Import Prelude.
From S2P Require Import JsObject.
From S2P Require Import JsNum.
From S2P Require Import Message.
From S2P Require Import State.
From S2P Require Import Playback.
From S2P Require Import Membership.
From S2P Require Import Chat.
From S2P Require Import Peer.

Module Refinement.
Import Message State Playback Membership Chat Peer.

(** The name a message enters its sender under: [greet] and
    [returnGreet] (popup.js:381-390, 421-427). *)
Definition greeting (data : jsval) : option string :=
  match decode data with Some (Greet nm _) | Some (ReturnGreet nm) => Some nm | _ => None end.

(** [c] is an open connection to the peer [p]. *)
Definition open_to (cs : gmap ConnId Conn) (c : ConnId) (p : string) : Prop :=
  exists cn, cs !! c = Some cn /\ c_peer cn = p /\ c_status cn = Open.

(** The events on which the spec's Party changes. *)
Definition active (cs : gmap ConnId Conn) (ev : Event) : Prop :=
  match ev with
  | ConnData c data => (exists p, open_to cs c p) /\ is_Some (greeting data)
  | ConnClose c => exists p, open_to cs c p
  | _ => False
  end.

(** The abstract Party and its transitions, given the connections: a
    greeting on an open connection enters its peer under that connection
    and the greeted name; the close of an open connection removes its
    peer; any other event leaves the Party alone. *)
Inductive party_step (cs : gmap ConnId Conn) : Event -> gmap string Entry -> gmap string Entry -> Prop :=
| ps_join c data p nm m :
    open_to cs c p -> greeting data = Some nm -> party_step cs (ConnData c data) m (<[p := mkEntry nm c]> m)
| ps_leave c p m : open_to cs c p -> party_step cs (ConnClose c) m (base.delete p m)
| ps_idle ev m : ~ active cs ev -> party_step cs ev m m.

(** The party is [p0]. *)
Definition same_party (p0 : list (string * Entry)) (s : St) : Prop := party s = p0.

(** ** Steps that leave the party alone *)

Lemma modify_same_party p0 f :
  (forall s, party (f s) = party s) -> preserves (same_party p0) (modify f).
Proof. intros Hf s Hs. unfold same_party, final in *. simpl. by rewrite Hf. Qed.

#[export] Hint Extern 2 (preserves (same_party _) (modify _)) =>
  apply modify_same_party; intros; reflexivity : pres.

Lemma setTimeout_same_party p0 t : preserves (same_party p0) (setTimeout t).
Proof. unfold setTimeout. pres. Qed.

Lemma media_play_same_party p0 : preserves (same_party p0) media_play.
Proof. intros s Hs. unfold final. rewrite media_play_spec. by destruct (paused (video s)). Qed.

Lemma media_pause_same_party p0 : preserves (same_party p0) media_pause.
Proof. intros s Hs. unfold final. rewrite media_pause_spec. by destruct (paused (video s)). Qed.

Lemma media_seek_same_party p0 t : preserves (same_party p0) (media_seek t).
Proof. intros s Hs. unfold final. by rewrite media_seek_spec. Qed.

Lemma set_status_same_party p0 c st : preserves (same_party p0) (set_status c st).
Proof. unfold set_status. pres. Qed.

#[export] Hint Resolve setTimeout_same_party media_play_same_party media_pause_same_party
  media_seek_same_party set_status_same_party : pres.

Lemma dampened_same_party p0 t :
  preserves (same_party p0) (dampenedPause t) /\ preserves (same_party p0) (dampenedPlay t).
Proof. unfold dampenedPause, dampenedPlay, set_dpause, set_dplay. split; pres. Qed.

Lemma connect_same_party p0 id msgs : preserves (same_party p0) (connect id msgs).
Proof. unfold connect. pres. Qed.

Lemma onIncoming_same_party p0 id : preserves (same_party p0) (onIncoming id).
Proof. unfold onIncoming. pres. Qed.

#[export] Hint Resolve connect_same_party onIncoming_same_party : pres.
#[export] Hint Extern 1 (preserves (same_party _) (dampenedPause _)) =>
  apply dampened_same_party : pres.
#[export] Hint Extern 1 (preserves (same_party _) (dampenedPlay _)) =>
  apply dampened_same_party : pres.

Lemma runTimer_same_party p0 : preserves (same_party p0) runTimer.
Proof. unfold runTimer, timerTask, announcePlay, set_dplay, set_dpause. pres. Qed.

Lemma runMedia_same_party p0 : preserves (same_party p0) runMedia.
Proof. unfold runMedia, mediaTask, playHandler, pauseHandler. pres. Qed.

#[export] Hint Resolve runTimer_same_party runMedia_same_party : pres.

(** Every listener other than [data] and [close] leaves the party alone. *)
Lemma handle_same_party ev p0 :
  match ev with ConnData _ _ | ConnClose _ => False | _ => True end ->
  preserves (same_party p0) (handle ev).
Proof.
  destruct ev; intros []; unfold handle, onPeerOpen, onPeerError, onConnOpen, onConnError,
    onUnload, onCopyHostId, onKeyUp, run_command; pres.
Qed.

Lemma same_party_final {A} (b : M A) s : preserves (same_party (party s)) b -> party (final b s) = party s.
Proof. intros Hb. by apply Hb. Qed.

(** Every event other than [data] and [close] leaves the party alone. *)
Lemma step_same_party s ev :
  match ev with ConnData _ _ | ConnClose _ => False | _ => True end -> party (step s ev) = party s.
Proof.
  intros Hev. unfold step. destruct (deliverable ev s); [|done].
  by apply same_party_final, handle_same_party.
Qed.

(** A greeting enters its sender under the connection it arrived on and
    the name it carries. *)
Lemma onData_greeting c peer data s nm :
  greeting data = Some nm -> party (final (onData c peer data) s) = JsObject.set peer (mkEntry nm c) (party s).
Proof.
  unfold greeting, onData. rewrite final_gets. intros Hg.
  destruct (decode data) as [[nm' t| nm'| |cs t p| |u|t|t|m]|]; try discriminate; injection Hg as ->.
  - unfold onGreet. rewrite (final_seq _ _ _ _ _ _ (enter_run peer nm c s)).
    rewrite same_party_final; [reflexivity|]. pres.
  - unfold final, onReturnGreet. by rewrite enter_run.
Qed.

(** Any other message leaves the party alone. *)
Lemma onData_other c peer data s :
  greeting data = None -> party (final (onData c peer data) s) = party s.
Proof.
  unfold greeting, onData. rewrite final_gets. intros Hg.
  destruct (decode data) as [[nm t| nm| |cs t p| |u|t|t|m]|]; try discriminate; apply same_party_final;
    unfold onRequestConnections, onRespondConnections, respondBody, onGetUrl, onPlay, onPause, onChat; pres.
Qed.

(** The close of an open connection removes its peer. *)
Lemma close_open_party c cn s :
  JsObject.to_gmap (party (final (set_status c Closed;; onClose (c_peer cn)) s)) =
    base.delete (c_peer cn) (JsObject.to_gmap (party s)).
Proof.
  rewrite (final_seq _ _ s (final (set_status c Closed) s) [] tt) by reflexivity.
  rewrite onClose_final. simpl. destruct ((party s).[c_peer cn]) eqn:Hg; simpl.
  - by rewrite JsObject.to_gmap_delete.
  - symmetry. apply delete_id. by rewrite JsObject.to_gmap_lookup.
Qed.

(** ** Refinement *)

(** C9: Every event a page handles is the step of the spec's Party for
    that event: a [greet] or [returnGreet] on an open connection enters
    the connection's peer under that connection and the name the message
    carries; the close of an open connection removes that connection's
    peer; every other event, a chat or a close of a connection that
    never opened included, leaves the party, seen as a finite map, as it
    was. *)
Theorem step_refines s ev :
  party_step (conns s) ev (JsObject.to_gmap (party s)) (JsObject.to_gmap (party (step s ev))).
Proof.
  destruct ev as [id| |peerId|c|c data|c|c| | | | |text|key| |];
    try (rewrite step_same_party by done; apply ps_idle; simpl; tauto).
  - destruct (conns s !! c) as [cn|] eqn:Hc;
      [destruct (decide (c_status cn = Open)) as [Ho|Ho]|];
      [|unfold step; simpl; rewrite Hc, ?bool_decide_false by done; apply ps_idle;
        intros [[p (cn' & Hc' & _ & Ho')] _]; congruence..].
    unfold step. simpl. rewrite Hc, bool_decide_true by done. unfold handle. rewrite final_gets, Hc.
    destruct (greeting data) as [nm|] eqn:Hg.
    + rewrite (onData_greeting _ _ _ _ nm Hg), JsObject.to_gmap_set. apply ps_join; [by exists cn|done].
    + rewrite onData_other by done. apply ps_idle. intros [_ Hs]. rewrite Hg in Hs. by destruct Hs.
  - destruct (conns s !! c) as [cn|] eqn:Hc;
      [|unfold step; simpl; rewrite Hc; apply ps_idle; intros [p (cn' & Hc' & _)]; congruence].
    destruct (c_status cn) eqn:Hst; unfold step; simpl; rewrite Hc, Hst; simpl.
    + unfold handle. rewrite final_gets, Hc, Hst, same_party_final by pres.
      apply ps_idle. intros [p (cn' & Hc' & _ & Ho')]. congruence.
    + unfold handle. rewrite final_gets, Hc, Hst, close_open_party. apply ps_leave. by exists cn.
    + apply ps_idle. intros [p (cn' & Hc' & _ & Ho')]. congruence.
Qed.

End Refinement.
