(* ===== verification/Invariant.v ===== *)
(** * The invariant of a peer

    [inv] is what every state the page reaches satisfies:
    - [party_ok]: the party is a well-formed JS object, and each entry
      names a connection that exists, is open, and leads to the entry's
      own peer id (spec section 3: no stale entry after a close, one
      connection per entry);
    - [fresh_ok]: connection ids are allocated fresh;
    - [ui_ok]: the counter shows the party size plus one and the title
      "You" followed by the names, as [updatePartyCounter] and
      [updateTitle] compute them;
    - [damp_ok]: a set suppression flag always has its clearing timer
      pending.

    Most steps of a handler leave the party, the connections and the
    counter alone ([frame]); the invariant of the playback steps is then
    [damp_ok] alone.  The steps that change the party ([enter], the close
    listener) or a flag ([dampenedPause], [dampenedPlay], [runTimer]) are
    proved as blocks, since the invariant is broken between their first
    and last statements.

    Consequences: the entries of every reachable party name open
    connections to their peers; the counter and title show the party;
    no flag is set once the timer queue is empty, and since no timer
    task queues another timer, running the pending timers clears both
    flags from any reachable state; the close of one of two connections
    to a peer removes the peer. *)

From S2P Require Import Prelude.
From S2P Require Import JsObject.
From S2P Require Import JsNum.
From S2P Require Import Message.
From S2P Require Import State.
From S2P Require Import Playback.
From S2P Require Import Membership.
From S2P Require Import Chat.
From S2P Require Import Peer.
From stdpp Require Import pretty.

Module Invariant.
Import JsNum Message State Playback Membership Chat Peer.

(** ** The invariant *)

Definition party_ok (s : St) : Prop :=
  JsObject.wf (party s) /\
  forall k e, (party s).[k] = Some e ->
    exists cn, conns s !! connection e = Some cn /\ c_peer cn = k /\ c_status cn = Open.

Definition fresh_ok (s : St) : Prop := forall c, is_Some (conns s !! c) -> c < nextConn s.

Definition ui_ok (s : St) : Prop :=
  counter s = counter_text (party s) /\ title s = title_text (party s).

Definition damp_ok (s : St) : Prop :=
  (dpause (isDamp s) = true -> TUndamp APause ∈ timers s) /\
  (dplay (isDamp s) = true -> TUndamp APlay ∈ timers s).

Definition inv (s : St) : Prop := party_ok s /\ fresh_ok s /\ ui_ok s /\ damp_ok s.

(** The connection a [data] event arrives on: open, from [peer]. *)
Definition conn_ok (c : ConnId) (peer : string) (s : St) : Prop :=
  exists cn, conns s !! c = Some cn /\ c_peer cn = peer /\ c_status cn = Open.

(** The invariant, with the facts about the current connection when a
    handler runs for one. *)
Definition invC (oc : option (ConnId * string)) (s : St) : Prop :=
  inv s /\ match oc with Some (c, peer) => conn_ok c peer s | None => True end.

(** ** Steps that leave the membership alone *)

Definition frame (s s' : St) : Prop :=
  party s' = party s /\ conns s' = conns s /\ nextConn s' = nextConn s /\
  counter s' = counter s /\ title s' = title s.

Lemma frame_invC oc s s' : frame s s' -> damp_ok s' -> invC oc s -> invC oc s'.
Proof.
  intros (Hp & Hc & Hn & Hcnt & Ht) Hd ((Hpo & Hf & Hu & _) & Hoc).
  unfold invC, inv, party_ok, fresh_ok, ui_ok, conn_ok in *.
  rewrite Hp, Hc, Hn, Hcnt, Ht. split; [done|]. by destruct oc as [[]|].
Qed.

(** A step that keeps the membership and the invariant of the flags keeps
    the whole invariant. *)
Lemma frame_pres {A} (b : M A) oc :
  (forall s, frame s (final b s) /\ (damp_ok s -> damp_ok (final b s))) -> preserves (invC oc) b.
Proof.
  intros Hb s Hs. destruct (Hb s) as [Hfr Hd]. apply (frame_invC _ s); [done| |done].
  apply Hd, Hs.
Qed.

(** [damp_ok] from the flags and the queue. *)
Lemma damp_ok_intro s :
  (dpause (isDamp s) = true -> TUndamp APause ∈ timers s) ->
  (dplay (isDamp s) = true -> TUndamp APlay ∈ timers s) -> damp_ok s.
Proof. by split. Qed.

Ltac frame_tac :=
  intros s; st_destr s; split; [repeat split|unfold damp_ok; simpl; intros [Hz Hy]];
  try done.

Lemma setTimeout_pres t oc : preserves (invC oc) (setTimeout t).
Proof.
  apply frame_pres. frame_tac. split; intros H; apply elem_of_app; left; auto.
Qed.

Lemma media_play_pres oc : preserves (invC oc) media_play.
Proof.
  apply frame_pres. intros s. st_destr s. unfold media_play. destruct pz; mrun; by split.
Qed.

Lemma media_pause_pres oc : preserves (invC oc) media_pause.
Proof.
  apply frame_pres. intros s. st_destr s. unfold media_pause. destruct pz; mrun; by split.
Qed.

Lemma media_seek_pres t oc : preserves (invC oc) (media_seek t).
Proof. apply frame_pres. intros s. st_destr s. mrun. by split. Qed.

Lemma set_input_pres x oc : preserves (invC oc) (modify (set_input x)).
Proof. apply frame_pres. intros s. st_destr s. mrun. by split. Qed.

#[export] Hint Resolve setTimeout_pres media_play_pres media_pause_pres media_seek_pres
  set_input_pres : pres.

Lemma set_media_pres ms oc : preserves (invC oc) (modify (set_media ms)).
Proof. apply frame_pres. intros s. st_destr s. mrun. by split. Qed.

Lemma mute_pres oc :
  preserves (invC oc) (modify (fun s => set_video (mkVideo (currentTime (video s)) (paused (video s))
                                                          (negb (muted (video s)))) s)).
Proof. apply frame_pres. intros s. st_destr s. mrun. by split. Qed.

Lemma set_peerId_pres i oc : preserves (invC oc) (modify (set_peerId i)).
Proof. apply frame_pres. intros s. st_destr s. mrun. by split. Qed.

Lemma set_dpause_false_pres oc : preserves (invC oc) (set_dpause false).
Proof. apply frame_pres. intros s. st_destr s. unfold set_dpause. mrun. split; [by repeat split|]. by intros [? ?]. Qed.

Lemma set_dplay_false_pres oc : preserves (invC oc) (set_dplay false).
Proof. apply frame_pres. intros s. st_destr s. unfold set_dplay. mrun. split; [by repeat split|]. by intros [? ?]. Qed.

#[export] Hint Resolve set_media_pres mute_pres set_peerId_pres set_dpause_false_pres
  set_dplay_false_pres : pres.

(** [dampenedPause]: the flag is set and its clearing timer is queued
    behind everything pending. *)
Lemma dampenedPause_pres t oc : preserves (invC oc) (dampenedPause t).
Proof.
  apply frame_pres. intros s. st_destr s. unfold dampenedPause.
  destruct (truthy (Fin t)), pz; prun; (split; [by repeat split|]); intros [Hz Hy];
    split; simpl; intros; rewrite ?elem_of_app, ?elem_of_cons; auto.
Qed.

Lemma dampenedPlay_pres t oc : preserves (invC oc) (dampenedPlay t).
Proof.
  apply frame_pres. intros s. st_destr s. unfold dampenedPlay.
  destruct (truthy (Fin t)), pz; prun; (split; [by repeat split|]); intros [Hz Hy];
    split; simpl; intros; rewrite ?elem_of_app, ?elem_of_cons; auto.
Qed.

#[export] Hint Resolve dampenedPause_pres dampenedPlay_pres : pres.

(** [announcePlay] changes no state. *)
Lemma announcePlay_pres oc : preserves (invC oc) announcePlay.
Proof. unfold announcePlay. pres. Qed.

(** A popped timer that is not the one a set flag waits for. *)
Lemma damp_ok_pop s t ts :
  damp_ok s -> timers s = t :: ts ->
  (dpause (isDamp s) = true -> t <> TUndamp APause) ->
  (dplay (isDamp s) = true -> t <> TUndamp APlay) -> damp_ok (set_timers ts s).
Proof.
  intros [Hz Hy] Ht Hnz Hny. rewrite Ht in Hz, Hy. split; simpl; intros Hq.
  - specialize (Hnz Hq). apply Hz, elem_of_cons in Hq as [?|?]; [congruence|done].
  - specialize (Hny Hq). apply Hy, elem_of_cons in Hq as [?|?]; [congruence|done].
Qed.

(** [runTimer]: a popped clearing timer clears its flag; any other popped
    timer was not the one a set flag waits for. *)
Lemma runTimer_pres oc : preserves (invC oc) runTimer.
Proof.
  intros s Hs. pose proof Hs as ((_ & _ & _ & Hd) & _).
  unfold runTimer. cbv [mbind M_bind gets final].
  destruct (timers s) as [|t ts] eqn:Ht; [exact Hs|].
  destruct t as [tm|[]|]; simpl.
  - apply (media_seek_pres tm oc (set_timers ts s)).
    apply (frame_invC _ s); [by repeat split|by eapply damp_ok_pop|done].
  - apply (frame_invC _ s); [by repeat split| |done].
    destruct Hd as [Hz _]. rewrite Ht in Hz. split; simpl; [|done].
    intros Hq. apply Hz, elem_of_cons in Hq as [?|?]; done.
  - apply (frame_invC _ s); [by repeat split| |done].
    destruct Hd as [_ Hy]. rewrite Ht in Hy. split; simpl; [done|].
    intros Hq. apply Hy, elem_of_cons in Hq as [?|?]; done.
  - assert (invC oc (set_timers ts s)) as Hs'
      by (apply (frame_invC _ s); [by repeat split|by eapply damp_ok_pop|done]).
    pose proof (announcePlay_pres oc _ Hs') as Ha. unfold final in Ha |- *.
    destruct (announcePlay (set_timers ts s)) as [[s2 e2] r]. exact Ha.
Qed.

Lemma runMedia_pres oc : preserves (invC oc) runMedia.
Proof.
  unfold runMedia, mediaTask, playHandler, pauseHandler. pres.
Qed.

#[export] Hint Resolve runTimer_pres runMedia_pres : pres.

Lemma onPause_pres a t oc : preserves (invC oc) (onPause a t).
Proof. unfold onPause. pres. Qed.

Lemma onPlay_pres a t oc : preserves (invC oc) (onPlay a t).
Proof. unfold onPlay. pres. Qed.

Lemma onChat_pres a m oc : preserves (invC oc) (onChat a m).
Proof. unfold onChat. pres. Qed.

Lemma onKeyUp_pres k oc : preserves (invC oc) (onKeyUp k).
Proof. unfold onKeyUp, run_command. pres. Qed.

#[export] Hint Resolve onPause_pres onPlay_pres onChat_pres onKeyUp_pres : pres.

(** ** Membership steps *)

(** A connection object created under a fresh id disturbs no entry. *)
Lemma new_conn_invC oc cn s :
  invC oc s -> invC oc (set_conns (<[nextConn s := cn]> (conns s)) (S (nextConn s)) s).
Proof.
  intros (((Hwf & Hent) & Hf & Hu & Hd) & Hoc). unfold invC, inv, party_ok, fresh_ok, conn_ok in *; simpl.
  assert (forall c, is_Some (conns s !! c) -> nextConn s <> c) as Hne by (intros c Hc Heq; apply Hf in Hc; lia).
  split_and!; try done.
  - intros k e He. destruct (Hent k e He) as (cn' & Hl & ?). exists cn'.
    rewrite lookup_insert_ne; [done|]. apply Hne. by rewrite Hl.
  - intros c Hc. rewrite lookup_insert in Hc. case_decide; [lia|]. apply Hf in Hc. lia.
  - destruct oc as [[c peer]|]; [|done]. destruct Hoc as (cn' & Hl & ?). exists cn'.
    rewrite lookup_insert_ne; [done|]. apply Hne. by rewrite Hl.
Qed.

Lemma connect_pres id msgs oc : preserves (invC oc) (connect id msgs).
Proof. intros s Hs. apply new_conn_invC, Hs. Qed.

Lemma onIncoming_pres id oc : preserves (invC oc) (onIncoming id).
Proof. intros s Hs. apply new_conn_invC, Hs. Qed.

#[export] Hint Resolve connect_pres onIncoming_pres : pres.

(** [enter]: the new entry names the connection the message came on,
    which is open and leads to the sender. *)
Lemma enter_pres peer name c : preserves (invC (Some (c, peer))) (enter peer name c).
Proof.
  intros s (((Hwf & Hent) & Hf & Hu & Hd) & Hoc). unfold final; rewrite enter_run.
  unfold invC, inv, party_ok, ui_ok, fresh_ok in *; simpl.
  split_and!; try done.
  - by apply JsObject.wf_set.
  - intros k e He. rewrite JsObject.get_set in He.
    destruct (String.eqb_spec peer k) as [<-|]; [injection He as <-; exact Hoc|]. by apply Hent.
Qed.

#[export] Hint Resolve enter_pres : pres.

(** [set_status c Open]: a connection entries may name stays open. *)
Lemma set_open_pres c oc : preserves (invC oc) (set_status c Open).
Proof.
  intros s (((Hwf & Hent) & Hf & Hu & Hd) & Hoc). unfold final, set_status. mrun.
  unfold invC, inv, party_ok, fresh_ok, conn_ok in *; simpl.
  assert (forall c' cn, conns s !! c' = Some cn -> c_status cn = Open ->
    alter (fun cn => mkConn (c_peer cn) Open (c_on_open cn)) c (conns s) !! c' = Some cn) as Hkeep.
  { intros c' cn Hl Ho. destruct (decide (c = c')) as [<-|]; [|by rewrite lookup_alter_ne].
    rewrite lookup_alter, Hl. simpl. destruct cn; simpl in *; subst; by case_decide. }
  split_and!; try done.
  - intros k e He. destruct (Hent k e He) as (cn & Hl & Hp & Ho). exists cn. split; [by apply Hkeep|done].
  - intros c' Hc. apply Hf. by apply lookup_alter_is_Some in Hc.
  - destruct oc as [[c' peer]|]; [|done]. destruct Hoc as (cn & Hl & Hp & Ho). exists cn. split; [by apply Hkeep|done].
Qed.

#[export] Hint Resolve set_open_pres : pres.

Lemma onConnOpen_pres c oc : preserves (invC oc) (onConnOpen c).
Proof. unfold onConnOpen. pres. Qed.

Lemma onData_pres c peer data : preserves (invC (Some (c, peer))) (onData c peer data).
Proof.
  unfold onData, onGreet, onReturnGreet, onRequestConnections, onRespondConnections,
    respondBody, onGetUrl. pres.
Qed.

Lemma onPeerOpen_pres id oc : preserves (invC oc) (onPeerOpen id).
Proof. unfold onPeerOpen. pres. Qed.

#[export] Hint Resolve onConnOpen_pres onData_pres onPeerOpen_pres : pres.

(** ** The close listener *)

(** A state whose connection [c] is now closed keeps the invariant when
    its party is a part of the old one that names no entry on [c]. *)
Lemma close_inv s s' c :
  inv s -> JsObject.wf (party s') ->
  (forall k e, (party s').[k] = Some e ->
               (party s).[k] = Some e /\ connection e <> c) ->
  conns s' = alter (fun cn => mkConn (c_peer cn) Closed (c_on_open cn)) c (conns s) ->
  nextConn s' = nextConn s -> ui_ok s' -> damp_ok s' -> inv s'.
Proof.
  intros ((_ & Hent) & Hf & _ & _) Hwf Hsub Hc Hn Hu Hd. split_and!; try done.
  - split; [done|]. intros k e He. destruct (Hsub k e He) as [He' Hne].
    destruct (Hent k e He') as (cn & Hl & ?). exists cn. rewrite Hc, lookup_alter_ne by congruence. done.
  - intros c' Hc'. rewrite Hn. apply Hf. rewrite Hc in Hc'. by apply lookup_alter_is_Some in Hc'.
Qed.

(** An entry naming connection [c] is the entry of [c]'s peer, and [c]
    is open. *)
Lemma entry_on_conn s c cn k e :
  party_ok s -> conns s !! c = Some cn -> (party s).[k] = Some e -> connection e = c ->
  k = c_peer cn /\ c_status cn = Open.
Proof.
  intros (_ & Hent) Hc He <-. destruct (Hent k e He) as (cn' & Hl & Hp & Ho).
  rewrite Hl in Hc. injection Hc as <-. done.
Qed.

(** Closing [c] and then removing the entry of its peer. *)
Lemma onClose_after_close c cn s :
  inv s -> conns s !! c = Some cn ->
  inv (final (onClose (c_peer cn)) (final (set_status c Closed) s)).
Proof.
  intros Hs Hc. pose proof Hs as (Hp & _ & Hu & Hd).
  rewrite onClose_final. simpl. destruct ((party s).[(c_peer cn)]) as [e0|] eqn:Hg.
  - apply (close_inv s _ c); try done; [by apply JsObject.wf_delete, Hp|]. simpl. intros k e He.
    rewrite JsObject.get_delete in He. destruct (String.eqb_spec (c_peer cn) k); [done|].
    split; [done|]. intros Heq. destruct (entry_on_conn s c cn k e Hp Hc He Heq); congruence.
  - apply (close_inv s _ c); try done; [apply Hp|]. intros k e He. simpl in He. split; [done|].
    intros Heq. destruct (entry_on_conn s c cn k e Hp Hc He Heq) as [-> _]; congruence.
Qed.

(** The [close] listener of [setupConnection] on connection [c], whose
    object was [cn]: [c] is closed, and if it had opened, the entry of its
    peer is removed. *)
Lemma close_pres c cn s :
  inv s -> conns s !! c = Some cn ->
  inv (final (set_status c Closed;;
              match c_status cn with Connecting => mret tt | _ => onClose (c_peer cn) end) s).
Proof.
  intros Hs Hc. pose proof Hs as (Hp & _ & Hu & Hd).
  rewrite (final_seq _ _ s (final (set_status c Closed) s) [] tt) by reflexivity.
  destruct (c_status cn) eqn:Hst; [|by apply onClose_after_close..].
  apply (close_inv s _ c); try done; [apply Hp|]. intros k e He. split; [done|]. intros Heq.
  destruct (entry_on_conn s c cn k e Hp Hc He Heq); congruence.
Qed.

(** ** Every event *)

Lemma step_inv s ev : inv s -> inv (step s ev).
Proof.
  intros Hs. unfold step. destruct (deliverable ev s) eqn:Hdl; [|done].
  assert (forall oc (b : M unit), preserves (invC oc) b -> invC oc s -> inv (final b s)) as G
    by (intros oc b Hb H; apply (Hb s H)).
  destruct ev; simpl in Hdl; unfold handle; try (apply (G None); [solve [pres]|by split]).
  - rewrite final_gets. destruct (conns s !! c) as [cn|] eqn:Hl; [|done].
    apply (G (Some (c, c_peer cn))); [eauto with pres|]. split; [done|].
    exists cn. split_and!; [done|done|]. by apply bool_decide_eq_true in Hdl.
  - rewrite final_gets. destruct (conns s !! c) as [cn|] eqn:Hl; [|done]. by apply close_pres.
Qed.

Lemma init_inv myName hostId url v0 : inv (hostOrJoin_init myName hostId url v0).
Proof.
  unfold inv, party_ok, fresh_ok. split_and!; try done.
  - apply JsObject.wf_nil.
  - intros c Hc. simpl in Hc. rewrite lookup_empty in Hc. by destruct Hc.
Qed.

Lemma reachable_inv myName hostId url v0 s : reachable myName hostId url v0 s -> inv s.
Proof. induction 1; [apply init_inv|by apply step_inv]. Qed.

Lemma reachable_run_events myName hostId url v0 s evs :
  reachable myName hostId url v0 s -> reachable myName hostId url v0 (run_events s evs).
Proof.
  revert s. induction evs as [|ev evs IH]; intros s Hs; [done|]. apply IH. by constructor.
Qed.

(** A state of the invariant with no timer pending has both flags clear. *)
Lemma idle_undamped s : inv s -> timers s = [] -> isDamp s = mkDamp false false.
Proof.
  intros (_ & _ & _ & [Hz Hy]) Ht. rewrite Ht in Hz, Hy.
  destruct (isDamp s) as [[] []]; simpl in *; try done; exfalso;
    first [eapply not_elem_of_nil, Hz; done|eapply not_elem_of_nil, Hy; done].
Qed.

(** A timer task removes itself from the queue and queues no timer. *)
Lemma timer_tick_pops s t ts : timers s = t :: ts -> timers (step s TimerTick) = ts.
Proof.
  intros Ht. unfold step, handle. simpl. unfold runTimer. rewrite final_gets, Ht.
  rewrite (final_seq _ _ s (set_timers ts s) [] tt) by reflexivity.
  destruct t as [tm|[]|]; unfold final; simpl; try reflexivity.
  assert (preserves (eq (set_timers ts s)) announcePlay) as Ha by (unfold announcePlay; pres).
    specialize (Ha _ eq_refl). unfold final in Ha. by rewrite <- Ha.
Qed.

Lemma timer_ticks_drain s : timers (run_events s (repeat TimerTick (length (timers s)))) = [].
Proof.
  remember (length (timers s)) as n eqn:Hn. revert s Hn.
  induction n as [|n IH]; intros s Hn; simpl.
  - by destruct (timers s).
  - destruct (timers s) as [|t ts] eqn:Ht; [done|]. simpl in Hn. apply IH.
    rewrite (timer_tick_pops s t ts Ht). congruence.
Qed.

(** ** Consequences *)

(** C1: In every reachable state each party entry [party[k]] names a
    connection that exists, is open, and was opened with peer [k]: no
    entry survives the close of its connection, and no entry is made
    before a connection opens. *)
Theorem reachable_entries_open myName hostId url v0 s k e :
  reachable myName hostId url v0 s -> (party s).[k] = Some e ->
  exists cn, conns s !! connection e = Some cn /\ c_peer cn = k /\ c_status cn = Open.
Proof. intros Hr He. apply (reachable_inv _ _ _ _ _ Hr), He. Qed.

Lemma reachable_entries_open_witness :
  JsObject.get "B" (party (run_events (hostOrJoin_init "A" None "u" (mkVideo 0 true false))
    [Incoming "B"; ConnOpen 0; ConnData 0 (encode (Greet "Bob" None))])) = Some (mkEntry "Bob" 0) /\
  exists cn, conns (run_events (hostOrJoin_init "A" None "u" (mkVideo 0 true false))
    [Incoming "B"; ConnOpen 0; ConnData 0 (encode (Greet "Bob" None))]) !! 0 = Some cn /\
    c_peer cn = "B" /\ c_status cn = Open.
Proof.
  split; [vm_compute; reflexivity|].
  apply (reachable_entries_open "A" None "u" (mkVideo 0 true false) _ "B" (mkEntry "Bob" 0)).
  - apply reachable_run_events, reach_init.
  - vm_compute. reflexivity.
Defined.

(** C18: In every reachable state the party is a well-formed object (no
    duplicate key), the counter shows the size of the party plus one and
    the title is "You" followed by the members' names. *)
Theorem reachable_ui myName hostId url v0 s :
  reachable myName hostId url v0 s ->
  NoDup (JsObject.keys (party s)) /\
  counter s = pretty (size (JsObject.to_gmap (party s)) + 1)%nat /\
  title s = String.concat ", " ("You" :: map (fun k => default "" (name <$> (party s).[k]))
                                              (JsObject.keys (party s))).
Proof.
  intros Hr. destruct (reachable_inv _ _ _ _ _ Hr) as ((Hwf & _) & _ & [Hc Ht] & _).
  split_and!; [done| |done]. rewrite Hc. unfold counter_text.
  by rewrite JsObject.to_gmap_size.
Qed.

Lemma reachable_ui_witness :
  reachable "A" None "u" (mkVideo 0 true false)
    (run_events (hostOrJoin_init "A" None "u" (mkVideo 0 true false))
      [Incoming "B"; ConnOpen 0; ConnData 0 (encode (Greet "Bob" None))]) /\
  counter (run_events (hostOrJoin_init "A" None "u" (mkVideo 0 true false))
      [Incoming "B"; ConnOpen 0; ConnData 0 (encode (Greet "Bob" None))]) = "2".
Proof.
  assert (reachable "A" None "u" (mkVideo 0 true false)
    (run_events (hostOrJoin_init "A" None "u" (mkVideo 0 true false))
      [Incoming "B"; ConnOpen 0; ConnData 0 (encode (Greet "Bob" None))])) as Hr
    by apply reachable_run_events, reach_init.
  split; [exact Hr|]. destruct (reachable_ui _ _ _ _ _ Hr) as (_ & -> & _). vm_compute. reflexivity.
Defined.

(** C4: In every reachable state whose timer queue is empty, neither
    suppression flag is set: every [isDamp] set by [dampenedPause] or
    [dampenedPlay] is cleared by the timer it queues. *)
Theorem reachable_idle_undamped myName hostId url v0 s :
  reachable myName hostId url v0 s -> timers s = [] -> isDamp s = mkDamp false false.
Proof. intros Hr. apply idle_undamped, (reachable_inv _ _ _ _ _ Hr). Qed.

Lemma reachable_idle_undamped_witness :
  isDamp (run_events (hostOrJoin_init "A" None "u" (mkVideo 0 true false))
    [Incoming "B"; ConnOpen 0; ConnData 0 (encode (Pause 3)); TimerTick; TimerTick]) = mkDamp false false.
Proof.
  apply (reachable_idle_undamped "A" None "u" (mkVideo 0 true false)).
  - apply reachable_run_events, reach_init.
  - vm_compute. reflexivity.
Defined.

(** C6: The close listener removes the party entry of the connection's
    peer whichever connection that entry names: the party is keyed by
    peer id, so when a peer holds two connections (it greeted on both),
    closing the stale one drops the peer from the party while the other
    connection stays open. *)
Theorem close_forgets_peer s c cn :
  conns s !! c = Some cn -> c_status cn = Open ->
  JsObject.get (c_peer cn) (party (step s (ConnClose c))) = None.
Proof.
  intros Hl Ho. unfold step. simpl. rewrite Hl, Ho, bool_decide_true by done. unfold handle.
  rewrite final_gets, Hl, (final_seq _ _ s (final (set_status c Closed) s) [] tt), Ho by reflexivity.
  rewrite onClose_final. simpl. destruct ((party s).[(c_peer cn)]) eqn:Hg; [|done].
  simpl. apply JsObject.get_delete_eq.
Qed.

Lemma close_forgets_peer_witness :
  conns (run_events (hostOrJoin_init "A" None "u" (mkVideo 0 true false))
    [Incoming "B"; Incoming "B"; ConnOpen 0; ConnOpen 1;
     ConnData 0 (encode (Greet "Bob" None)); ConnData 1 (encode (Greet "Bob" None)); ConnClose 0])
    !! 1 = Some (mkConn "B" Open []) /\
  JsObject.get "B" (party (run_events (hostOrJoin_init "A" None "u" (mkVideo 0 true false))
    [Incoming "B"; Incoming "B"; ConnOpen 0; ConnOpen 1;
     ConnData 0 (encode (Greet "Bob" None)); ConnData 1 (encode (Greet "Bob" None)); ConnClose 0])) = None.
Proof.
  split; [vm_compute; reflexivity|].
  unfold run_events. rewrite (fold_left_app step [Incoming "B"; Incoming "B"; ConnOpen 0; ConnOpen 1;
     ConnData 0 (encode (Greet "Bob" None)); ConnData 1 (encode (Greet "Bob" None))] [ConnClose 0]).
  simpl fold_left at 1. apply (close_forgets_peer _ 0 (mkConn "B" Open [])); vm_compute; reflexivity.
Defined.

(** C11: Liveness of the flags: from any reachable state, once the event loop
    has run as many timer tasks as are pending, both suppression flags
    are clear, whatever they were; no timer task queues another timer,
    so the flags never stay set. *)
Theorem flags_cleared_by_timers myName hostId url v0 s :
  reachable myName hostId url v0 s ->
  isDamp (run_events s (repeat TimerTick (length (timers s)))) = mkDamp false false.
Proof.
  intros Hr. apply idle_undamped; [|apply timer_ticks_drain].
  apply (reachable_inv myName hostId url v0), reachable_run_events, Hr.
Qed.

Lemma flags_cleared_by_timers_witness :
  isDamp (run_events (hostOrJoin_init "A" None "u" (mkVideo 0 false false))
            [Incoming "B"; ConnOpen 0; ConnData 0 (encode (Pause 3))]) = mkDamp false true /\
  isDamp (run_events (run_events (hostOrJoin_init "A" None "u" (mkVideo 0 false false))
            [Incoming "B"; ConnOpen 0; ConnData 0 (encode (Pause 3))])
           (repeat TimerTick (length (timers (run_events (hostOrJoin_init "A" None "u" (mkVideo 0 false false))
            [Incoming "B"; ConnOpen 0; ConnData 0 (encode (Pause 3))]))))) = mkDamp false false.
Proof.
  split; [vm_compute; reflexivity|].
  apply (flags_cleared_by_timers "A" None "u" (mkVideo 0 false false)).
  apply reachable_run_events, reach_init.
Defined.

End Invariant.
