(* ===== verification/Network.v ===== *)
(** * Several pages and the transport between them

    A party is several pages, each running [hostOrJoin] (the model of
    [Peer]), joined by PeerJS data connections.  The transport is the
    capability "Transport" of the spec: [peer.connect(id)] dials a peer
    id, the dialled page receives a [connection] event, each end gets its
    own [open] event, and the messages one end sends arrive at the other
    in order (a reliable ordered channel per connection, spec section 5).

    - [Net]: the page of each peer id, the dials not yet answered, the
      established links (pairs of connection ends), and the messages on
      the wire in the order they were sent;
    - [post]: the effects of a handler that reach the transport,
      [conn.send] and [peer.connect];
    - [net_step]: one transport or page event.  Which event comes next is
      free: a run of the network is any list of events, so every
      interleaving the transport may produce is one run.

    Theorems: the greet round trip of spec section 8 (a [greet] on a new
    connection and its [returnGreet] leave each page with an entry for the
    other under its own end of the connection), and, for any state of a
    host, the snapshot it sends a joiner after the joiner's [greet] and
    [requestConnections] lists the joiner itself. *)

From S2P Require Import Prelude.
From S2P Require Import JsObject.
From S2P Require Import JsNum.
From S2P Require Import Message.
From S2P Require Import State.
From S2P Require Import Playback.
From S2P Require Import Membership.
From S2P Require Import Chat.
From S2P Require Import Peer.

Module Network.
Import Message State Membership Peer.

(** A data connection between two pages: the end [l_conn1] of page
    [l_peer1] and the end [l_conn2] of page [l_peer2]. *)
Record Link := mkLink { l_peer1 : string; l_conn1 : ConnId; l_peer2 : string; l_conn2 : ConnId }.

Record Net := mkNet {
  nodes : gmap string St;
  dials : list (string * ConnId * string);
  links : list Link;
  wire : list (string * ConnId * Msg)
}.

(** One event at one page: the new state and the effects of its
    listeners, none when PeerJS does not deliver the event. *)
Definition node_step (s : St) (ev : Event) : St * list Effect :=
  if deliverable ev s then (final (handle ev) s, effects (handle ev) s) else (s, []).

(** An effect of page [p] that reaches the transport. *)
Definition post (p : string) (n : Net) (e : Effect) : Net :=
  match e with
  | ESend c m => mkNet (nodes n) (dials n) (links n) (wire n ++ [(p, c, m)])
  | EConnect c id => mkNet (nodes n) (dials n ++ [(p, c, id)]) (links n) (wire n)
  | _ => n
  end.

(** Page [p] handles [ev]. *)
Definition run_at (p : string) (ev : Event) (n : Net) : Net :=
  match nodes n !! p with
  | None => n
  | Some s =>
      let r := node_step s ev in
      fold_left (post p) r.2 (mkNet (<[p := r.1]> (nodes n)) (dials n) (links n) (wire n))
  end.

(** The other end of the connection end [(p, c)]. *)
Fixpoint other_end (ls : list Link) (p : string) (c : ConnId) : option (string * ConnId) :=
  match ls with
  | [] => None
  | l :: ls' =>
      if bool_decide (l_peer1 l = p /\ l_conn1 l = c) then Some (l_peer2 l, l_conn2 l)
      else if bool_decide (l_peer2 l = p /\ l_conn2 l = c) then Some (l_peer1 l, l_conn1 l)
      else other_end ls' p c
  end.

(** The oldest message sent on [(p, c)], and the wire without it. *)
Fixpoint take_msg (p : string) (c : ConnId) (w : list (string * ConnId * Msg))
    : option (Msg * list (string * ConnId * Msg)) :=
  match w with
  | [] => None
  | (p', c', m) :: w' =>
      if bool_decide (p' = p /\ c' = c) then Some (m, w')
      else r ← take_msg p c w'; Some (r.1, (p', c', m) :: r.2)
  end.

(** The transport answers the [i]-th dial: the dialled page gets a
    [connection] event, whose connection object is the other end; a dial
    of an unknown id fails with an error at the dialling page. *)
Definition accept (i : nat) (n : Net) : Net :=
  match dials n !! i with
  | None => n
  | Some (p, c, q) =>
      let n1 := mkNet (nodes n) (delete i (dials n)) (links n) (wire n) in
      match nodes n !! q with
      | None => run_at p PeerError n1
      | Some sq =>
          run_at q (Incoming p)
            (mkNet (nodes n1) (dials n1) (links n1 ++ [mkLink p c q (nextConn sq)]) (wire n1))
      end
  end.

(** The oldest message on [(p, c)] arrives at the other end. *)
Definition deliver (p : string) (c : ConnId) (n : Net) : Net :=
  match other_end (links n) p c, take_msg p c (wire n) with
  | Some (q, c'), Some (m, w') =>
      run_at q (ConnData c' (encode m)) (mkNet (nodes n) (dials n) (links n) w')
  | _, _ => n
  end.

Inductive NEvent :=
| NLocal (p : string) (ev : Event)   (** an event of page [p] alone *)
| NAccept (i : nat)                  (** the transport answers a dial *)
| NOpen (p : string) (c : ConnId)    (** an end of a connection opens *)
| NDeliver (p : string) (c : ConnId) (** a message sent on [(p, c)] arrives *)
| NClose (p : string) (c : ConnId).  (** a connection closes, at both ends *)

Definition net_step (n : Net) (e : NEvent) : Net :=
  match e with
  | NLocal p ev => run_at p ev n
  | NAccept i => accept i n
  | NOpen p c => run_at p (ConnOpen c) n
  | NDeliver p c => deliver p c n
  | NClose p c =>
      match other_end (links n) p c with
      | Some (q, c') => run_at q (ConnClose c') (run_at p (ConnClose c) n)
      | None => n
      end
  end.

Definition run_net (n : Net) (es : list NEvent) : Net := fold_left net_step es n.

(** Pages that have each run [hostOrJoin(name, hostId)]: one per
    [(peer id, name, hostId)], all on a page at [url] with a paused
    video at time 0. *)
Definition net_init (url : string) (ps : list (string * string * option string)) : Net :=
  mkNet (list_to_map (map (fun '(p, nm, h) => (p, hostOrJoin_init nm h url (mkVideo 0 true false))) ps))
        [] [] [].

(** The dials among a list of effects. *)
Definition dials_of (es : list Effect) : list (ConnId * string) :=
  omap (fun e => match e with EConnect c id => Some (c, id) | _ => None end) es.

(** Entries of the wire or of the dials, tagged with the sending page. *)
Definition tag {X} (p : string) (l : list (ConnId * X)) : list (string * ConnId * X) :=
  map (fun cx => (p, cx.1, cx.2)) l.

(** ** The transport *)

Lemma fold_post p es n :
  fold_left (post p) es n =
    mkNet (nodes n) (dials n ++ tag p (dials_of es)) (links n) (wire n ++ tag p (sends es)).
Proof.
  revert n. induction es as [|e es IH]; intros n; simpl.
  - rewrite !app_nil_r. by destruct n.
  - rewrite IH. destruct e; simpl; by rewrite <- ?app_assoc.
Qed.

(** A page that exists handles its event; the transport receives what
    it sent and dialled, in order. *)
Lemma run_at_some p ev n s :
  nodes n !! p = Some s ->
  run_at p ev n =
    mkNet (<[p := (node_step s ev).1]> (nodes n)) (dials n ++ tag p (dials_of (node_step s ev).2))
          (links n) (wire n ++ tag p (sends (node_step s ev).2)).
Proof. intros Hs. unfold run_at. rewrite Hs. by rewrite fold_post. Qed.

(** The oldest message of [(p, c)] is the first one sent on it. *)
Lemma take_msg_first p c m w w' :
  (forall m', (p, c, m') ∉ w) -> take_msg p c (w ++ (p, c, m) :: w') = Some (m, w ++ w').
Proof.
  induction w as [|[[p' c'] m'] w IH]; intros Hw; simpl.
  - by rewrite bool_decide_true.
  - rewrite bool_decide_false; [|intros [-> ->]; apply (Hw m'); by left].
    rewrite IH; [done|]. intros m'' Hin. apply (Hw m''). by right.
Qed.

(** ** Each end of a connection *)

(** The [open] of a connecting end: it is open and sends what its
    extra listener holds. *)
Lemma node_open s c cn :
  conns s !! c = Some cn -> c_status cn <> Closed ->
  node_step s (ConnOpen c) =
    (set_conns (alter (fun cn => mkConn (c_peer cn) Open (c_on_open cn)) c (conns s)) (nextConn s) s,
     map (ESend c) (c_on_open cn)).
Proof.
  intros Hc Hst. unfold node_step, deliverable. rewrite Hc, bool_decide_true by done.
  unfold handle, onConnOpen, final, effects. cbv [mbind M_bind gets]. rewrite Hc.
  unfold set_status, modify. simpl.
  rewrite (for_each_pure _ _ (fun m => [ESend c m])) by done. simpl.
  by rewrite (mjoin_map_singleton _ (ESend c)).
Qed.

(** Data on an open end is dispatched by the data listener, with the
    connection's peer as sender. *)
Lemma node_data s c cn data :
  conns s !! c = Some cn -> c_status cn = Open ->
  node_step s (ConnData c data) = (final (onData c (c_peer cn) data) s, effects (onData c (c_peer cn) data) s).
Proof.
  intros Hc Hst. unfold node_step, deliverable. rewrite Hc, bool_decide_true by done.
  unfold handle. unfold final, effects. cbv [mbind M_bind gets]. rewrite Hc.
  by destruct (onData c (c_peer cn) data s) as [[??]?].
Qed.

(** The data listener on a message a peer sent runs that message's case. *)
Lemma onData_greet c peer nm t s : onData c peer (encode (Greet nm t)) s = onGreet c peer nm t s.
Proof.
  unfold onData. cbv [mbind M_bind gets]. rewrite decode_encode. reflexivity.
Qed.

Lemma onData_returnGreet c peer nm s : onData c peer (encode (ReturnGreet nm)) s = onReturnGreet c peer nm s.
Proof.
  unfold onData. cbv [mbind M_bind gets]. rewrite decode_encode. reflexivity.
Qed.

(** [conn.send] effects and the messages they put on the wire. *)
Lemma sends_map_send c l : sends (map (ESend c) l) = map (pair c) l.
Proof. induction l; simpl; by f_equal. Qed.
Lemma dials_of_map_send c l : dials_of (map (ESend c) l) = [].
Proof. induction l; simpl; done. Qed.

(** A [greet] on an open connection enters its sender and changes no
    connection. *)
Lemma greet_step s c cn nm :
  conns s !! c = Some cn -> c_status cn = Open ->
  let s1 := step s (ConnData c (encode (Greet nm None))) in
  conns s1 = conns s /\ party s1 = JsObject.set (c_peer cn) (mkEntry nm c) (party s).
Proof.
  intros Hc Ho s1. subst s1. unfold step. simpl deliverable. rewrite Hc, bool_decide_true by done.
  unfold handle. rewrite final_gets, Hc. unfold onData. rewrite final_gets, decode_encode.
  unfold onGreet. rewrite (final_seq _ _ _ _ _ _ (enter_run _ _ _ s)).
  unfold final. cbv [mbind M_bind gets emit systemMessage]. simpl. split; reflexivity.
Qed.

(** ** Theorems *)

(** C7: The greet round trip (spec section 8): when page [A] holds a
    connection end [c] to [B] whose [open] listener sends [greet] first,
    and [B] holds the other end [c'], then once both ends open, the greet
    arrives and its reply arrives, [A]'s party has [B] under [B]'s name
    and connection [c], and [B]'s party has [A] under the greeted name
    and connection [c'], although only [A] sent [greet]. *)
Theorem greet_round_trip n A B c c' sA sB nm rest :
  A <> B ->
  nodes n !! A = Some sA -> nodes n !! B = Some sB ->
  conns sA !! c = Some (mkConn B Connecting (Greet nm None :: rest)) ->
  conns sB !! c' = Some (mkConn A Connecting []) ->
  other_end (links n) A c = Some (B, c') -> other_end (links n) B c' = Some (A, c) ->
  (forall m, (A, c, m) ∉ wire n) -> (forall m, (B, c', m) ∉ wire n) ->
  exists sA' sB',
    nodes (run_net n [NOpen A c; NOpen B c'; NDeliver A c; NDeliver B c']) !! A = Some sA' /\
    nodes (run_net n [NOpen A c; NOpen B c'; NDeliver A c; NDeliver B c']) !! B = Some sB' /\
    (party sA').[B] = Some (mkEntry (myName sB) c) /\
    (party sB').[A] = Some (mkEntry nm c').
Proof.
  intros Hne HA HB HcA HcB HlA HlB HwA HwB.
  remember (run_net n [NOpen A c; NOpen B c'; NDeliver A c; NDeliver B c']) as n' eqn:Hn'.
  unfold run_net in Hn'. cbn [fold_left net_step] in Hn'.
  rewrite (run_at_some A _ n sA HA), (node_open sA c _ HcA) in Hn' by done. simpl in Hn'.
  rewrite (run_at_some B _ _ sB) in Hn' by (simpl; rewrite lookup_insert_ne; done).
  rewrite (node_open sB c' _ HcB) in Hn' by done. simpl in Hn'.
  rewrite !sends_map_send, !dials_of_map_send in Hn'. simpl in Hn'. rewrite !app_nil_r in Hn'.
  set (sA1 := set_conns _ (nextConn sA) sA) in Hn'. set (sB1 := set_conns _ (nextConn sB) sB) in Hn'.
  assert (conns sA1 !! c = Some (mkConn B Open (Greet nm None :: rest))) as HcA1
    by (subst sA1; simpl; rewrite lookup_alter_eq, HcA; reflexivity).
  assert (conns sB1 !! c' = Some (mkConn A Open [])) as HcB1
    by (subst sB1; simpl; rewrite lookup_alter_eq, HcB; reflexivity).
  unfold deliver at 2 in Hn'. simpl in Hn'. rewrite HlA, take_msg_first in Hn' by done.
  rewrite (run_at_some B _ _ sB1) in Hn' by (simpl; by rewrite lookup_insert_eq).
  rewrite (node_data sB1 c' _ _ HcB1) in Hn' by done. simpl c_peer in Hn'.
  unfold final, effects in Hn'. rewrite onData_greet, greet_run in Hn'. simpl in Hn'.
  unfold deliver in Hn'. simpl in Hn'. rewrite HlB, app_nil_r, take_msg_first in Hn'.
  2: { intros m Hm. apply elem_of_app in Hm as [Hm|Hm]; [by apply (HwB m)|].
       unfold tag in Hm. apply list_elem_of_In, in_map_iff in Hm as ([? ?] & ? & _). congruence. }
  rewrite (run_at_some A _ _ sA1) in Hn' by (simpl; rewrite !lookup_insert_ne by done; by rewrite lookup_insert_eq).
  rewrite (node_data sA1 c _ _ HcA1) in Hn' by done. simpl c_peer in Hn'.
  unfold final, effects in Hn'. rewrite onData_returnGreet in Hn'. unfold onReturnGreet in Hn'. rewrite enter_run in Hn'.
  subst n'. simpl. rewrite lookup_insert_eq, lookup_insert_ne, lookup_insert_eq by done.
  eexists _, _. split_and!; [done|done| |]; simpl; by rewrite JsObject.get_set_eq.
Qed.

Lemma greet_round_trip_witness :
  let n := run_net (net_init "u" [("H", "Hana", None); ("J", "Jo", Some "H")])
                   [NLocal "H" (PeerOpen "H"); NLocal "J" (PeerOpen "J"); NAccept 0] in
  exists sA' sB',
    nodes (run_net n [NOpen "J" 0; NOpen "H" 0; NDeliver "J" 0; NDeliver "H" 0]) !! "J" = Some sA' /\
    nodes (run_net n [NOpen "J" 0; NOpen "H" 0; NDeliver "J" 0; NDeliver "H" 0]) !! "H" = Some sB' /\
    (party sA').["H"] = Some (mkEntry "Hana" 0) /\
    (party sB').["J"] = Some (mkEntry "Jo" 0).
Proof.
  intros n.
  assert (myName (default (hostOrJoin_init "" None "" (mkVideo 0 true false)) (nodes n !! "H")) = "Hana")
    as <- by (vm_compute; reflexivity).
  apply (greet_round_trip n "J" "H" 0 0 (default (hostOrJoin_init "" None "" (mkVideo 0 true false)) (nodes n !! "J"))
           (default (hostOrJoin_init "" None "" (mkVideo 0 true false)) (nodes n !! "H")) "Jo" [RequestConnections]);
    try (vm_compute; reflexivity); try done; vm_compute; intros m Hm; inversion Hm.
Defined.

(** C20: The snapshot a host sends a joiner lists the joiner itself
    (spec section 8 expects the joiner to learn only the other members):
    for any state of the host, when a [greet] and then a
    [requestConnections] arrive on an open connection, in the order the
    joiner's [open] listener sends them (popup.js:486-487) and an ordered
    connection delivers them, the [greet] has entered the joiner, so the
    [respondConnections] reply, [Object.keys(party)], contains the
    joiner's id. *)
Theorem snapshot_lists_joiner s c cn nm :
  conns s !! c = Some cn -> c_status cn = Open ->
  let s1 := step s (ConnData c (encode (Greet nm None))) in
  deliverable (ConnData c (encode RequestConnections)) s1 = true /\
  effects (handle (ConnData c (encode RequestConnections))) s1 =
    [ESend c (RespondConnections (JsObject.keys (party s1)) (currentTime (video s1)) (paused (video s1)))] /\
  c_peer cn ∈ JsObject.keys (party s1).
Proof.
  intros Hc Ho s1. destruct (greet_step s c cn nm Hc Ho) as [Hcs Hp]. fold s1 in Hcs, Hp.
  split; [simpl; rewrite Hcs, Hc; by apply bool_decide_true|]. split.
  - unfold effects, handle. cbv [mbind M_bind gets]. rewrite Hcs, Hc. unfold onData.
    cbv [mbind M_bind gets]. rewrite decode_encode. reflexivity.
  - rewrite Hp. apply JsObject.elem_of_keys. rewrite JsObject.get_set_eq. by eexists.
Qed.

Lemma snapshot_lists_joiner_witness :
  let s := set_conns {[0%nat := mkConn "J" Open []]} 1 (hostOrJoin_init "Hana" None "u" (mkVideo 0 true false)) in
  conns s !! 0%nat = Some (mkConn "J" Open []) /\
  (let s1 := step s (ConnData 0 (encode (Greet "Jo" None))) in
   deliverable (ConnData 0 (encode RequestConnections)) s1 = true /\
   effects (handle (ConnData 0 (encode RequestConnections))) s1 =
     [ESend 0 (RespondConnections (JsObject.keys (party s1)) (currentTime (video s1)) (paused (video s1)))] /\
   c_peer (mkConn "J" Open []) ∈ JsObject.keys (party s1)).
Proof.
  intros s. split; [reflexivity|]. apply (snapshot_lists_joiner s 0 (mkConn "J" Open []) "Jo"); reflexivity.
Defined.

End Network.
