(* ===== verification/Popup.v ===== *)
(** * The popup

    popup.js:1-110 and 501-503: the extension's popup page.  Its buttons
    inject PeerJS and [hostOrJoin] into the active tab (host, join), open
    a one-shot peer that asks a page for its URL (go to a peer's URL), or
    inject [findUrl] to read the URL of the page's [<iframe>]; the runtime
    listener opens the URL [findUrl] reports after a confirmation.

    The popup's handlers are [async]: each [await] ends a turn of the event
    loop, and the rest of the handler runs when the promise resolves,
    interleaved with any other event (typing in the inputs, another
    click).  The pending rest of a handler is a continuation [Cont];
    [Resume i r] resolves the [i]-th pending promise with the tab the
    query returned, and [Reject i what] rejects it ([chrome.tabs.query] or
    the injection of peerjs.min.js failing, on a page where scripts
    cannot be injected): the handler then ends with an unhandled
    rejection and runs nothing after its [await].  Every interleaving
    is one sequence of events.  The
    one-shot peers of "go to" are kept with the stage their listeners
    have reached.

    The calls into the browser ([chrome.scripting.executeScript],
    [chrome.storage.local.set], [chrome.tabs.create], [alert],
    [confirm], [new Peer], [peer.connect], [conn.send], [peer.destroy])
    are effects [PEffect]. *)

From S2P Require Import Prelude.
From S2P Require Import JsObject.
From S2P Require Import Message.
From S2P Require Import State.
From S2P Require Import Membership.
From S2P Require Import Peer.

Module Popup.
Import Message State Peer.

(** The rest of a click handler, waiting on a promise. *)
Inductive Cont :=
| KHostTab (name : string)                         (** [await getCurrentTab()] of host *)
| KHostLib (name : string) (tab : Z)               (** [await executeScript(peerjs)] of host *)
| KJoinTab (name peerId : string)                  (** [await getCurrentTab()] of join *)
| KJoinLib (name peerId : string) (tab : Z)        (** [await executeScript(peerjs)] of join *)
| KFinderTab.                                      (** [await getCurrentTab()] of urlFinder *)

(** How far the listeners of a "go to" peer have got. *)
Inductive GStage := GFresh | GDialled | GConnected | GDestroyed.

#[export] Instance GStage_eq_dec : EqDecision GStage.
Proof. solve_decision. Defined.

Record GPeer := mkGPeer { g_target : string; g_stage : GStage }.

Record PState := mkPState {
  nameInput : string;
  peerIdInput : string;
  pending : list Cont;
  gpeers : list GPeer
}.

Inductive PEffect :=
| PExecFile (tab : Z) (file : string)                      (** [executeScript({files})] *)
| PExecHostOrJoin (tab : Z) (name : string) (hostId : option string)
                                                           (** [executeScript({func: hostOrJoin, args})] *)
| PExecFindUrl (tab : Z)                                   (** [executeScript({func: findUrl})] *)
| PStore (name : string)                                   (** [chrome.storage.local.set({name})] *)
| PAlert (text : string)
| PConfirm (url : jsval)                                   (** [confirm(`... ${url}?`)] *)
| PCreateTab (url : jsval)                                 (** [chrome.tabs.create({url})] *)
| PNewPeer                                                 (** [new Peer(null, ...)] *)
| PConnect (g : nat) (id : string)                         (** [peer.connect(peerId)] of go-to peer [g] *)
| PSend (g : nat) (data : jsval)                           (** [conn.send(data)] of go-to peer [g] *)
| PDestroy (g : nat)                                       (** [peer.destroy()] of go-to peer [g] *)
| PThrow (what : string).                                  (** an unhandled rejection *)

Inductive PEvent :=
| Load (stored : option string)         (** the [chrome.storage.local.get] callback *)
| TypeName (v : string)
| TypePeerId (v : string)
| ClickHost
| ClickJoin
| ClickGoTo
| ClickFinder
| Resume (i : nat) (tab : option Z)     (** the [i]-th pending promise resolves *)
| Reject (i : nat) (what : string)      (** the [i]-th pending promise rejects *)
| GoOpen (g : nat)                      (** [peer.on('open')] of go-to peer [g] *)
| GoConnOpen (g : nat)                  (** [conn.on('open')] of go-to peer [g] *)
| GoData (g : nat) (data : jsval)       (** [conn.on('data')] of go-to peer [g] *)
| RuntimeMessage (request : jsval) (confirmed : bool).
                                        (** [chrome.runtime.onMessage], and the user's answer to [confirm] *)

Definition set_pending (ks : list Cont) (p : PState) : PState :=
  mkPState (nameInput p) (peerIdInput p) ks (gpeers p).
Definition set_gpeers (gs : list GPeer) (p : PState) : PState :=
  mkPState (nameInput p) (peerIdInput p) (pending p) gs.

(** [nameInput.value = result.name]: the [value] setter converts its
    argument to a string, so a missing [name] ([undefined]) is written
    as "undefined". *)
Definition input_value (v : option string) : string :=
  match v with Some s => s | None => "undefined" end.

(** [if (!peerId)] on an input's value: only the empty string is falsy. *)
Definition falsy_str (s : string) : bool := String.eqb s "".

(** [(await getCurrentTab()).id]: the query yields the active tab or
    [undefined], whose [.id] throws. *)
Definition tab_error : string := "Cannot read properties of undefined (reading 'id')".

(** The rest of a handler when its promise resolves with [tab]. *)
Definition resume (k : Cont) (tab : option Z) (p : PState) : PState * list PEffect :=
  match k with
  | KHostTab name =>
      match tab with
      | Some t => (set_pending (pending p ++ [KHostLib name t]) p, [PExecFile t "peerjs.min.js"])
      | None => (p, [PThrow tab_error])
      end
  | KHostLib name t => (p, [PExecHostOrJoin t name None; PStore (nameInput p)])
  | KJoinTab name peerId =>
      match tab with
      | Some t => (set_pending (pending p ++ [KJoinLib name peerId t]) p, [PExecFile t "peerjs.min.js"])
      | None => (p, [PThrow tab_error])
      end
  | KJoinLib name peerId t => (p, [PExecHostOrJoin t name (Some peerId); PStore (nameInput p)])
  | KFinderTab =>
      match tab with
      | Some t => (p, [PExecFindUrl t])
      | None => (p, [PThrow tab_error])
      end
  end.

(** [data.action === 'returnUrl'] *)
Definition is_returnUrl (data : jsval) : bool :=
  match field "action" data with JStr a => String.eqb a "returnUrl" | _ => false end.

(** The [data] listener of a go-to connection, popup.js:72-78. *)
Definition goto_data (g : nat) (data : jsval) : list PEffect :=
  if is_returnUrl data then [PCreateTab (field "url" data); PDestroy g] else [].

(** The [chrome.runtime.onMessage] listener, popup.js:94-110. *)
Definition onRuntimeMessage (request : jsval) (confirmed : bool) : list PEffect :=
  if is_returnUrl request then
    PConfirm (field "url" request) :: (if confirmed then [PCreateTab (field "url" request)] else [])
  else [].

(** [findUrl], popup.js:501-504, run in the page: the [src] of its first
    [<iframe>] ([None] when there is none, and [.src] throws). *)
Definition findUrl (iframe_src : option string) : option jsval :=
  (fun u => JObj [("action", JStr "returnUrl"); ("url", JStr u)]) <$> iframe_src.

(** The stage of go-to peer [g] moves from [from] to [to]. *)
Definition advance (g : nat) (from to : GStage) (p : PState) : option PState :=
  match gpeers p !! g with
  | Some gp =>
      if bool_decide (g_stage gp = from) then Some (set_gpeers (<[g := mkGPeer (g_target gp) to]> (gpeers p)) p)
      else None
  | None => None
  end.

Definition popup_step (p : PState) (ev : PEvent) : PState * list PEffect :=
  match ev with
  | Load stored => (mkPState (input_value stored) (peerIdInput p) (pending p) (gpeers p), [])
  | TypeName v => (mkPState v (peerIdInput p) (pending p) (gpeers p), [])
  | TypePeerId v => (mkPState (nameInput p) v (pending p) (gpeers p), [])
  | ClickHost => (set_pending (pending p ++ [KHostTab (nameInput p)]) p, [])
  | ClickJoin =>
      if falsy_str (peerIdInput p) then (p, [PAlert "Enter a peer id"])
      else (set_pending (pending p ++ [KJoinTab (nameInput p) (peerIdInput p)]) p, [])
  | ClickGoTo =>
      if falsy_str (peerIdInput p) then (p, [PAlert "Enter a peer id"])
      else (set_gpeers (gpeers p ++ [mkGPeer (peerIdInput p) GFresh]) p, [PNewPeer])
  | ClickFinder => (set_pending (pending p ++ [KFinderTab]) p, [])
  | Resume i tab =>
      match pending p !! i with
      | Some k => resume k tab (set_pending (delete i (pending p)) p)
      | None => (p, [])
      end
  | Reject i what =>
      match pending p !! i with
      | Some _ => (set_pending (delete i (pending p)) p, [PThrow what])
      | None => (p, [])
      end
  | GoOpen g =>
      match advance g GFresh GDialled p, gpeers p !! g with
      | Some p', Some gp => (p', [PConnect g (g_target gp)])
      | _, _ => (p, [])
      end
  | GoConnOpen g =>
      match advance g GDialled GConnected p with
      | Some p' => (p', [PSend g (encode GetUrl)])
      | None => (p, [])
      end
  | GoData g data =>
      match gpeers p !! g with
      | Some gp =>
          if bool_decide (g_stage gp = GConnected) then
            if is_returnUrl data then
              (set_gpeers (<[g := mkGPeer (g_target gp) GDestroyed]> (gpeers p)) p, goto_data g data)
            else (p, [])
          else (p, [])
      | None => (p, [])
      end
  | RuntimeMessage request confirmed => (p, onRuntimeMessage request confirmed)
  end.

(** The popup as it opens, before the stored name arrives. *)
Definition popup_init : PState := mkPState "" "" [] [].

Definition run_popup (p : PState) (evs : list PEvent) : PState * list PEffect :=
  fold_left (fun r ev => let r' := popup_step r.1 ev in (r'.1, r.2 ++ r'.2)) evs (p, []).

(** ** Theorems *)

Lemma falsy_str_false s : s <> "" -> falsy_str s = false.
Proof. intros H. by apply String.eqb_neq. Qed.

(** Join and go-to refuse an empty peer id with an alert, and start
    nothing. *)
Theorem empty_peer_id_refused p :
  peerIdInput p = "" ->
  popup_step p ClickJoin = (p, [PAlert "Enter a peer id"]) /\
  popup_step p ClickGoTo = (p, [PAlert "Enter a peer id"]).
Proof. intros H. unfold popup_step, falsy_str. by rewrite H. Qed.

Lemma empty_peer_id_refused_witness :
  popup_step (mkPState "Jo" "" [] []) ClickJoin = (mkPState "Jo" "" [] [], [PAlert "Enter a peer id"]) /\
  popup_step (mkPState "Jo" "" [] []) ClickGoTo = (mkPState "Jo" "" [] [], [PAlert "Enter a peer id"]).
Proof. apply empty_peer_id_refused. reflexivity. Defined.

(** The join button, run to the end with no other event in between:
    PeerJS is injected into the active tab, then [hostOrJoin(name,
    peerId)], and the name is stored; nothing is left pending. *)
Theorem join_flow p t :
  peerIdInput p <> "" -> pending p = [] ->
  run_popup p [ClickJoin; Resume 0 (Some t); Resume 0 None] =
    (p, [PExecFile t "peerjs.min.js"; PExecHostOrJoin t (nameInput p) (Some (peerIdInput p));
         PStore (nameInput p)]).
Proof.
  intros Hid Hp. destruct p as [nm pid ks gs]; simpl in *; subst ks.
  unfold run_popup; simpl. rewrite falsy_str_false by done. reflexivity.
Qed.

Lemma join_flow_witness :
  run_popup (mkPState "Jo" "H" [] []) [ClickJoin; Resume 0 (Some 7%Z); Resume 0 None] =
    (mkPState "Jo" "H" [] [], [PExecFile 7 "peerjs.min.js"; PExecHostOrJoin 7 "Jo" (Some "H"); PStore "Jo"]).
Proof. apply (join_flow (mkPState "Jo" "H" [] [])); simpl; congruence. Defined.

(** C32: The host handler reads the name when clicked but stores the input's
    value when the injection has finished: a name typed in between is
    stored, while the page runs with the old one. *)
Theorem host_stores_later_name p t v :
  pending p = [] ->
  run_popup p [ClickHost; TypeName v; Resume 0 (Some t); Resume 0 None] =
    (mkPState v (peerIdInput p) [] (gpeers p),
     [PExecFile t "peerjs.min.js"; PExecHostOrJoin t (nameInput p) None; PStore v]).
Proof. intros Hp. destruct p as [nm pid ks gs]; simpl in *; subst ks. reflexivity. Qed.

Lemma host_stores_later_name_witness :
  run_popup (mkPState "Hana" "" [] []) [ClickHost; TypeName "Hannah"; Resume 0 (Some 3%Z); Resume 0 None] =
    (mkPState "Hannah" "" [] [],
     [PExecFile 3 "peerjs.min.js"; PExecHostOrJoin 3 "Hana" None; PStore "Hannah"]).
Proof. apply (host_stores_later_name (mkPState "Hana" "" [] [])). reflexivity. Defined.

(** C33: With no stored name, the storage callback writes "undefined"
    into the name input, whatever was typed before it arrived, and a host
    or join click that follows runs the page under the name "undefined"
    and stores it. *)
Theorem no_stored_name_undefined p t :
  pending p = [] ->
  run_popup p [Load None; ClickHost; Resume 0 (Some t); Resume 0 None] =
    (mkPState "undefined" (peerIdInput p) [] (gpeers p),
     [PExecFile t "peerjs.min.js"; PExecHostOrJoin t "undefined" None; PStore "undefined"]) /\
  (peerIdInput p <> "" ->
   run_popup p [Load None; ClickJoin; Resume 0 (Some t); Resume 0 None] =
     (mkPState "undefined" (peerIdInput p) [] (gpeers p),
      [PExecFile t "peerjs.min.js"; PExecHostOrJoin t "undefined" (Some (peerIdInput p)); PStore "undefined"])).
Proof.
  intros Hp. destruct p as [nm pid ks gs]; simpl in *; subst ks. split; [reflexivity|].
  intros Hid. unfold run_popup; simpl. rewrite falsy_str_false by done. reflexivity.
Qed.

Lemma no_stored_name_undefined_witness :
  pending (mkPState "Hana" "H" [] []) = [] /\
  (run_popup (mkPState "Hana" "H" [] []) [Load None; ClickHost; Resume 0 (Some 3%Z); Resume 0 None] =
     (mkPState "undefined" "H" [] [],
      [PExecFile 3 "peerjs.min.js"; PExecHostOrJoin 3 "undefined" None; PStore "undefined"]) /\
   ("H" <> "" ->
    run_popup (mkPState "Hana" "H" [] []) [Load None; ClickJoin; Resume 0 (Some 3%Z); Resume 0 None] =
      (mkPState "undefined" "H" [] [],
       [PExecFile 3 "peerjs.min.js"; PExecHostOrJoin 3 "undefined" (Some "H"); PStore "undefined"]))).
Proof. split; [reflexivity|]. apply (no_stored_name_undefined (mkPState "Hana" "H" [] [])). reflexivity. Defined.

(** C34: A rejected injection aborts the click: when the injection of
    peerjs.min.js is rejected, the host and join handlers end with the
    rejection before [hostOrJoin] is injected or the name stored, and
    the popup is left as before the click. *)
Theorem injection_rejected p t what :
  pending p = [] ->
  run_popup p [ClickHost; Resume 0 (Some t); Reject 0 what] =
    (p, [PExecFile t "peerjs.min.js"; PThrow what]) /\
  (peerIdInput p <> "" ->
   run_popup p [ClickJoin; Resume 0 (Some t); Reject 0 what] =
     (p, [PExecFile t "peerjs.min.js"; PThrow what])).
Proof.
  intros Hp. destruct p as [nm pid ks gs]; simpl in *; subst ks. split; [reflexivity|].
  intros Hid. unfold run_popup; simpl. rewrite falsy_str_false by done. reflexivity.
Qed.

Lemma injection_rejected_witness :
  pending (mkPState "Hana" "H" [] []) = [] /\
  (run_popup (mkPState "Hana" "H" [] []) [ClickHost; Resume 0 (Some 3%Z); Reject 0 "Cannot access a chrome:// URL"] =
     (mkPState "Hana" "H" [] [], [PExecFile 3 "peerjs.min.js"; PThrow "Cannot access a chrome:// URL"]) /\
   ("H" <> "" ->
    run_popup (mkPState "Hana" "H" [] []) [ClickJoin; Resume 0 (Some 3%Z); Reject 0 "Cannot access a chrome:// URL"] =
      (mkPState "Hana" "H" [] [], [PExecFile 3 "peerjs.min.js"; PThrow "Cannot access a chrome:// URL"]))).
Proof. split; [reflexivity|]. apply (injection_rejected (mkPState "Hana" "H" [] [])). reflexivity. Defined.

(** C26: The go-to exchange with a page: the go-to peer sends [getUrl]; the
    page's data listener answers [returnUrl] with its URL on the same
    connection; delivered to the go-to peer, that answer opens a tab at
    the page's URL and destroys the peer. *)
Theorem goto_opens_page_url p s c peer :
  peerIdInput p <> "" -> gpeers p = [] ->
  let (p1, es1) := run_popup p [ClickGoTo; GoOpen 0; GoConnOpen 0] in
  es1 = [PNewPeer; PConnect 0 (peerIdInput p); PSend 0 (encode GetUrl)] /\
  onData c peer (encode GetUrl) s = (s, [ESend c (ReturnUrl (url s))], inr tt) /\
  popup_step p1 (GoData 0 (encode (ReturnUrl (url s)))) =
    (set_gpeers [mkGPeer (peerIdInput p) GDestroyed] p, [PCreateTab (JStr (url s)); PDestroy 0]).
Proof.
  intros Hid Hg. destruct p as [nm pid ks gs]; simpl in *; subst gs.
  unfold run_popup; simpl. rewrite falsy_str_false by done.
  split_and!; reflexivity.
Qed.

Lemma goto_opens_page_url_witness :
  let (p1, es1) := run_popup (mkPState "" "H" [] []) [ClickGoTo; GoOpen 0; GoConnOpen 0] in
  es1 = [PNewPeer; PConnect 0 "H"; PSend 0 (encode GetUrl)] /\
  onData 4 "G" (encode GetUrl) (hostOrJoin_init "Hana" None "https://v.example/w" (mkVideo 0 true false)) =
    (hostOrJoin_init "Hana" None "https://v.example/w" (mkVideo 0 true false),
     [ESend 4 (ReturnUrl "https://v.example/w")], inr tt) /\
  popup_step p1 (GoData 0 (encode (ReturnUrl "https://v.example/w"))) =
    (set_gpeers [mkGPeer "H" GDestroyed] (mkPState "" "H" [] []),
     [PCreateTab (JStr "https://v.example/w"); PDestroy 0]).
Proof.
  exact (goto_opens_page_url (mkPState "" "H" [] [])
           (hostOrJoin_init "Hana" None "https://v.example/w" (mkVideo 0 true false)) 4 "G"
           ltac:(simpl; congruence) eq_refl).
Defined.

(** [findUrl]'s report reaches the runtime listener, which asks for
    confirmation and opens the URL only if the user confirms; a page
    without an [<iframe>] reports nothing. *)
Theorem finder_confirms u confirmed :
  (fun r => onRuntimeMessage r confirmed) <$> findUrl (Some u) =
    Some (PConfirm (JStr u) :: if confirmed then [PCreateTab (JStr u)] else []) /\
  findUrl None = None.
Proof. split; reflexivity. Qed.

End Popup.
