(* ===== verification/Page.v ===== *)
(** * The page and its document, composed

    [Peer.step] runs the listeners of an event on the closure state [St];
    what they do to the document is, in [St], a list of [ERender] effects
    and the two fields [counter] and [title], the model of
    [partyCounterAbbr.textContent] and [partyCounterAbbr.title].  A [Page]
    puts the closure state, the document and the widget [build] made
    side by side: [page_step] runs [Peer.step] and applies the step's
    rendered lines to the message list ([Widget.render_effects]), then
    writes the counter and title the listeners left ([paint], the
    assignments of [updatePartyCounter] and [updateTitle],
    popup.js:174, 178).  [paint] writes on every step: on a step that
    called neither function it writes back what the abbr already shows
    ([page_step_shows] keeps that coupling), so the document is the one
    the code leaves.  [page_init] is [hostOrJoin] (popup.js:112-206):
    the closure state [hostOrJoin_init] next to the widget [build] adds
    to the page; a page whose video has no parent gets no [Page] (the
    code throws before installing any listener).

    [shows n p L] is the coupling of the two sides: the abbr shows the
    closure state's [counter] and [title], and the message list holds one
    paragraph per line of [L], read by [Widget.para], all built from ids
    above the widget's.  It holds of [page_init] with no line, and every
    step keeps it, adding the step's rendered lines: the message list
    holds the transcript of the run ([page_transcript]), the counter
    shows the party ([page_counter_shows_party]), and the widget, wired
    as [build] left it with every line linked under the message list,
    keeps clicks and keys on it from the page
    ([page_stops_input_events]). *)

From S2P Require Import Prelude.
From S2P Require Import JsObject.
From S2P Require Import JsNum.
From S2P Require Import Message.
From S2P Require Import State.
From S2P Require Import Playback.
From S2P Require Import Membership.
From S2P Require Import Chat.
From S2P Require Import Peer.
From S2P Require Import Dom.
From S2P Require Import Widget.
From S2P Require Import Invariant.

Module Page.
Import Message State Peer Dom Widget Invariant.

(** The running page: [hostOrJoin]'s closure state, the document and the
    nodes of the widget. *)
Record Page := mkPage { pst : St; pdoc : Doc; pw : Widget }.

(** [partyCounterAbbr.textContent = ...] (popup.js:178) and
    [partyCounterAbbr.title = titleText] (popup.js:174). *)
Definition paint (w : Widget) (s : St) : DM unit :=
  set_textContent (partyCounterAbbr w) (counter s);;
  set_title (partyCounterAbbr w) (State.title s).

(** [hostOrJoin(myName, hostId)] on the page [d0] whose video is [ve]. *)
Definition page_init (myName : string) (hostId : option string) (url : string) (v0 : Video)
    (ve : NodeId) (d0 : Doc) : option Page :=
  match build ve d0 with
  | (d1, Some w) => Some (mkPage (hostOrJoin_init myName hostId url v0) d1 w)
  | (_, None) => None
  end.

(** The effects of the listeners of one event ([Peer.step]'s). *)
Definition step_effects (s : St) (ev : Event) : list Effect :=
  if deliverable ev s then effects (handle ev) s else [].

(** One event: the listeners run, their lines are rendered and the
    counter and title they left are written. *)
Definition page_step (p : Page) (ev : Event) : Page :=
  let s' := step (pst p) ev in
  mkPage s' ((render_effects (messageContainer (pw p)) (step_effects (pst p) ev);;
              paint (pw p) s') (pdoc p)).1 (pw p).

Definition page_run (p : Page) (evs : list Event) : Page := fold_left page_step evs p.

(** The effects of a run of events, in order. *)
Fixpoint run_effects (s : St) (evs : list Event) : list Effect :=
  match evs with
  | [] => []
  | ev :: evs => step_effects s ev ++ run_effects (step s ev) evs
  end.

(** The coupling of the closure state and the document, for the widget
    [build] made from the id [n]: the widget keeps its wiring, the abbr
    ([3 + n]) shows the closure state's counter and title, and the
    message list ([5 + n]) holds the paragraphs of [L], whose nodes have
    ids from [7 + n] on. *)
Definition shows (n : NodeId) (p : Page) (L : list (string * string)) : Prop :=
  let ns := nodes (pdoc p) in
  pw p = widget_at n /\ 7 + n <= next (pdoc p) /\ fresh (pdoc p) /\
  (exists vp, wired ns n vp) /\
  field_of textContent ns (3 + n) = Some (counter (pst p)) /\
  field_of Dom.title ns (3 + n) = Some (State.title (pst p)) /\
  exists ps, field_of childNodes ns (5 + n) = Some ps /\ mapM (para ns) ps = Some L /\
    Forall (fun q => forall k, in_para ns q k -> 7 + n <= k < next (pdoc p)) ps /\
    Forall (para_links ns (5 + n)) ps.

(** ** Lemmas *)

Lemma rendered_app es1 es2 : rendered (es1 ++ es2) = rendered es1 ++ rendered es2.
Proof. induction es1 as [|[] es1 IH]; simpl; rewrite ?IH; done. Qed.

Lemma page_run_app p evs1 evs2 : page_run p (evs1 ++ evs2) = page_run (page_run p evs1) evs2.
Proof. apply fold_left_app. Qed.

Lemma page_run_widget p evs : pw (page_run p evs) = pw p.
Proof. revert p. induction evs as [|ev evs IH]; intros p; [done|]. simpl. by rewrite IH. Qed.

(** Paragraphs whose nodes lie in a range no write touched read the same. *)
Lemma lines_frame ns ns' ps lo hi :
  Forall (fun q => forall k, in_para ns q k -> lo <= k < hi) ps ->
  (forall k, lo <= k < hi -> ns' !! k = ns !! k) ->
  mapM (para ns') ps = mapM (para ns) ps /\
  Forall (fun q => forall k, in_para ns' q k -> lo <= k < hi) ps.
Proof.
  intros Hps Hfr. induction Hps as [|q ps Hq Hps [IH1 IH2]]; [done|].
  assert (Hqq : ns' !! q = ns !! q) by (apply Hfr, Hq; by left).
  simpl. rewrite (para_frame ns ns' q), IH1 by (intros k Hk; apply Hfr, Hq; exact Hk).
  split; [done|]. constructor; [|done].
  intros k Hk. apply Hq. unfold in_para in *. by rewrite <- Hqq.
Qed.

(** So do their links. *)
Lemma para_links_frame ns ns' mc q lo hi :
  (forall k, in_para ns q k -> lo <= k < hi) -> (forall k, lo <= k < hi -> ns' !! k = ns !! k) ->
  para_links ns mc q -> para_links ns' mc q.
Proof.
  intros Hq Hfr [Hl Hk]. assert (Hqq : ns' !! q = ns !! q) by (apply Hfr, Hq; by left).
  split; [by apply (links_eq ns)|]. intros k Hk' Hne.
  assert (Hin : in_para ns q k) by (unfold in_para in *; by rewrite <- Hqq).
  apply (links_eq ns); [apply Hfr, Hq, Hin|by apply Hk].
Qed.

(** The wiring depends only on the parents and listeners of the
    widget's nodes. *)
Lemma wired_frame ns ns' n vp :
  wired ns n vp ->
  (forall k, n <= k < 7 + n -> field_of parentNode ns' k = field_of parentNode ns k) ->
  (forall k, n <= k < 7 + n -> field_of listeners ns' k = field_of listeners ns k) ->
  wired ns' n vp.
Proof.
  intros (H0 & H1 & H2 & H3 & H4 & H5 & H6) Hp Hl.
  split_and!; (eapply links_frame; [eassumption|apply Hp; lia|apply Hl; lia]).
Qed.

(** [paint] writes the abbr's two fields and nothing else. *)
Lemma paint_run w s d y :
  fresh d -> nodes d !! partyCounterAbbr w = Some y ->
  exists ns, paint w s d = (mkDoc ns (next d), tt) /\ fresh (mkDoc ns (next d)) /\
    (forall k, k <> partyCounterAbbr w -> ns !! k = nodes d !! k) /\
    field_of textContent ns (partyCounterAbbr w) = Some (counter s) /\
    field_of Dom.title ns (partyCounterAbbr w) = Some (State.title s) /\
    (forall k, field_of parentNode ns k = field_of parentNode (nodes d) k) /\
    (forall k, field_of listeners ns k = field_of listeners (nodes d) k).
Proof.
  intros Hf Hy.
  exists (alter (with_title (State.title s)) (partyCounterAbbr w)
            (alter (with_text (counter s)) (partyCounterAbbr w) (nodes d))).
  split; [reflexivity|]. split; [|split; [|split; [|split; [|split]]]].
  - intros k z. cbn [nodes next]. destruct (decide (k = partyCounterAbbr w)) as [->|Hk].
    + intros _. exact (Hf _ _ Hy).
    + rewrite !nodes_alter_ne by congruence. apply Hf.
  - intros k Hk. by rewrite !nodes_alter_ne by congruence.
  - unfold field_of. chase. by rewrite Hy.
  - unfold field_of. chase. by rewrite Hy.
  - intros k. by rewrite !field_alter.
  - intros k. by rewrite !field_alter.
Qed.

(** Rendering lines leaves the parents and listeners of the old nodes. *)
Lemma render_effects_fields {B} (g : Node -> B) mc x new d d' :
  (forall cs y, g (with_children cs y) = g y) ->
  nodes d !! mc = Some x -> nodes d' !! mc = Some (with_children (childNodes x ++ new) x) ->
  (forall k, k < next d -> k <> mc -> nodes d' !! k = nodes d !! k) ->
  forall k, k < next d -> field_of g (nodes d') k = field_of g (nodes d) k.
Proof.
  intros Hg Hx Hx' Hfr k Hk. destruct (decide (k = mc)) as [->|].
  - unfold field_of. rewrite Hx, Hx'. simpl. by rewrite Hg.
  - unfold field_of. by rewrite Hfr.
Qed.

(** Every step keeps the coupling, with the step's rendered lines added. *)
Lemma page_step_shows n p ev L :
  shows n p L -> shows n (page_step p ev) (L ++ rendered (step_effects (pst p) ev)).
Proof.
  destruct p as [s d w]. unfold shows, page_step. cbn [pst pdoc pw].
  intros (-> & Hn & Hf & [vp Hw] & Ht & Hti & ps & Hch & Hl & Hin & Hpl0).
  set (es := step_effects s ev). set (s' := step s ev). cbn [messageContainer partyCounterAbbr widget_at].
  unfold field_of in Hch. destruct (nodes d !! (5 + n)) as [x|] eqn:Hx; [|done].
  injection Hch as <-.
  destruct (render_effects_run (5 + n) es d x Hf Hx)
    as (d' & new & Hr & Hf' & Hle & Hfr & Hch' & Hl' & Hin' & Hx' & Hpn).
  assert (Ha : nodes d' !! (3 + n) = nodes d !! (3 + n)) by (apply Hfr; lia).
  unfold field_of in Ht. destruct (nodes d !! (3 + n)) as [y|] eqn:Hy; [|done].
  destruct (paint_run (widget_at n) s' d' y Hf' ltac:(cbn [partyCounterAbbr widget_at]; by rewrite Ha))
    as (ns & Hp & Hf'' & Hfr' & Ht' & Hti' & Hpp & Hpl).
  cbv [mbind DM_bind]. rewrite Hr, Hp. cbn [fst nodes next]. cbn [partyCounterAbbr widget_at] in *.
  destruct (lines_frame (nodes d) (nodes d') (childNodes x) (7 + n) (next d) Hin) as [Hl1 Hin1];
    [intros k Hk; apply Hfr; lia|].
  assert (Hr' : Forall (fun q => forall k, in_para (nodes d') q k -> 7 + n <= k < next d') (childNodes x ++ new)).
  { apply Forall_app. split; [eapply Forall_impl; [exact Hin1|]|eapply Forall_impl; [exact Hin'|]];
      intros q Hq k Hk; specialize (Hq k Hk); lia. }
  assert (Hfr2 : forall k, 7 + n <= k < next d' -> ns !! k = nodes d' !! k) by (intros k Hk; apply Hfr'; lia).
  destruct (lines_frame (nodes d') ns (childNodes x ++ new) (7 + n) (next d') Hr' Hfr2) as [Hl2 Hin2].
  assert (Hpl' : Forall (para_links ns (5 + n)) (childNodes x ++ new)).
  { apply Forall_forall. intros q Hq. rewrite Forall_forall in Hr'.
    apply (para_links_frame (nodes d') ns _ q (7 + n) (next d')); [by apply Hr'|done|].
    apply elem_of_app in Hq as [Hq|Hq]; [|rewrite Forall_forall in Hpn; by apply Hpn].
    rewrite Forall_forall in Hin, Hpl0.
    apply (para_links_frame (nodes d) (nodes d') _ q (7 + n) (next d)); [by apply Hin|intros k Hk; apply Hfr; lia|by apply Hpl0]. }
  cbv zeta. split; [done|]. split; [lia|]. split; [done|].
  split; [exists vp; apply (wired_frame (nodes d) ns n vp Hw); intros k Hk;
    [rewrite Hpp|rewrite Hpl]; apply (render_effects_fields _ (5 + n) x new d d'); done || lia|].
  split; [done|]. split; [done|]. exists (childNodes x ++ new).
  split; [rewrite <- Hch'; unfold field_of; rewrite Hfr' by lia; done|].
  split; [rewrite Hl2; apply mapM_app_Some; [by rewrite Hl1|done]|done].
Qed.

(** Along a run, the coupling collects the lines of every step. *)
Lemma page_run_shows n p evs L :
  shows n p L ->
  pst (page_run p evs) = run_events (pst p) evs /\
  shows n (page_run p evs) (L ++ rendered (run_effects (pst p) evs)).
Proof.
  revert p L. induction evs as [|ev evs IH]; intros p L Hs; simpl.
  - by rewrite app_nil_r.
  - destruct (IH (page_step p ev) _ (page_step_shows n p ev L Hs)) as [Hst Hsh].
    split; [done|]. by rewrite rendered_app, app_assoc.
Qed.

(** [hostOrJoin] starts the page with the widget's counter showing the
    initial closure state and an empty message list. *)
Lemma page_init_shows myName hostId url v0 d0 ve v vp :
  ordered d0 -> nodes d0 !! ve = Some v -> parentNode v = Some vp ->
  exists p0, page_init myName hostId url v0 ve d0 = Some p0 /\
    pst p0 = hostOrJoin_init myName hostId url v0 /\ shows (next d0) p0 [].
Proof.
  intros Ho Hve Hp. destruct (build_ordered d0 ve v vp Ho Hve Hp) as (d1 & w & Hb & Ho1 & _).
  destruct (Ho ve v Hve) as [Hlt Hvp]. specialize (Hvp vp Hp).
  destruct (build_shape d0 ve v vp (ordered_fresh d0 Ho) Hve Hp ltac:(lia))
    as (ns1 & Hb' & _ & _ & _ & H0 & H1 & H2 & H3 & H4 & H5 & H6 & Ht & Hti & Hch).
  rewrite Hb' in Hb. injection Hb as <- <-.
  unfold page_init. rewrite Hb'. eexists. split; [done|]. split; [done|].
  unfold shows. cbn [pst pdoc pw nodes next].
  split; [done|]. split; [lia|]. split; [by apply ordered_fresh|].
  split; [exists vp; by split_and!|]. split; [done|]. split; [done|].
  exists []. done.
Qed.

(** ** Theorems *)

(** C21: The message list holds the transcript: after [hostOrJoin] on a
    page whose video has a parent, and any sequence of events, the
    closure state is the one [Peer.step] computes and the message list
    shows, one paragraph each and in order, exactly the lines every
    listener of the run rendered, with their colours. *)
Theorem page_transcript myName hostId url v0 d0 ve v vp evs :
  ordered d0 -> nodes d0 !! ve = Some v -> parentNode v = Some vp ->
  exists p0, page_init myName hostId url v0 ve d0 = Some p0 /\
    let p := page_run p0 evs in
    pst p = run_events (hostOrJoin_init myName hostId url v0) evs /\
    exists ps, field_of childNodes (nodes (pdoc p)) (messageContainer (pw p)) = Some ps /\
      mapM (para (nodes (pdoc p))) ps = Some (rendered (run_effects (hostOrJoin_init myName hostId url v0) evs)).
Proof.
  intros Ho Hve Hp. destruct (page_init_shows myName hostId url v0 d0 ve v vp Ho Hve Hp) as (p0 & Hi & Hs0 & Hsh).
  exists p0. split; [done|]. cbv zeta. rewrite <- Hs0.
  destruct (page_run_shows _ p0 evs [] Hsh) as [Hst (Hw & _ & _ & _ & _ & _ & ps & Hch & Hl & _)].
  split; [done|]. rewrite Hw. by exists ps.
Qed.

Lemma page_transcript_witness :
  exists p0, page_init "Ann" None "https://watch" (mkVideo 0 true false) 2 demo_page = Some p0 /\
    let p := page_run p0 [PeerOpen "ann-id"; UserType "hi"; KeyUp "Enter"] in
    pst p = run_events (hostOrJoin_init "Ann" None "https://watch" (mkVideo 0 true false))
              [PeerOpen "ann-id"; UserType "hi"; KeyUp "Enter"] /\
    exists ps, field_of childNodes (nodes (pdoc p)) (messageContainer (pw p)) = Some ps /\
      mapM (para (nodes (pdoc p))) ps = Some (rendered (run_effects
        (hostOrJoin_init "Ann" None "https://watch" (mkVideo 0 true false)) [PeerOpen "ann-id"; UserType "hi"; KeyUp "Enter"])).
Proof.
  apply (page_transcript "Ann" None "https://watch" (mkVideo 0 true false) demo_page 2 demo_video 1
           [PeerOpen "ann-id"; UserType "hi"; KeyUp "Enter"]); [apply demo_page_ordered|reflexivity..].
Defined.

(** C19: The counter shows the party: on every page [hostOrJoin] leaves
    after any sequence of events, the abbr of the party counter reads
    the number of party members plus one and its tooltip lists "You"
    and the members' names, as the document shows them. *)
Theorem page_counter_shows_party myName hostId url v0 d0 ve v vp evs :
  ordered d0 -> nodes d0 !! ve = Some v -> parentNode v = Some vp ->
  exists p0, page_init myName hostId url v0 ve d0 = Some p0 /\
    let p := page_run p0 evs in
    field_of textContent (nodes (pdoc p)) (partyCounterAbbr (pw p)) = Some (counter_text (party (pst p))) /\
    field_of Dom.title (nodes (pdoc p)) (partyCounterAbbr (pw p)) = Some (title_text (party (pst p))).
Proof.
  intros Ho Hve Hp. destruct (page_init_shows myName hostId url v0 d0 ve v vp Ho Hve Hp) as (p0 & Hi & Hs0 & Hsh).
  exists p0. split; [done|]. cbv zeta.
  destruct (page_run_shows _ p0 evs [] Hsh) as [Hst (Hw & _ & _ & _ & Ht & Hti & _)]. rewrite Hw.
  assert (Hr : reachable myName hostId url v0 (pst (page_run p0 evs))).
  { rewrite Hst, Hs0. apply reachable_run_events. constructor. }
  destruct (reachable_inv _ _ _ _ _ Hr) as (_ & _ & [Hc Htt] & _).
  rewrite <- Hc, <- Htt. done.
Qed.

Lemma page_counter_shows_party_witness :
  exists p0, page_init "Ann" (Some "host-id") "https://watch" (mkVideo 0 true false) 2 demo_page = Some p0 /\
    let p := page_run p0 [PeerOpen "ann-id"; Incoming "bob"; ConnOpen 1; ConnData 1 (encode (Greet "Bob" None))] in
    field_of textContent (nodes (pdoc p)) (partyCounterAbbr (pw p)) = Some (counter_text (party (pst p))) /\
    field_of Dom.title (nodes (pdoc p)) (partyCounterAbbr (pw p)) = Some (title_text (party (pst p))).
Proof.
  apply (page_counter_shows_party "Ann" (Some "host-id") "https://watch" (mkVideo 0 true false) demo_page 2
           demo_video 1 [PeerOpen "ann-id"; Incoming "bob"; ConnOpen 1; ConnData 1 (encode (Greet "Bob" None))]); [apply demo_page_ordered|reflexivity..].
Defined.

(** C16: The chat keeps input events for its whole life: after [hostOrJoin]
    and any sequence of events, a click, keydown or keyup aimed at a node
    of the widget, or at a line it has shown (the paragraph or its text),
    runs no bubble listener of the page: the listeners it runs outside
    the nodes [hostOrJoin] and the handlers created are capture
    listeners. *)
Theorem page_stops_input_events myName hostId url v0 d0 ve v vp evs :
  ordered d0 -> nodes d0 !! ve = Some v -> parentNode v = Some vp ->
  exists p0, page_init myName hostId url v0 ve d0 = Some p0 /\
    let p := page_run p0 evs in
    forall t ty m l,
      (t ∈ widget_nodes (pw p) \/
       exists ps q, field_of childNodes (nodes (pdoc p)) (messageContainer (pw p)) = Some ps /\
                    q ∈ ps /\ in_para (nodes (pdoc p)) q t) ->
      ty ∈ ["click"; "keydown"; "keyup"] ->
      (m, l) ∈ dispatch (pdoc p) t ty -> next d0 <= m \/ capture_listener (nodes (pdoc p)) m ty l.
Proof.
  intros Ho Hve Hp. destruct (page_init_shows myName hostId url v0 d0 ve v vp Ho Hve Hp) as (p0 & Hi & _ & Hsh).
  exists p0. split; [done|]. cbv zeta.
  destruct (page_run_shows _ p0 evs [] Hsh) as [_ (Hw & Hn & _ & [vp' Hwd] & _ & _ & ps0 & Hch & _ & Hin & Hpl)].
  rewrite Hw. intros t ty m l [Ht|(ps & q & Hps & Hq & Ht)].
  - by apply (widget_stops_on _ (next d0) vp' Hwd Hn).
  - cbn [messageContainer widget_at] in Hps. rewrite Hch in Hps. injection Hps as <-.
    rewrite Forall_forall in Hin, Hpl.
    apply (line_stops_on _ (next d0) vp' q t Hwd Hn (Hpl q Hq)); [|done].
    intros k Hk. specialize (Hin q Hq k Hk). lia.
Qed.

Lemma page_stops_input_events_witness :
  exists p0, page_init "Ann" None "https://watch" (mkVideo 0 true false) 2 demo_page = Some p0 /\
    let p := page_run p0 [PeerOpen "ann-id"; UserType "hi"; KeyUp "Enter"] in
    forall t ty m l,
      (t ∈ widget_nodes (pw p) \/
       exists ps q, field_of childNodes (nodes (pdoc p)) (messageContainer (pw p)) = Some ps /\
                    q ∈ ps /\ in_para (nodes (pdoc p)) q t) ->
      ty ∈ ["click"; "keydown"; "keyup"] ->
      (m, l) ∈ dispatch (pdoc p) t ty -> next demo_page <= m \/ capture_listener (nodes (pdoc p)) m ty l.
Proof.
  apply (page_stops_input_events "Ann" None "https://watch" (mkVideo 0 true false) demo_page 2 demo_video 1
           [PeerOpen "ann-id"; UserType "hi"; KeyUp "Enter"]); [apply demo_page_ordered|reflexivity..].
Defined.

End Page.
