(* ===== verification/Wire.v ===== *)
(** * Only the messages of the spec's table go on the wire

    Every [conn.send] of the page sends an object literal of the code
    (popup.js:80, 247-250, 312-315, 325-328, 387, 393, 408, 431, 486-487)
    or one of the messages a connection's extra [open] listener was given
    when it was created ([connect], popup.js:405-409 and 483-488).  None
    of them is a [greet] with a [time].  [sends_sent c] says that the
    handler [c] keeps every connection's [open] messages among those a
    page sends ([on_open_sent]) and that every message it sends is one
    ([sent_effect]); the tactic [wire] splits a handler into its steps as
    [State.pres] does, and [handle_sends_sent] covers every listener.

    On a network of pages that ran [hostOrJoin] ([Network]), every
    message on the wire, at any point of any run, is then one a page
    sends ([wire_sent_only]): its value is a well-typed record of the
    spec's table, and a [greet] on the wire never carries a [time], so
    the join notice of popup.js:386 always reads "the party hasn't
    started yet". *)

From S2P Require Import Prelude.
From S2P Require Import JsObject.
From S2P Require Import JsNum.
From S2P Require Import Message.
From S2P Require Import State.
From S2P Require Import Playback.
From S2P Require Import Membership.
From S2P Require Import Chat.
From S2P Require Import Peer.
From S2P Require Import Network.

Module Wire.
Import Message State Playback Membership Chat Peer Network.

(** The messages every connection's extra [open] listener sends are
    ones a page sends. *)
Definition on_open_sent (s : St) : Prop :=
  map_Forall (fun _ cn => Forall sent (c_on_open cn)) (conns s).

(** A [conn.send] of a message a page sends, or another effect. *)
Definition sent_effect (e : Effect) : Prop :=
  match e with ESend _ m => sent m | _ => True end.

(** [c] keeps [on_open_sent] and sends only messages a page sends. *)
Definition sends_sent {A} (c : M A) : Prop :=
  forall s, on_open_sent s -> on_open_sent (final c s) /\ Forall sent_effect (effects c s).

(** Every page of the network keeps [on_open_sent], and every message
    on the wire is one a page sends. *)
Definition net_ok (n : Net) : Prop :=
  map_Forall (fun _ s => on_open_sent s) (Network.nodes n) /\ Forall (fun x => sent x.2) (wire n).

(** ** Handlers *)

Create HintDb wire.

Lemma ss_bind {A B} (c : M A) (f : A -> M B) :
  sends_sent c -> (forall a, sends_sent (f a)) -> sends_sent (c ≫= f).
Proof.
  intros Hc Hf s Hs. destruct (Hc s Hs) as [Hs1 He1]. unfold final, effects in *. cbv [mbind M_bind].
  destruct (c s) as [[s1 e1] [x|a]]; simpl in *; [by split|].
  destruct (Hf a s1 Hs1) as [Hs2 He2]. unfold final, effects in Hs2, He2.
  destruct (f a s1) as [[s2 e2] r]; simpl in *.
  split; [done|]. by apply Forall_app.
Qed.

Lemma ss_ret {A} (a : A) : sends_sent (mret a).
Proof. intros s Hs. by split. Qed.

Lemma ss_gets {A} (f : St -> A) : sends_sent (gets f).
Proof. intros s Hs. by split. Qed.

Lemma ss_throw {A} x : sends_sent (throw (A:=A) x).
Proof. intros s Hs. by split. Qed.

Lemma ss_emit e : sent_effect e -> sends_sent (emit e).
Proof. intros He s Hs. split; [done|]. by constructor. Qed.

Lemma ss_modify f : (forall s, conns (f s) = conns s) -> sends_sent (modify f).
Proof. intros Hf s Hs. split; [|done]. unfold on_open_sent, final. simpl. by rewrite Hf. Qed.

Lemma ss_for_each {A} (l : list A) (f : A -> M unit) :
  (forall x, sends_sent (f x)) -> sends_sent (for_each l f).
Proof.
  intros Hf. induction l as [|x l IH]; simpl; [apply ss_ret|]. apply ss_bind; [apply Hf|intros _; apply IH].
Qed.

Lemma ss_sendAll m : sent m -> sends_sent (sendAll m).
Proof.
  intros Hm. unfold sendAll. apply ss_bind; [apply ss_gets|intros p].
  apply ss_for_each. intros k. destruct (JsObject.get k p); [by apply ss_emit|apply ss_throw].
Qed.

Lemma ss_media_play : sends_sent media_play.
Proof. intros s Hs. unfold final, effects. rewrite media_play_spec. by destruct (paused (video s)). Qed.

Lemma ss_media_pause : sends_sent media_pause.
Proof. intros s Hs. unfold final, effects. rewrite media_pause_spec. by destruct (paused (video s)). Qed.

Lemma ss_media_seek t : sends_sent (media_seek t).
Proof. intros s Hs. unfold final, effects. by rewrite media_seek_spec. Qed.

Lemma ss_set_status c st : sends_sent (set_status c st).
Proof.
  intros s Hs. split; [|done]. unfold on_open_sent, final. simpl. intros k cn Hk.
  apply (lookup_alter_Some (M:=gmap ConnId)) in Hk as [(_ & cn0 & Hk & ->)|(_ & Hk)]; [|exact (Hs _ _ Hk)].
  exact (Hs _ _ Hk).
Qed.

(** A new connection object whose [open] listener sends [msgs]. *)
Lemma ss_add_conn c id st msgs n :
  Forall sent msgs -> sends_sent (modify (fun s => set_conns (<[c := mkConn id st msgs]> (conns s)) n s)).
Proof. intros Hm s Hs. split; [|done]. unfold final. simpl. by apply map_Forall_insert_2. Qed.

Lemma ss_connect id msgs : Forall sent msgs -> sends_sent (connect id msgs).
Proof.
  intros Hm. unfold connect. apply ss_bind; [apply ss_gets|intros c].
  apply ss_bind; [by apply ss_add_conn|intros _; apply ss_bind; [by apply ss_emit|intros _; apply ss_ret]].
Qed.

#[export] Hint Resolve ss_ret ss_gets ss_throw ss_media_play ss_media_pause ss_media_seek
  ss_set_status : wire.
#[export] Hint Extern 1 (sends_sent (modify _)) => apply ss_add_conn; repeat constructor : wire.

(** [wire]: split a handler into its steps and close the steps that
    send nothing or a literal a page sends. *)
Ltac wire :=
  repeat match goal with
  | |- sends_sent (mbind _ _) => apply ss_bind; [|intros ?]
  | |- sends_sent (for_each _ _) => apply ss_for_each; intros ?
  | |- sends_sent (match ?x with _ => _ end) => destruct x
  | |- sends_sent (if ?b then _ else _) => destruct b
  | |- sends_sent (emit _) => apply ss_emit; exact I
  | |- sends_sent (modify _) => apply ss_modify; intros ?; reflexivity
  | |- sends_sent (sendAll _) => apply ss_sendAll; exact I
  | |- sends_sent (connect _ _) => apply ss_connect; repeat constructor
  | |- sends_sent _ => solve [eauto with wire]
  end.

Lemma ss_for_each_in {A} (l : list A) (f : A -> M unit) :
  (forall x, x ∈ l -> sends_sent (f x)) -> sends_sent (for_each l f).
Proof.
  intros Hf. induction l as [|x l IH]; simpl; [apply ss_ret|].
  apply ss_bind; [apply Hf, elem_of_cons; by left|intros _; apply IH].
  intros y Hy. apply Hf, elem_of_cons. by right.
Qed.

(** The [open] listener sends the messages the connection was created
    with, which are ones a page sends. *)
Lemma ss_onConnOpen c : sends_sent (onConnOpen c).
Proof.
  intros s Hs. destruct (conns s !! c) as [cn|] eqn:Hc.
  - assert (E : onConnOpen c s = (set_status c Open;; for_each (c_on_open cn) (fun m => emit (ESend c m))) s)
      by (unfold onConnOpen; cbv [mbind M_bind gets]; rewrite Hc;
          destruct (set_status c Open s) as [[s1 e1] [x|a]]; [done|];
          destruct (for_each _ _ s1) as [[??]?]; reflexivity).
    assert (H : sends_sent (set_status c Open;; for_each (c_on_open cn) (fun m => emit (ESend c m)))).
    { apply ss_bind; [apply ss_set_status|intros _]. apply ss_for_each_in. intros m Hm. apply ss_emit.
      specialize (Hs c cn Hc). cbv beta in Hs. rewrite Forall_forall in Hs. by apply Hs. }
    destruct (H s Hs) as [H1 H2]. unfold final, effects in *. rewrite E. by split.
  - unfold onConnOpen, final, effects. cbv [mbind M_bind gets]. rewrite Hc. by split.
Qed.

Lemma ss_playback :
  sends_sent runTimer /\ sends_sent runMedia /\
  (forall a t, sends_sent (onPlay a t)) /\ (forall a t, sends_sent (onPause a t)) /\
  (forall t, sends_sent (dampenedPause t)) /\ (forall t, sends_sent (dampenedPlay t)).
Proof.
  unfold runTimer, runMedia, timerTask, mediaTask, onPlay, onPause, dampenedPause, dampenedPlay,
    announcePlay, playHandler, pauseHandler, set_dplay, set_dpause, setTimeout, systemMessage, addMessage.
  split_and!; intros; wire.
Qed.

Lemma ss_membership :
  (forall c peer nm t, sends_sent (onGreet c peer nm t)) /\ (forall c, sends_sent (onRequestConnections c)) /\
  (forall peer cs t b, sends_sent (onRespondConnections peer cs t b)) /\
  (forall c peer nm, sends_sent (onReturnGreet c peer nm)) /\ (forall c, sends_sent (onGetUrl c)) /\
  (forall peer, sends_sent (onClose peer)) /\ sends_sent onConnError /\
  (forall id, sends_sent (onPeerOpen id)) /\ sends_sent onPeerError /\
  (forall id, sends_sent (onIncoming id)) /\ sends_sent onCopyHostId /\ sends_sent onUnload.
Proof.
  destruct ss_playback as (_ & _ & _ & _ & Hdp & Hdy).
  unfold onGreet, onRequestConnections, onRespondConnections, respondBody, onReturnGreet, onGetUrl,
    onClose, onConnError, onPeerOpen, onPeerError, onIncoming, onCopyHostId, onUnload, enter,
    updatePartyCounter, updateTitle, systemMessage, errorMessage.
  split_and!; intros; wire; auto.
Qed.

Lemma ss_chat : (forall key, sends_sent (onKeyUp key)) /\ (forall a m, sends_sent (onChat a m)).
Proof.
  unfold onKeyUp, onChat, run_command, addMessage, systemMessage, errorMessage. split; intros; wire.
Qed.

(** Every listener of the page keeps [on_open_sent] and sends only
    messages a page sends. *)
Lemma handle_sends_sent ev : sends_sent (handle ev).
Proof.
  destruct ss_playback as (Ht & Hm & Hpl & Hpa & _ & _).
  destruct ss_membership as (Hg & Hr & Hrc & Hrg & Hu & Hcl & Hce & Hpo & Hpe & Hin & Hch & Hun).
  destruct ss_chat as [Hk Hc].
  destruct ev; unfold handle; wire; try apply ss_onConnOpen; auto.
  unfold onData. wire; auto.
Qed.

(** ** The network *)

Lemma node_step_ok s ev :
  on_open_sent s -> on_open_sent (node_step s ev).1 /\ Forall sent_effect (node_step s ev).2.
Proof. intros Hs. unfold node_step. destruct (deliverable ev s); [simpl; by apply handle_sends_sent|by split]. Qed.

Lemma sends_ok es : Forall sent_effect es -> Forall (fun cm => sent cm.2) (sends es).
Proof. induction 1 as [|[] es He _ IH]; simpl; try done. by constructor. Qed.

Lemma tag_ok {X} (P : X -> Prop) p (l : list (ConnId * X)) :
  Forall (fun cx => P cx.2) l -> Forall (fun x => P x.2) (tag p l).
Proof. induction 1; simpl; by constructor. Qed.

(** The oldest message of a connection was on the wire. *)
Lemma take_msg_ok (P : Msg -> Prop) p c w m w' :
  take_msg p c w = Some (m, w') -> Forall (fun x => P x.2) w -> P m /\ Forall (fun x => P x.2) w'.
Proof.
  revert w'. induction w as [|[[p' c'] m'] w IH]; intros w' Ht Hw; simpl in Ht; [done|].
  apply Forall_cons in Hw as [Hm' Hw]. case_bool_decide; [injection Ht as <- <-; by split|].
  destruct (take_msg p c w) as [[m0 w0]|] eqn:Ht0; simpl in Ht; [|done]. injection Ht as <- <-.
  destruct (IH w0 eq_refl Hw). split; [done|]. by constructor.
Qed.

Lemma run_at_ok p ev n : net_ok n -> net_ok (run_at p ev n).
Proof.
  intros [Hn Hw]. destruct (Network.nodes n !! p) as [s|] eqn:Hs; [|unfold run_at; by rewrite Hs].
  rewrite (run_at_some p ev n s Hs). destruct (node_step_ok s ev (Hn p s Hs)) as [H1 H2].
  split; simpl; [by apply map_Forall_insert_2|]. apply Forall_app. split; [done|]. by apply tag_ok, sends_ok.
Qed.

Lemma net_step_ok n e : net_ok n -> net_ok (net_step n e).
Proof.
  intros Hok. destruct e as [p ev|i|p c|p c|p c]; simpl; try by apply run_at_ok.
  - unfold accept. destruct (dials n !! i) as [[[p c] q]|]; [|done].
    destruct Hok as [Hn Hw]. destruct (Network.nodes n !! q); apply run_at_ok; by split.
  - unfold deliver. destruct (other_end (links n) p c) as [[q c']|]; [|done].
    destruct (take_msg p c (wire n)) as [[m w']|] eqn:Ht; [|done].
    destruct Hok as [Hn Hw]. apply run_at_ok. split; [done|]. exact (proj2 (take_msg_ok sent _ _ _ _ _ Ht Hw)).
  - destruct (other_end (links n) p c) as [[q c']|]; [by apply run_at_ok, run_at_ok|done].
Qed.

Lemma run_net_ok n es : net_ok n -> net_ok (run_net n es).
Proof. revert n. induction es as [|e es IH]; intros n Hn; [done|]. apply IH, net_step_ok, Hn. Qed.

Lemma net_init_ok url ps : net_ok (net_init url ps).
Proof.
  split; [|constructor]. intros k s Hk. apply elem_of_list_to_map_2 in Hk.
  apply list_elem_of_fmap in Hk as ([[p nm] h] & [= -> ->] & _).
  intros c cn. simpl. by rewrite lookup_empty.
Qed.

(** ** Theorems *)

(** C14: On a network of pages that ran [hostOrJoin], at every point of
    every run, each message on the wire is one a page sends: its value is
    a flat record of the spec's table, and a [greet] carries no [time],
    so the join notice its receiver renders (popup.js:386) always reads
    "the party hasn't started yet". *)
Theorem wire_sent_only url ps evs p c m :
  (p, c, m) ∈ wire (run_net (net_init url ps) evs) ->
  sent m /\ well_typed (encode m) = true /\
  (forall nm t, m = Greet nm t -> t = None /\
     forall c' peer s, head (effects (onGreet c' peer nm t) s) =
       Some (ERender SystemLine (nm +:+ " has joined (the party hasn't started yet)."))).
Proof.
  intros Hin. destruct (run_net_ok _ evs (net_init_ok url ps)) as [_ Hw].
  rewrite Forall_forall in Hw. specialize (Hw _ Hin). cbn in Hw.
  split; [done|]. split; [by apply sent_well_typed|]. intros nm t ->.
  destruct t as [t|]; [done|]. by split.
Qed.

Lemma wire_sent_only_witness :
  let n := run_net (net_init "u" [("H", "Hana", None); ("J", "Jo", Some "H")])
             [NLocal "H" (PeerOpen "H"); NLocal "J" (PeerOpen "J"); NAccept 0; NOpen "J" 0] in
  ("J", 0%nat, Greet "Jo" None) ∈ wire n /\
  (sent (Greet "Jo" None) /\ well_typed (encode (Greet "Jo" None)) = true /\
   (forall nm t, Greet "Jo" None = Greet nm t -> t = None /\
      forall c' peer s, head (effects (onGreet c' peer nm t) s) =
        Some (ERender SystemLine (nm +:+ " has joined (the party hasn't started yet).")))).
Proof.
  intros n. assert (Hin : ("J", 0%nat, Greet "Jo" None) ∈ wire n)
    by (apply (bool_decide_unpack _); vm_compute; reflexivity).
  split; [exact Hin|]. exact (wire_sent_only "u" _ _ "J" 0 (Greet "Jo" None) Hin).
Defined.

End Wire.
